(** * vm5k: reservation planning, host distribution and network identities

    A shallow embedding of the planning core of [vm5k.py] (Python 2): the
    slot filter, the host-count distribution over a cycle of clusters, the
    IP/MAC generation, the reconciliation of a placement topology with the
    reserved hosts, and the dnsmasq configuration strings; then the
    checks of the options, the reading of the placement file and of the
    option [-r], the resolution of the requested elements, the request
    handed to the reservation, the search for the KaVLAN and the number
    of machines that are defined.

    Python integers are unbounded, hence [Z].  A dict is a [gmap]; where the
    order of [iterkeys()] matters it is an explicit list.  Exceptions, the
    script's [exit()] and loops that may not end are results of the
    [outcome] type. *)

From stdpp Require Import gmap strings list fin_maps sorting pretty.
From Stdlib Require Import ZArith Lia Ascii QArith.

Open Scope Z_scope.

(** ** Results of running a piece of the script *)

Inductive exn : Type :=
  | StopIteration
  | IndexError
  | ValueError
  | KeyError (k : string)
  | SystemExit.

Inductive outcome (A : Type) : Type :=
  | Return (a : A)
  | Raise (e : exn)
  | OutOfFuel.

Arguments Return {A} a.
Arguments Raise {A} e.
Arguments OutOfFuel {A}.

#[global] Instance outcome_bind : MBind outcome := λ A B k m,
  match m with
  | Return a => k a
  | Raise e => Raise e
  | OutOfFuel => OutOfFuel
  end.

(** [d[k]] on a dict: [KeyError] when the key is absent. *)
Definition getitem {V} (d : gmap string V) (k : string) : outcome V :=
  match d !! k with
  | Some v => Return v
  | None => Raise (KeyError k)
  end.

(** [l[0]] on a list. *)
Definition first_item {A} (l : list A) : outcome A :=
  match l with
  | x :: _ => Return x
  | [] => Raise IndexError
  end.

Definition Zsum (l : list Z) : Z := foldr Z.add 0 l.

(** ** Capacity model (lines 236-241) *)

Record attr : Type := Attr { cpu : Z; mem : Z }.

(** What [get_host_attributes] gives for the first host of a cluster: the
    number of hardware threads and the RAM in bytes. *)
Record host_attributes : Type := HostAttributes { smt_size : Z; ram_size : Z }.

(** Lines 236-241: one entry per cluster, the memory in MB. *)
Definition fetch_attrs (get_host_attributes : string → host_attributes)
    (clusters : list string) : gmap string attr :=
  foldl (λ d c, let a := get_host_attributes (c +:+ "-1") in
                <[c := Attr (smt_size a) (ram_size a / 1048576)]> d)
        ∅ clusters.

(** ** Planning slots: the tuple [(start, end, {resource: n_node})] *)

Record slot : Type := Slot {
  slot_start : Z;
  slot_end : Z;
  slot_avail : gmap string Z
}.

#[global] Instance slot_eq_dec : EqDecision slot.
Proof. solve_decision. Defined.

(** [list.remove(x)]: drops the first item equal to [x], [ValueError] when
    there is none. *)
Fixpoint py_remove {A} `{EqDecision A} (x : A) (l : list A) : outcome (list A) :=
  match l with
  | [] => Raise ValueError
  | y :: l' =>
      if decide (x = y) then Return l'
      else (r ← py_remove x l'; Return (y :: r))
  end.

Module SlotFinder.
Section Filter.

Variable clusters : list string.
Variable clusters_attr : gmap string attr.
Variable resources : gmap string Z.
Variables total_mem total_cpu : Z.

(** The accumulators of the inner loop: [slot_ram], [slot_cpu],
    [slot_has_nodes]. *)
Record acc : Type := Acc { slot_ram : Z; slot_cpu : Z; slot_has_nodes : bool }.

(** Body of [for resource, n_node in slot[2].iteritems()] (lines 273-279). *)
Definition scan_item (a : acc) (it : string * Z) : outcome acc :=
  let '(resource, n_node) := it in
  a1 ← (if bool_decide (resource ∈ clusters) then
          at_ ← getitem clusters_attr resource;
          Return (Acc (slot_ram a + n_node * mem at_)
                      (slot_cpu a + n_node * cpu at_)
                      (slot_has_nodes a))
        else Return a);
  Return
    (match resources !! resource with
     | Some minimum =>
         if n_node <? minimum
         then Acc (slot_ram a1) (slot_cpu a1) false
         else a1
     | None => a1
     end).

Fixpoint scan_items (a : acc) (items : list (string * Z)) : outcome acc :=
  match items with
  | [] => Return a
  | it :: items' => a' ← scan_item a it; scan_items a' items'
  end.

(** Lines 269-279 for one slot; the items come in the order of the map. *)
Definition scan_slot (s : slot) : outcome acc :=
  scan_items (Acc 0 0 true) (map_to_list (slot_avail s)).

(** The test of line 282; [/] on Python 2 integers is floor division. *)
Definition discard (a : acc) : bool :=
  (slot_ram a <? total_mem)
  || (slot_cpu a <? total_cpu / 2)
  || negb (slot_has_nodes a).

(** [for slot in tmp_slots: ... planning.slots.remove(slot)]
    (lines 268-283): [tmp] is the copy that is iterated, [slots] is
    [planning.slots]. *)
Fixpoint filter_loop (tmp : list slot) (slots : list slot) : outcome (list slot) :=
  match tmp with
  | [] => Return slots
  | s :: tmp' =>
      a ← scan_slot s;
      if discard a
      then (slots' ← py_remove s slots; filter_loop tmp' slots')
      else filter_loop tmp' slots
  end.

(** Lines 267-287: the filter, then [exit()] when nothing is left. *)
Definition find_slots (planning_slots : list slot) : outcome (list slot) :=
  slots ← filter_loop planning_slots planning_slots;
  if bool_decide (length slots = 0%nat) then Raise SystemExit
  else Return slots.

(** *** The feasibility test in the words of the specification *)

Definition ram_of (r : string) : Z :=
  match clusters_attr !! r with Some a => mem a | None => 0 end.
Definition cpu_of (r : string) : Z :=
  match clusters_attr !! r with Some a => cpu a | None => 0 end.

Definition cluster_items (s : slot) : list (string * Z) :=
  filter (λ it, it.1 ∈ clusters) (map_to_list (slot_avail s)).

Definition spec_slot_ram (s : slot) : Z :=
  Zsum (map (λ it : string * Z, it.2 * ram_of it.1) (cluster_items s)).
Definition spec_slot_cpu (s : slot) : Z :=
  Zsum (map (λ it : string * Z, it.2 * cpu_of it.1) (cluster_items s)).

(** Some resource of the slot with a declared minimum is below it. *)
Definition below_minimum (s : slot) : Prop :=
  ∃ r n m, slot_avail s !! r = Some n ∧ resources !! r = Some m ∧ n < m.

Definition insufficient (s : slot) : Prop :=
  total_mem > spec_slot_ram s
  ∨ total_cpu / 2 > spec_slot_cpu s
  ∨ below_minimum s.

(** [clusters_attr] is filled for every member of [clusters]
    (lines 238-241). *)
Definition attrs_cover : Prop :=
  ∀ c, c ∈ clusters → is_Some (clusters_attr !! c).

(** Helpers for the closed form of the loops. *)

Definition in_clusters (it : string * Z) : Prop := it.1 ∈ clusters.

Definition ram_sum (items : list (string * Z)) : Z :=
  Zsum (map (λ it : string * Z, it.2 * ram_of it.1)
            (filter in_clusters items)).

Definition cpu_sum (items : list (string * Z)) : Z :=
  Zsum (map (λ it : string * Z, it.2 * cpu_of it.1)
            (filter in_clusters items)).

Definition meets_minimum (it : string * Z) : bool :=
  match resources !! it.1 with
  | Some minimum => negb (it.2 <? minimum)
  | None => true
  end.

Definition ram_part (it : string * Z) : Z :=
  if bool_decide (it.1 ∈ clusters) then it.2 * ram_of it.1 else 0.

Definition cpu_part (it : string * Z) : Z :=
  if bool_decide (it.1 ∈ clusters) then it.2 * cpu_of it.1 else 0.

(** The verdict of line 282 on a slot, computed from the formulas. *)
Definition keepb (s : slot) : bool :=
  negb (discard (Acc (spec_slot_ram s)
                     (spec_slot_cpu s)
                     (forallb meets_minimum (map_to_list (slot_avail s))))).

End Filter.
End SlotFinder.

(** ** Host-count distribution on the chosen slot (lines 296-325) *)

(** [itertools.cycle]: the iterator is the period still to come; [next()]
    yields its head and queues it again.  On an empty iterable the first
    [next()] raises [StopIteration]. *)
Definition cycle_next (it : list string) : outcome (string * list string) :=
  match it with
  | [] => Raise StopIteration
  | k :: rest => Return (k, rest ++ [k])
  end.

Module Distributor.

(** The variables that the loop of lines 306-315 updates. *)
Record state : Type := State {
  cluster_nodes : gmap string Z;
  iter_cluster : list string;
  cluster : string;
  node_ram : Z
}.

Section Distribute.

Variable clusters : list string.
Variable clusters_attr : gmap string attr.
(** [chosen_slot[2]] *)
Variable avail : gmap string Z.
Variable vm_ram_size : Z.
Variable get_cluster_site : string → string.

(** Lines 296-299: one zero entry per key of the slot that is a cluster. *)
Definition init_cluster_nodes : gmap string Z :=
  foldl (λ cn c, if bool_decide (c ∈ clusters) then <[c := 0]> cn else cn)
        ∅ (map_to_list avail).*1.

(** [ks] is an order in which [d.iterkeys()] may enumerate the dict [d]:
    Python 2 fixes none. *)
Definition iterkeys_of (d : gmap string Z) (ks : list string) : Prop :=
  NoDup ks ∧ ∀ k, k ∈ ks ↔ is_Some (d !! k).

(** A test for [iterkeys_of init_cluster_nodes ks] that computes. *)
Definition iterkeys_check (ks : list string) : bool :=
  bool_decide (NoDup ks)
  && forallb (λ k, bool_decide (k ∈ (map_to_list avail).*1 ∧ k ∈ clusters)) ks
  && forallb (λ k, bool_decide (k ∈ clusters → k ∈ ks)) (map_to_list avail).*1.

(** Lines 314-315: [while cluster_nodes[cluster] >= chosen_slot[2][cluster]].
    [fuel] bounds the number of [next()] calls; the dict does not change
    inside the loop. *)
Fixpoint skip_full (fuel : nat) (cn : gmap string Z)
    (it : list string) (c : string) : outcome (string * list string) :=
  n ← getitem cn c;
  a ← getitem avail c;
  if a <=? n then
    match fuel with
    | O => OutOfFuel
    | S fuel' => '(c', it') ← cycle_next it; skip_full fuel' cn it' c'
    end
  else Return (c, it).

(** Lines 307-315: the body of [for i_vm in range(n_vm)]. *)
Definition place_vm (fuel : nat) (st : state) : outcome state :=
  let ram := node_ram st + vm_ram_size in
  at_ ← getitem clusters_attr (cluster st);
  if mem at_ <? ram + vm_ram_size then
    n ← getitem (cluster_nodes st) (cluster st);
    a ← getitem avail (cluster st);
    '(c1, it1) ← (if a <? n + 1 then cycle_next (iter_cluster st)
                  else Return (cluster st, iter_cluster st));
    n1 ← getitem (cluster_nodes st) c1;
    let cn := <[c1 := n1 + 1]> (cluster_nodes st) in
    '(c2, it2) ← cycle_next it1;
    '(c3, it3) ← skip_full fuel cn it2 c2;
    Return (State cn it3 c3 0)
  else Return (State (cluster_nodes st) (iter_cluster st) (cluster st) ram).

Fixpoint vm_loop (fuel : nat) (n : nat) (st : state) : outcome state :=
  match n with
  | O => Return st
  | S n' => st' ← place_vm fuel st; vm_loop fuel n' st'
  end.

(** Lines 301-316.  [ks] is the order of [cluster_nodes.iterkeys()];
    [range(n_vm)] is empty for a negative [n_vm]. *)
Definition distribute_hosts (fuel : nat) (ks : list string) (n_vm : Z)
    : outcome (gmap string Z) :=
  '(c, it) ← cycle_next ks;
  st ← vm_loop fuel (Z.to_nat n_vm) (State init_cluster_nodes it c 0);
  n ← getitem (cluster_nodes st) (cluster st);
  Return (<[cluster st := n + 1]> (cluster_nodes st)).

(** A cluster whose count has reached the availability of the slot. *)
Definition full (cn : gmap string Z) (c : string) : Prop :=
  ∃ n a, cn !! c = Some n ∧ avail !! c = Some a ∧ a ≤ n.

(** A cluster that can take one more host. *)
Definition has_room (cn : gmap string Z) (c : string) : Prop :=
  ∃ n a, cn !! c = Some n ∧ avail !! c = Some a ∧ n < a.

(** No count is above the availability of its cluster. *)
Definition bounded (cn : gmap string Z) : Prop :=
  ∀ c n, cn !! c = Some n → ∃ a, avail !! c = Some a ∧ n ≤ a.

(** No count is negative. *)
Definition nonneg (cn : gmap string Z) : Prop := ∀ c n, cn !! c = Some n → 0 ≤ n.

(** Counts that are kept or raised, entry by entry. *)
Definition grows (cn cn' : gmap string Z) : Prop :=
  ∀ c n, cn !! c = Some n → ∃ n', cn' !! c = Some n' ∧ n ≤ n'.

(** The hosts allocated in all. *)
Definition total_hosts (cn : gmap string Z) : Z := Zsum (map_to_list cn).*2.

(** Lines 319-325, one cluster: the floor of the request, then the count
    is added to the entry of the cluster's site in [resources]. *)
Definition apply_minimum (cr : gmap string Z * gmap string Z) (c : string)
    : outcome (gmap string Z * gmap string Z) :=
  let '(cn, resources) := cr in
  cn1 ← match resources !! c with
        | Some minimum => n ← getitem cn c; Return (<[c := Z.max n minimum]> cn)
        | None => Return cn
        end;
  n ← getitem cn1 c;
  let site := get_cluster_site c in
  Return (cn1, match resources !! site with
               | Some r => <[site := r + n]> resources
               | None => <[site := n]> resources
               end).

Fixpoint apply_minimums (ks : list string) (cr : gmap string Z * gmap string Z)
    : outcome (gmap string Z * gmap string Z) :=
  match ks with
  | [] => Return cr
  | c :: ks' => cr' ← apply_minimum cr c; apply_minimums ks' cr'
  end.

(** Lines 296-325: the [ClusterNodeAllocation] and the updated request. *)
Definition allocate_hosts (fuel : nat) (ks : list string) (n_vm : Z)
    (resources : gmap string Z) : outcome (gmap string Z * gmap string Z) :=
  cn ← distribute_hosts fuel ks n_vm;
  apply_minimums ks (cn, resources).

End Distribute.
End Distributor.

(** ** Text helpers *)

Definition nl : string := String (Ascii.ascii_of_N 10) "".

Definition digit_char (d : Z) : ascii := Ascii.ascii_of_N (Z.to_N (48 + d)).

(** A lower-case hexadecimal digit, for [0 <= d < 16]. *)
Definition hex_char (d : Z) : ascii :=
  Ascii.ascii_of_N (Z.to_N (if d <? 10 then 48 + d else 87 + d)).

(** ["%02x" % x] for a byte [x]: two hexadecimal digits. *)
Definition hex2 (x : Z) : string :=
  String (hex_char (x / 16)) (String (hex_char (x mod 16)) "").

(** [str(x)] for an integer below 1000, which covers the octets of an
    address. *)
Definition str_octet (x : Z) : string :=
  if x <? 10 then String (digit_char x) ""
  else if x <? 100 then
    String (digit_char (x / 10)) (String (digit_char (x mod 10)) "")
  else
    String (digit_char (x / 100))
      (String (digit_char (x / 10 mod 10)) (String (digit_char (x mod 10)) "")).

(** The values of a byte. *)
Definition bytes : list Z := seqZ 0 256.

(** [c in s] for a character. *)
Fixpoint occurs (c : ascii) (s : string) : bool :=
  match s with
  | EmptyString => false
  | String a s' => if decide (a = c) then true else occurs c s'
  end.

(** [sep.join(l)] *)
Fixpoint join (sep : string) (l : list string) : string :=
  match l with
  | [] => ""
  | [s] => s
  | s :: l' => s +:+ sep +:+ join sep l'
  end.

(** [s.split(c)[0]]: the text before the first [c], all of [s] when there
    is none. *)
Fixpoint before_sep (c : ascii) (s : string) : string :=
  match s with
  | EmptyString => ""
  | String a s' => if decide (a = c) then "" else String a (before_sep c s')
  end.

(** [sub in s] on strings: [sub] occurs somewhere in [s]. *)
Fixpoint contains (sub s : string) : bool :=
  String.prefix sub s
  || match s with
     | EmptyString => false
     | String _ s' => contains sub s'
     end.

(** ** Network identities (lines 407-432) *)

Module Net.

(** An IPv4 address is its 32-bit value; [ip.words[i]] is the octet [i],
    counted from the most significant one. *)
Definition word (i : Z) (ip : Z) : Z := Z.land (Z.shiftr ip (8 * (3 - i))) 255.

(** The address [a.b.c.d]. *)
Definition ip4 (a b c d : Z) : Z := ((a * 256 + b) * 256 + c) * 256 + d.

(** [str(ip)]: the dotted quad. *)
Definition str_ip (ip : Z) : string :=
  join "." (map (λ i, str_octet (word i ip)) [0; 1; 2; 3]).

(** [IPNetwork(addresses)], as netaddr documents it: the value of the
    address that was given and the length of the prefix. *)
Record IPNetwork : Type := Network { net_value : Z; prefixlen : Z }.

Definition net_size (n : IPNetwork) : Z := 2 ^ (32 - prefixlen n).
Definition netmask (n : IPNetwork) : Z := 2 ^ 32 - net_size n.
Definition net_first (n : IPNetwork) : Z := Z.land (net_value n) (netmask n).

(** [ips.iter_hosts()], as netaddr documents it for IPv4: the addresses of
    the block in increasing order without the network and the broadcast
    address; nothing for a block of fewer than 4 addresses. *)
Definition iter_hosts (n : IPNetwork) : list Z :=
  if 4 <=? net_size n then seqZ (net_first n + 1) (net_size n - 2) else [].

(** [random.randint(lo, hi)] on a raw draw. *)
Definition randint (lo hi raw : Z) : Z := lo + raw mod (hi - lo + 1).

Section Allocator.

Variable sites : list string.
Variable kavlan_id : Z.

(** Lines 412-416, one address: the list with the address appended, or
    unchanged. *)
Definition vm_ip_step (vm_ip : list Z) (ip : Z) : list Z :=
  if negb (word 3 ip =? 0) then
    if bool_decide (length sites = 1%nat) && ((kavlan_id - 4) * 64 + 2 <? word 2 ip)
    then vm_ip ++ [ip]
    else if 216 <=? word 2 ip then vm_ip ++ [ip]
    else vm_ip
  else vm_ip.

(** Lines 410-416. *)
Definition vm_ip_of (hosts : list Z) : list Z := foldl vm_ip_step [] hosts.

(** The rule of lines 412-416 as a predicate on an address. *)
Definition keeps (ip : Z) : Prop :=
  word 3 ip ≠ 0
  ∧ ((length sites = 1%nat ∧ word 2 ip > (kavlan_id - 4) * 64 + 2)
     ∨ word 2 ip >= 216).

#[global] Instance keeps_dec ip : Decision (keeps ip).
Proof. unfold keeps. apply _. Defined.

(** The random source: the successive raw draws of the generator. *)
Variable rnd : nat → Z.

(** Lines 422-425: a MAC with the fixed prefix and three draws; the
    position in the source moves on by three. *)
Definition draw_mac (pos : nat) : list Z * nat :=
  ([0x00; 0x20; 0x4e;
    randint 0x00 0xff (rnd pos);
    randint 0x00 0xff (rnd (S pos));
    randint 0x00 0xff (rnd (S (S pos)))], S (S (S pos))).

(** Lines 426-430: [while mac in macs], at most [fuel] new draws. *)
Fixpoint retry_mac (fuel : nat) (macs : list (list Z)) (mac : list Z) (pos : nat)
    : outcome (list Z * nat) :=
  if bool_decide (mac ∈ macs) then
    match fuel with
    | O => OutOfFuel
    | S fuel' => let '(mac', pos') := draw_mac pos in retry_mac fuel' macs mac' pos'
    end
  else Return (mac, pos).

(** A MAC as lines 422-425 build it from three consecutive draws. *)
Definition drawn (mac : list Z) : Prop := ∃ p, mac = (draw_mac p).1.

(** Whatever was issued so far, short of [bound] MACs, one of the next
    [fuel + 1] draws is new. *)
Definition fresh_within (fuel : nat) (bound : nat) : Prop :=
  ∀ (issued : list (list Z)) (p : nat),
    (length issued < bound)%nat →
    ∃ k, (k ≤ fuel)%nat ∧ (draw_mac (p + 3 * k)).1 ∉ issued.

(** [':'.join(map(lambda x: "%02x" % x, mac))] *)
Definition mac_str (mac : list Z) : string := join ":" (map hex2 mac).

Record gen : Type := Gen {
  ip_mac : list (string * string);
  macs : list (list Z);
  pos : nat
}.

(** Lines 422-432: the body of [for ip in vm_ip[0:n_vm]]. *)
Definition ip_mac_step (fuel : nat) (g : gen) (ip : Z) : outcome gen :=
  let '(mac, p) := draw_mac (pos g) in
  '(mac, p) ← retry_mac fuel (macs g) mac p;
  Return (Gen (ip_mac g ++ [(str_ip ip, mac_str mac)]) (macs g ++ [mac]) p).

Fixpoint ip_mac_loop (fuel : nat) (g : gen) (ips : list Z) : outcome gen :=
  match ips with
  | [] => Return g
  | ip :: ips' => g' ← ip_mac_step fuel g ip; ip_mac_loop fuel g' ips'
  end.

(** What holds of the lists between two turns of the loop of line 421. *)
Definition gen_ok (g : gen) : Prop :=
  NoDup (macs g) ∧ Forall drawn (macs g)
  ∧ (ip_mac g).*2 = map mac_str (macs g).

(** [l[0:n]]: a negative [n] counts from the end. *)
Definition slice_to {A} (l : list A) (n : Z) : list A :=
  if n <? 0 then take (Z.to_nat (Z.of_nat (length l) + n)) l
  else take (Z.to_nat n) l.

(** Lines 418-432; [min_ip = vm_ip[0]] raises [IndexError] on an empty
    list. *)
Definition generate (fuel : nat) (vm_ip : list Z) (n_vm : Z) : outcome gen :=
  _ ← first_item vm_ip;
  ip_mac_loop fuel (Gen [] [] 0%nat) (slice_to vm_ip n_vm).

(** Lines 409-432 on a network. *)
Definition allocate (fuel : nat) (ips : IPNetwork) (n_vm : Z)
    : outcome (list (string * string)) :=
  g ← generate fuel (vm_ip_of (iter_hosts ips)) n_vm;
  Return (ip_mac g).

End Allocator.
End Net.

(** ** dnsmasq configuration (lines 500-507) *)

Module Dhcp.

(** [min(l)] and [max(l)] on addresses, [ValueError] on an empty list. *)
Definition py_min (l : list Z) : outcome Z :=
  match l with
  | [] => Raise ValueError
  | x :: l' => Return (foldl Z.min x l')
  end.
Definition py_max (l : list Z) : outcome Z :=
  match l with
  | [] => Raise ValueError
  | x :: l' => Return (foldl Z.max x l')
  end.

Definition host_entry (im : string * string) : string :=
  "dhcp-host=" +:+ ":" +:+ im.2 +:+ "," +:+ im.1 +:+ nl.

(** Lines 500-502. *)
Definition dhcp_hosts (ip_mac : list (string * string)) : string :=
  foldl (λ acc im, acc +:+ host_entry im) "" ip_mac.

(** One entry per pair, in the order of the pairs. *)
Definition host_entries (ip_mac : list (string * string)) : string :=
  foldr (λ im rest, host_entry im +:+ rest) "" ip_mac.

Record config : Type := Config {
  cfg_hosts : string;
  cfg_range : string;
  cfg_router : string
}.

(** Lines 500-507. *)
Definition dhcp_config (ips : Net.IPNetwork) (vm_ip : list Z)
    (ip_mac : list (string * string)) : outcome config :=
  lo ← py_min vm_ip;
  hi ← py_max vm_ip;
  let network := Net.str_ip lo +:+ "," +:+ Net.str_ip hi +:+ ","
                 +:+ Net.str_ip (Net.netmask ips) in
  hi' ← py_max vm_ip;
  Return (Config (dhcp_hosts ip_mac)
                 ("dhcp-range=" +:+ network +:+ ",12h" +:+ nl)
                 ("dhcp-option=option:router," +:+ Net.str_ip hi' +:+ nl)).

End Dhcp.

(** ** Topology against reservation (lines 437-444) *)

Module Topology.

(** [host.address.split('.')[0]] *)
Definition short_name (address : string) : string := before_sep "."%char address.

(** [host_el.get('id').split('-')[0]] *)
Definition cluster_of (id : string) : string := before_sep "-"%char id.

(** Lines 441-444 for one host element: its new [id] and the hosts that
    are left. *)
Definition match_host (tmp_hosts : list string) (id : string)
    : outcome (string * list string) :=
  if bool_decide (id ∉ tmp_hosts) then
    let tmp := List.filter (contains (cluster_of id)) tmp_hosts in
    h ← first_item tmp;
    tmp_hosts' ← py_remove h tmp_hosts;
    Return (h, tmp_hosts')
  else Return (id, tmp_hosts).

(** The loop over [placement.findall('.//host')]: [ids] are the [id]
    attributes of the host elements in document order, the result has the
    rewritten ones. *)
Fixpoint match_hosts (tmp_hosts : list string) (ids : list string)
    : outcome (list string * list string) :=
  match ids with
  | [] => Return ([], tmp_hosts)
  | id :: ids' =>
      '(id', tmp_hosts') ← match_host tmp_hosts id;
      '(rest, tmp_hosts'') ← match_hosts tmp_hosts' ids';
      Return (id' :: rest, tmp_hosts'')
  end.

(** Lines 439-444; [hosts] are the addresses of the reserved hosts. *)
Definition match_topology (hosts : list string) (ids : list string)
    : outcome (list string) :=
  '(ids', _) ← match_hosts (map short_name hosts) ids;
  Return ids'.

End Topology.

(** ** Sample data *)

Module Sample.

(** Two clusters of one site, for the slot filter. *)
Definition clusters : list string := ["sol"; "suno"].
Definition clusters_attr : gmap string attr :=
  {[ "sol" := Attr 8 15000; "suno" := Attr 8 32000 ]}.
Definition resources : gmap string Z := {[ "suno" := 1; "sophia" := 0 ]}.

Definition slot_a : slot := Slot 0 3600 {[ "sol" := 1; "suno" := 0; "kavlan" := 1 ]}.
Definition slot_b : slot := Slot 3600 7200 {[ "sol" := 1; "suno" := 1; "kavlan" := 1 ]}.
Definition slot_c : slot := Slot 7200 10800 {[ "sol" := 2; "suno" := 0; "kavlan" := 1 ]}.

(** Hosts of 8192 MB, for the distribution. *)
Definition attr8 : gmap string attr :=
  {[ "sol" := Attr 4 8192; "suno" := Attr 8 8192 ]}.

(** Both clusters are in Sophia. *)
Definition site_of (c : string) : string := "sophia".

(** The request that [-r sophia] gives: any number of nodes of the site. *)
Definition site_request : gmap string Z := {[ "sophia" := 0 ]}.

(** Slots in which one of the two clusters has no free host. *)
Definition avail_sol0 : gmap string Z :=
  {[ "sol" := 0; "suno" := 1; "sophia" := 1; "kavlan" := 1 ]}.
Definition avail_suno0 : gmap string Z :=
  {[ "sol" := 1; "suno" := 0; "sophia" := 1; "kavlan" := 1 ]}.

(** A slot on the only cluster of a request [-r sol], with one free host. *)
Definition avail_sol1 : gmap string Z :=
  {[ "sol" := 1; "sophia" := 1; "kavlan" := 1 ]}.

(** Three clusters with two, two and one free hosts of 8192 MB. *)
Definition attr_abc : gmap string attr :=
  {[ "A" := Attr 8 8192; "B" := Attr 8 8192; "C" := Attr 8 8192 ]}.
Definition avail_abc : gmap string Z := {[ "A" := 2; "B" := 2; "C" := 1 ]}.

(** A block of six host addresses in the range that every rule keeps, and
    one of two. *)
Definition net6 : Net.IPNetwork := Net.Network (Net.ip4 10 27 255 248) 29.
Definition net2 : Net.IPNetwork := Net.Network (Net.ip4 10 27 255 252) 30.

(** A source whose draws count up, and one that repeats each draw six
    times, so that the second MAC collides with the first. *)
Definition rnd_count (i : nat) : Z := Z.of_nat i.
Definition rnd_slow (i : nat) : Z := Z.of_nat (i / 6).

End Sample.

(** ** Sums over an allocation *)

Module Accounting.

(** The sum of [f cluster count] over the entries of [cluster_nodes]. *)
Definition map_sum (f : string → Z → Z) (cn : gmap string Z) : Z :=
  Zsum (map (λ kv : string * Z, f kv.1 kv.2) (map_to_list cn)).

(** The RAM of the allocated hosts, in MB. *)
Definition allocated_ram (clusters_attr : gmap string attr) (cn : gmap string Z) : Z :=
  map_sum (λ c n, n * SlotFinder.ram_of clusters_attr c) cn.

(** The free hosts that the slot has on the clusters of the allocation. *)
Definition free_hosts (avail cn : gmap string Z) : Z :=
  map_sum (λ c _, default 0 (avail !! c)) cn.

(** What holds of the state between two turns of the loop of line 306,
    for the keys [ks] of [cluster_nodes]. *)
Definition loop_ok (avail : gmap string Z) (ks : list string)
    (st : Distributor.state) : Prop :=
  Distributor.iter_cluster st ≡ₚ ks
  ∧ (∀ c, is_Some (Distributor.cluster_nodes st !! c) ↔ c ∈ ks)
  ∧ Distributor.bounded avail (Distributor.cluster_nodes st)
  ∧ Distributor.has_room avail (Distributor.cluster_nodes st) (Distributor.cluster st).

(** The [j] machines placed so far fit in the hosts that are allocated and
    in the host that is being filled, which can take one more machine. *)
Definition fits (clusters_attr : gmap string attr) (avail : gmap string Z)
    (vm_ram_size : Z) (j : Z) (st : Distributor.state) : Prop :=
  j * vm_ram_size
    ≤ allocated_ram clusters_attr (Distributor.cluster_nodes st) + Distributor.node_ram st
  ∧ Distributor.node_ram st + vm_ram_size
    ≤ SlotFinder.ram_of clusters_attr (Distributor.cluster st)
  ∧ Distributor.bounded avail (Distributor.cluster_nodes st)
  ∧ Distributor.has_room avail (Distributor.cluster_nodes st) (Distributor.cluster st)
  ∧ ∀ c, is_Some (Distributor.cluster_nodes st !! c) →
         vm_ram_size ≤ SlotFinder.ram_of clusters_attr c.

(** After [j] machines the open host holds [j mod k] of them and [j / k]
    hosts are allocated, where [k] machines fill a host of [host_ram]. *)
Definition counted (vm_ram_size host_ram : Z) (j : Z) (st : Distributor.state) : Prop :=
  Distributor.node_ram st = (j mod (host_ram / vm_ram_size)) * vm_ram_size
  ∧ Distributor.total_hosts (Distributor.cluster_nodes st) = j / (host_ram / vm_ram_size).

End Accounting.

(** ** The request of the reservation (lines 319-336) *)

Module Reservation.

(** Lines 332-333: [resources.update(cluster_nodes)], then the VLAN count of
    the slot under ['kavlan']; [KeyError] when the slot has none. *)
Definition reservation_request (avail cn resources : gmap string Z)
    : outcome (gmap string Z) :=
  kavlan ← getitem avail "kavlan";
  Return (<["kavlan" := kavlan]> (cn ∪ resources)).

(** Lines 296-333: what [create_reservation] is called with. *)
Definition plan_reservation (clusters : list string)
    (clusters_attr : gmap string attr) (avail : gmap string Z) (vm_ram_size : Z)
    (get_cluster_site : string → string) (fuel : nat) (ks : list string)
    (n_vm : Z) (resources : gmap string Z) : outcome (gmap string Z) :=
  '(cn, res) ← Distributor.allocate_hosts clusters clusters_attr avail vm_ram_size
                 get_cluster_site fuel ks n_vm resources;
  reservation_request avail cn res.

(** The clusters of [ks] that are in the site [s]. *)
Definition clusters_of_site (get_cluster_site : string → string) (s : string)
    (ks : list string) : list string :=
  filter (λ c, get_cluster_site c = s) ks.

(** The hosts that [cn] has on the clusters [cs]. *)
Definition hosts_on (cn : gmap string Z) (cs : list string) : Z :=
  Zsum (map (λ c, default 0 (cn !! c)) cs).

End Reservation.

(** ** Host elements without identifier (lines 439-444) *)

Module HostElements.

(** How lines 439-444 end when a host element may have no [id]: as a
    result of [outcome], or with the [AttributeError] that [None.split]
    raises at line 442. *)
Inductive ending (A : Type) : Type :=
  | Ended (o : outcome A)
  | AttributeError.

Arguments Ended {A} o.
Arguments AttributeError {A}.

(** Lines 441-444 for one host element; [id] is [host_el.get('id')],
    [None] without the attribute.  [None] is in no list of names; the
    comprehension of line 442 calls [split] on it for the first reserved
    host, and is empty without reserved hosts, so that line 443 raises
    [IndexError]. *)
Definition match_element (tmp_hosts : list string) (id : option string)
    : ending (string * list string) :=
  match id with
  | Some id => Ended (Topology.match_host tmp_hosts id)
  | None =>
      match tmp_hosts with
      | [] => Ended (Raise IndexError)
      | _ :: _ => AttributeError
      end
  end.

(** The loop of line 440 over the host elements in document order. *)
Fixpoint match_elements (tmp_hosts : list string) (ids : list (option string))
    : ending (list string * list string) :=
  match ids with
  | [] => Ended (Return ([], tmp_hosts))
  | id :: ids' =>
      match match_element tmp_hosts id with
      | Ended (Return (id', tmp_hosts')) =>
          match match_elements tmp_hosts' ids' with
          | Ended (Return (rest, tmp_hosts'')) => Ended (Return (id' :: rest, tmp_hosts''))
          | Ended (Raise e) => Ended (Raise e)
          | Ended OutOfFuel => Ended OutOfFuel
          | AttributeError => AttributeError
          end
      | Ended (Raise e) => Ended (Raise e)
      | Ended OutOfFuel => Ended OutOfFuel
      | AttributeError => AttributeError
      end
  end.

(** Lines 439-444; the result has the identifiers after the loop. *)
Definition match_host_elements (hosts : list string) (ids : list (option string))
    : ending (list string) :=
  match match_elements (map Topology.short_name hosts) ids with
  | Ended (Return (ids', _)) => Ended (Return ids')
  | Ended (Raise e) => Ended (Raise e)
  | Ended OutOfFuel => Ended OutOfFuel
  | AttributeError => AttributeError
  end.

End HostElements.

(** ** The option [-r] (lines 195-201) *)

Module Request.

(** [s.split(c)]: the pieces of [s] between the occurrences of [c]; one
    piece, [s] itself, when there is none. *)
Fixpoint split_on (c : ascii) (s : string) : list string :=
  match s with
  | EmptyString => [""]
  | String a s' =>
      if decide (a = c) then "" :: split_on c s'
      else match split_on c s' with
           | piece :: pieces => String a piece :: pieces
           | [] => [String a ""]
           end
  end.

Section Parse.

(** [int(text)], a builtin: the number that a text denotes, [ValueError]
    for a text that denotes none. *)
Variable py_int : string → outcome Z.

(** Lines 197-201 for one element of the list. *)
Definition parse_element (resources : gmap string Z) (element : string)
    : outcome (gmap string Z) :=
  '(element_uid, n_nodes) ←
    (if occurs ":" element then
       match split_on ":" element with
       | [element_uid; n_nodes] => n ← py_int n_nodes; Return (element_uid, n)
       | _ => Raise ValueError
       end
     else Return (element, 0));
  Return (<[element_uid := n_nodes]> resources).

Fixpoint parse_elements (resources : gmap string Z) (elements : list string)
    : outcome (gmap string Z) :=
  match elements with
  | [] => Return resources
  | element :: rest => r ← parse_element resources element; parse_elements r rest
  end.

(** Lines 187 and 195-201 on the text of the option. *)
Definition parse_resources (option_r : string) : outcome (gmap string Z) :=
  parse_elements ∅ (split_on "," option_r).

(** An element that lines 196-201 can read back: no comma or colon in its
    name or in its count, and a count that [int] accepts. *)
Definition well_formed (value : string → Z) (e : string * option string) : Prop :=
  occurs "," e.1 = false ∧ occurs ":" e.1 = false ∧
  ∀ t, e.2 = Some t →
    occurs "," t = false ∧ occurs ":" t = false ∧ py_int t = Return (value t).

End Parse.

(** An element as the user writes it: a name, or a name, a colon and the
    text of a count. *)
Definition render (e : string * option string) : string :=
  match e.2 with
  | Some count => e.1 +:+ ":" +:+ count
  | None => e.1
  end.

(** The table that a list of rendered elements asks for: each name with
    the value of its count, 0 without one, a later element replacing an
    earlier one of the same name. *)
Definition requested (value : string → Z) (elems : list (string * option string))
    : gmap string Z :=
  foldl (λ m e, <[e.1 := from_option value 0 e.2]> m) ∅ elems.

(** [int] on a text of decimal digits. *)
Definition digits_int (text : string) : outcome Z :=
  let digits := String.list_ascii_of_string text in
  if bool_decide (digits ≠ [] ∧ Forall (λ a, (48 ≤ nat_of_ascii a ≤ 57)%nat) digits)
  then Return (foldl (λ n a, 10 * n + (Z.of_nat (nat_of_ascii a) - 48)) 0 digits)
  else Raise ValueError.

End Request.

(** ** Requested elements (lines 210-231) and the sites of the clusters
    (lines 387-404) *)

Module Elements.

Section Resolve.

(** The reference API: [get_g5k_sites()], [get_g5k_clusters()],
    [get_clusters(virt = True, kavlan = True)], the same call with
    [sites = [site]], and [get_cluster_site]. *)
Variable g5k_sites : list string.
Variable g5k_clusters : list string.
Variable virtual_clusters : list string.
Variable site_clusters : string → list string.
Variable get_cluster_site : string → string.

(** [for x in l: resources[x] = 0] *)
Definition reset (l : list string) (resources : gmap string Z) : gmap string Z :=
  foldl (λ r x, <[x := 0]> r) resources l.

(** The loop of lines 212-229 over the keys of [resources] in the order
    [iterkeys] gives them; line 220 leaves the loop. *)
Fixpoint resolve_loop (keys : list string) (resources : gmap string Z)
    (clusters sites : list string)
    : outcome (gmap string Z * list string * list string) :=
  match keys with
  | [] => Return (resources, clusters, sites)
  | element :: rest =>
      if decide (element = "grid5000") then
        Return (reset virtual_clusters (reset g5k_sites resources),
                virtual_clusters, g5k_sites)
      else if decide (element ∈ g5k_sites) then
        resolve_loop rest resources (clusters ++ site_clusters element)
                     (sites ++ [element])
      else if decide (element ∈ g5k_clusters) then
        resolve_loop rest resources (clusters ++ [element])
                     (sites ++ [get_cluster_site element])
      else Raise SystemExit
  end.

(** Lines 210-231; [list(set(l))] keeps the members of [l], each once, in
    an order of its own: the result is the set. *)
Definition resolve (keys : list string) (resources : gmap string Z)
    : outcome (gmap string Z * gset string * gset string) :=
  '(r, clusters, sites) ← resolve_loop keys resources [] [];
  Return (r, list_to_set clusters, list_to_set sites).

(** An element that lines 221-226 accept. *)
Definition known (element : string) : Prop :=
  element ≠ "grid5000" ∧ (element ∈ g5k_sites ∨ element ∈ g5k_clusters).

End Resolve.

(** Lines 387-391 and 400-404: the values of [f] on [l], each one appended
    the first time it is met. *)
Definition collect {A} (f : A → string) (l : list A) : list string :=
  foldl (λ acc x, if decide (f x ∈ acc) then acc else acc ++ [f x]) [] l.

(** A platform of two sites and three clusters. *)
Module Platform.
Definition sites : list string := ["sophia"; "nancy"].
Definition clusters : list string := ["sol"; "suno"; "griffon"].
Definition clusters_in (site : string) : list string :=
  if decide (site = "sophia") then ["sol"; "suno"]
  else if decide (site = "nancy") then ["griffon"] else [].
Definition site_of (cluster : string) : string :=
  if decide (cluster = "griffon") then "nancy" else "sophia".
Definition resolve :=
  Elements.resolve sites clusters clusters clusters_in site_of.
End Platform.

End Elements.

(** ** The KaVLAN of the job (lines 356-370) *)

Module Kavlan.

(** The loop of lines 358-366 over the jobs [(job_id, site)] of the grid
    job, and the exit of lines 367-370; [get_oar_job_kavlan] gives the VLAN
    of a job, or [None]. *)
Fixpoint find_kavlan (get_oar_job_kavlan : Z → string → option Z)
    (subjobs : list (Z * string)) : outcome (Z * string) :=
  match subjobs with
  | [] => Raise SystemExit
  | subjob :: rest =>
      match get_oar_job_kavlan subjob.1 subjob.2 with
      | Some vlan => Return (vlan, subjob.2)
      | None => find_kavlan get_oar_job_kavlan rest
      end
  end.

End Kavlan.

(** ** The number of virtual machines (lines 31, 445-452, 474-476) and
    their cpusets (lines 524-525) *)

Module Machines.

Definition max_vms : Z := 10000.

(** Lines 437 and 445-451: without a placement file the number asked for
    is cut to [max_vms]. *)
Definition cap_to_kavlan (placement_given : bool) (n_vm : Z) : Z :=
  if placement_given then n_vm
  else if n_vm >? max_vms then max_vms else n_vm.

(** Lines 474-476, from what the deployed hosts can hold
    ([setup.get_max_vms]) and their number. *)
Definition cap_to_hosts (n_vm hosts_max_vms n_hosts : Z) : Z :=
  Z.min n_vm (hosts_max_vms - n_hosts).

(** The number that lines 495 and 525-526 use. *)
Definition defined_vms (placement_given : bool) (n_vm hosts_max_vms n_hosts : Z) : Z :=
  cap_to_hosts (cap_to_kavlan placement_given n_vm) hosts_max_vms n_hosts.

(** ['vm-'+str(i_vm)] *)
Definition vm_name (i_vm : Z) : string := "vm-" +:+ pretty i_vm.

(** Line 525: the dict comprehension over [range(n_vm)]. *)
Definition cpusets {V} (n_vm : Z) (cpuset : V) : gmap string V :=
  foldl (λ d i_vm, <[vm_name i_vm := cpuset]> d) ∅ (seqZ 0 n_vm).

End Machines.

(** ** The placement file (lines 170-194) *)

Module Placement.

(** An element of the parsed file: its tag, its attributes and its
    children in document order. *)
#[warnings="-register-all"]
Inductive element : Type :=
  Element (tag : string) (attrib : gmap string string) (children : list element).

Definition tag (e : element) : string := let 'Element t _ _ := e in t.
Definition attrib (e : element) : gmap string string := let 'Element _ a _ := e in a.
Definition children (e : element) : list element := let 'Element _ _ ch := e in ch.

(** [e.get(key)]: the attribute, [None] without it. *)
Definition get (e : element) (key : string) : option string := attrib e !! key.

(** [e.iter()]: the element and all that is below it, in document order. *)
Fixpoint iter (e : element) : list element :=
  match e with
  | Element _ _ ch =>
      e :: (fix iter_all (l : list element) : list element :=
              match l with
              | [] => []
              | c :: l' => iter c ++ iter_all l'
              end) ch
  end.

(** [e.findall('.//' + t)]: the elements of tag [t] below [e], [e] itself
    left out. *)
Definition findall_below (t : string) (e : element) : list element :=
  filter (λ x, tag x = t) (concat (map iter (children e))).

(** [e.findall('./' + t)]: the children of tag [t]. *)
Definition findall_child (t : string) (e : element) : list element :=
  filter (λ x, tag x = t) (children e).

(** Line 175. *)
Definition n_vm (placement : element) : Z :=
  Z.of_nat (length (findall_below "vm" placement)).

(** [len(e.findall('.//host'))] *)
Definition n_hosts (e : element) : Z :=
  Z.of_nat (length (findall_below "host" e)).

(** Lines 191-194; a key is [None] for an element without [id]. *)
Definition placement_resources (placement : element) : gmap (option string) Z :=
  foldl (λ resources site,
           foldl (λ resources cluster, <[get cluster "id" := n_hosts cluster]> resources)
                 (<[get site "id" := n_hosts site]> resources)
                 (findall_child "cluster" site))
        ∅ (findall_child "site" placement).

(** The elements that lines 191-194 enter, in the order they do. *)
Definition entered (placement : element) : list element :=
  concat (map (λ site, site :: findall_child "cluster" site)
              (findall_child "site" placement)).

Section Totals.

(** [int(text)], a builtin: [None] stands for its [ValueError] on a text
    that is no number. *)
Variable py_int : string → option Z.

(** [int(e.get(key))]; [None] also stands for the [TypeError] that [int]
    raises on a missing attribute. *)
Definition int_attr (e : element) (key : string) : option Z :=
  text ← get e key; py_int text.

(** [sum([int(vm.get(key)) for vm in vms])] *)
Fixpoint total (key : string) (vms : list element) : option Z :=
  match vms with
  | [] => Some 0
  | vm :: rest => x ← int_attr vm key; s ← total key rest; Some (x + s)
  end.

(** Lines 170-183 with and without a placement file: the number of
    machines, [None] as [options.n_vm] is without [-n], and for [key] the
    total that lines 179-183 compute; [None * int(...)] raises
    [TypeError]. *)
Definition n_vm_of (options_n_vm : option Z) (placement : option element) : option Z :=
  match placement with
  | None => options_n_vm
  | Some p => Some (n_vm p)
  end.

Definition total_of (key : string) (n_vm : option Z) (placement : option element)
    (vm_template : element) : option Z :=
  match placement with
  | None => x ← int_attr vm_template key; n ← n_vm; Some (n * x)
  | Some p => total key (findall_below "vm" p)
  end.

End Totals.

(** A file with one site, two clusters, three hosts and two machines. *)
Definition sample_vm (id : string) : element :=
  Element "vm" {[ "id" := id; "mem" := "512"; "cpu" := "1" ]} [].
Definition sample_sol : element :=
  Element "cluster" {[ "id" := "sol" ]}
    [Element "host" {[ "id" := "sol-1" ]} [sample_vm "vm-0"; sample_vm "vm-1"];
     Element "host" {[ "id" := "sol-2" ]} []].
Definition sample_suno : element :=
  Element "cluster" {[ "id" := "suno" ]} [Element "host" {[ "id" := "suno-1" ]} []].
Definition sample_site : element :=
  Element "site" {[ "id" := "sophia" ]} [sample_sol; sample_suno].
Definition sample_file : element := Element "vm5k" ∅ [sample_site].
Definition sample_template : element :=
  Element "vm" {[ "mem" := "512"; "cpu" := "1" ]} [].

(** [int] on the texts of the sample. *)
Definition sample_int (text : string) : option Z :=
  if decide (text = "512") then Some 512
  else if decide (text = "1") then Some 1 else None.

End Placement.

(** ** The options (lines 52-62, 75-80, 113-118 and 151-163) *)

Module Options.

(** The options that the checks read; an option that was not given is
    [None], a flag that was not given is false. *)
Record options : Type := Options {
  n_vm : option Z;
  infile : option string;
  oargrid_job_id : option Z;
  env_name : option string;
  env_file : option string;
  quiet : bool;
  verbose : bool
}.

(** The truth value of an option in a test: [None], [0] and the empty
    text are false. *)
Definition given_int (x : option Z) : bool :=
  match x with Some n => negb (n =? 0) | None => false end.
Definition given_text (x : option string) : bool :=
  match x with Some s => negb (String.eqb s "") | None => false end.
Definition is_none {A} (x : option A) : bool :=
  match x with Some _ => false | None => true end.

(** Lines 152-163; [parser.error] leaves the program. *)
Definition check_options (o : options) : outcome unit :=
  if given_int (n_vm o) && given_text (infile o) then Raise SystemExit
  else if given_text (env_name o) && given_text (env_file o) then Raise SystemExit
  else if quiet o && verbose o then Raise SystemExit
  else if is_none (n_vm o) && is_none (oargrid_job_id o) && is_none (infile o)
    then Raise SystemExit
  else if negb (is_none (infile o)) && is_none (oargrid_job_id o) && is_none (infile o)
    then Raise SystemExit
  else Return tt.

(** A job alone: [-j 42]. *)
Definition job_alone : options := Options None None (Some 42) None None false false.

End Options.

(** ** The start of the job (lines 342-350) *)

Module JobStart.

(** Lines 343-350: [start_date] and [walltime] are the whole seconds of
    the job information, [now] and [now'] the two readings of the clock
    [T.time()]; comparisons of numbers are exact. *)
Definition check_job_start (start_date walltime : Z) (now now' : Q) : outcome unit :=
  if Qlt_le_dec now (inject_Z start_date) then
    if Qlt_le_dec (inject_Z (start_date + walltime)) now' then Raise SystemExit
    else Return tt
  else Return tt.

End JobStart.

(** * Properties *)

(** ** General facts *)

Lemma py_remove_app_notin {A} `{EqDecision A} (x : A) (pre rest : list A) :
  x ∉ pre → py_remove x (pre ++ x :: rest) = Return (pre ++ rest).
Proof.
  induction pre as [|y pre IH]; intros Hx; simpl.
  - by rewrite decide_True.
  - rewrite decide_False by (intros ->; apply Hx; left).
    rewrite IH; [done|]. intros ?; apply Hx. by right.
Qed.

Lemma py_remove_elem_of {A} `{EqDecision A} (x : A) (l : list A) :
  x ∈ l → ∃ l', py_remove x l = Return l' ∧ l' ⊆ l ∧ length l = S (length l').
Proof.
  induction l as [|y l IH]; [by intros ?%elem_of_nil|].
  intros Hx. simpl. destruct (decide (x = y)) as [->|Hne].
  - exists l. split_and!; [done| |done]. intros z Hz. by right.
  - destruct IH as (l' & -> & Hsub & Hlen).
    { apply elem_of_cons in Hx as [?|?]; [congruence|done]. }
    exists (y :: l'). split_and!; [done| |simpl; lia].
    intros z [->|Hz]%elem_of_cons; [left|right; by apply Hsub].
Qed.

Lemma Zsum_app (l1 l2 : list Z) : Zsum (l1 ++ l2) = Zsum l1 + Zsum l2.
Proof. unfold Zsum. induction l1; simpl; lia. Qed.

Lemma Zsum_perm (l1 l2 : list Z) : l1 ≡ₚ l2 → Zsum l1 = Zsum l2.
Proof. unfold Zsum. induction 1; simpl; lia. Qed.

(** ** The slot filter *)

Lemma forallb_false_ex {A} (f : A → bool) (l : list A) :
  forallb f l = false → ∃ x, x ∈ l ∧ f x = false.
Proof.
  induction l as [|y l IH]; simpl; [done|].
  destruct (f y) eqn:Hy; simpl.
  - intros (x & Hx & Hf)%IH. exists x. split; [by right|done].
  - intros _. exists y. split; [left|done].
Qed.

Module SlotFinderFacts.
Import SlotFinder.
Section Filter.

Variable clusters : list string.
Variable clusters_attr : gmap string attr.
Variable resources : gmap string Z.
Variables total_mem total_cpu : Z.

Hypothesis Hcover : attrs_cover clusters clusters_attr.

Abbreviation scan_items := (scan_items clusters clusters_attr resources).
Abbreviation scan_slot := (scan_slot clusters clusters_attr resources).
Abbreviation discard := (discard total_mem total_cpu).
Abbreviation filter_loop :=
  (filter_loop clusters clusters_attr resources total_mem total_cpu).
Abbreviation find_slots :=
  (find_slots clusters clusters_attr resources total_mem total_cpu).
Abbreviation insufficient :=
  (insufficient clusters clusters_attr resources total_mem total_cpu).
Abbreviation in_clusters := (in_clusters clusters).
Abbreviation ram_sum := (ram_sum clusters clusters_attr).
Abbreviation cpu_sum := (cpu_sum clusters clusters_attr).
Abbreviation meets_minimum := (meets_minimum resources).
Abbreviation ram_part := (ram_part clusters clusters_attr).
Abbreviation cpu_part := (cpu_part clusters clusters_attr).
Abbreviation keepb := (keepb clusters clusters_attr resources total_mem total_cpu).





Lemma ram_sum_cons it items : ram_sum (it :: items) = ram_part it + ram_sum items.
Proof.
  unfold ram_sum, ram_part. rewrite (filter_cons in_clusters).
  unfold in_clusters at 1. case_bool_decide.
  - by rewrite decide_True.
  - by rewrite decide_False.
Qed.

Lemma cpu_sum_cons it items : cpu_sum (it :: items) = cpu_part it + cpu_sum items.
Proof.
  unfold cpu_sum, cpu_part. rewrite (filter_cons in_clusters).
  unfold in_clusters at 1. case_bool_decide.
  - by rewrite decide_True.
  - by rewrite decide_False.
Qed.

(** One turn of the inner loop. *)
Lemma scan_item_closed a it :
  scan_item clusters clusters_attr resources a it =
  Return (Acc (slot_ram a + ram_part it) (slot_cpu a + cpu_part it)
              (slot_has_nodes a && meets_minimum it)).
Proof.
  destruct a as [ram cp has], it as [r n].
  unfold scan_item, ram_part, cpu_part, meets_minimum, ram_of, cpu_of.
  cbn [fst snd slot_ram slot_cpu slot_has_nodes].
  case_bool_decide as Hin.
  - destruct (Hcover r Hin) as [at_ Hat]. unfold getitem. rewrite Hat.
    cbn [mbind outcome_bind slot_ram slot_cpu slot_has_nodes].
    destruct (resources !! r) as [m|]; [destruct (n <? m)|];
      cbn [negb slot_ram slot_cpu]; by rewrite ?andb_false_r, ?andb_true_r.
  - cbn [mbind outcome_bind slot_ram slot_cpu slot_has_nodes].
    destruct (resources !! r) as [m|]; [destruct (n <? m)|];
      cbn [negb slot_ram slot_cpu];
      by rewrite ?andb_false_r, ?andb_true_r, ?Z.add_0_r.
Qed.

(** The inner loop in closed form. *)
Lemma scan_items_closed items a :
  scan_items a items =
  Return (Acc (slot_ram a + ram_sum items) (slot_cpu a + cpu_sum items)
              (slot_has_nodes a && forallb meets_minimum items)).
Proof.
  revert a. induction items as [|it items IH]; intros a.
  - destruct a. unfold ram_sum, cpu_sum. simpl.
    by rewrite !Z.add_0_r, andb_true_r.
  - cbn [SlotFinder.scan_items]. rewrite scan_item_closed.
    cbn [mbind outcome_bind]. rewrite IH.
    cbn [slot_ram slot_cpu slot_has_nodes forallb].
    rewrite ram_sum_cons, cpu_sum_cons, !Z.add_assoc, andb_assoc. done.
Qed.

(** The order in which the items of the dict come does not matter. *)
Lemma scan_items_perm items items' a :
  items ≡ₚ items' → scan_items a items = scan_items a items'.
Proof.
  intros Hp. rewrite !scan_items_closed. unfold ram_sum, cpu_sum.
  f_equal. f_equal.
  - f_equal. apply Zsum_perm. by rewrite Hp.
  - f_equal. apply Zsum_perm. by rewrite Hp.
  - f_equal. apply eq_true_iff_eq. rewrite !forallb_forall.
    split; intros H x Hx; apply H; apply list_elem_of_In;
      apply list_elem_of_In in Hx; [by rewrite Hp|by rewrite <- Hp].
Qed.

Lemma scan_slot_closed s :
  scan_slot s =
  Return (Acc (spec_slot_ram clusters clusters_attr s)
              (spec_slot_cpu clusters clusters_attr s)
              (forallb meets_minimum (map_to_list (slot_avail s)))).
Proof. unfold SlotFinder.scan_slot. by rewrite scan_items_closed. Qed.

Lemma meets_all_iff s :
  forallb meets_minimum (map_to_list (slot_avail s)) = false
  ↔ below_minimum resources s.
Proof.
  split.
  - intros ([r n] & Hin & Hf)%forallb_false_ex.
    apply elem_of_map_to_list in Hin. unfold meets_minimum in Hf.
    cbn [fst snd] in Hf. destruct (resources !! r) as [m|] eqn:Hm; [|done].
    apply negb_false_iff, Z.ltb_lt in Hf. by exists r, n, m.
  - intros (r & n & m & Hs & Hr & Hlt).
    apply not_true_iff_false. rewrite forallb_forall. intros Hall.
    specialize (Hall (r, n)). unfold meets_minimum in Hall. cbn [fst snd] in Hall.
    rewrite Hr in Hall.
    assert (Hin : In (r, n) (map_to_list (slot_avail s))).
    { apply list_elem_of_In. by apply elem_of_map_to_list. }
    apply Hall in Hin. apply negb_true_iff, Z.ltb_ge in Hin. lia.
Qed.


Lemma keepb_iff s : keepb s = true ↔ ¬ insufficient s.
Proof.
  unfold keepb, SlotFinder.discard, SlotFinder.insufficient.
  cbn [slot_ram slot_cpu slot_has_nodes].
  rewrite negb_true_iff, !orb_false_iff, negb_false_iff.
  rewrite !Z.ltb_ge, <- not_false_iff_true, meets_all_iff. split.
  - intros [[? ?] ?] [?|[?|?]]; [lia|lia|done].
  - intros Hn. split_and!; [lia|lia|tauto].
Qed.

(** The loop with [remove] is a filter: [pre] is the part of
    [planning.slots] already visited and kept. *)
Lemma filter_loop_inv tmp pre :
  (∀ s, s ∈ pre → keepb s = true) →
  filter_loop tmp (pre ++ tmp)
  = Return (pre ++ filter (λ s, keepb s = true) tmp).
Proof.
  revert pre. induction tmp as [|s tmp IH]; intros pre Hpre.
  - done.
  - cbn [SlotFinder.filter_loop]. rewrite scan_slot_closed.
    cbn [mbind outcome_bind]. fold (keepb s) in *.
    destruct (discard _) eqn:Hd.
    + assert (Hk : keepb s = false) by (unfold keepb; by rewrite Hd).
      rewrite py_remove_app_notin.
      2:{ intros Hin. apply Hpre in Hin. congruence. }
      cbn [mbind outcome_bind]. rewrite IH by done.
      rewrite filter_cons_False; [done|congruence].
    + assert (Hk : keepb s = true) by (unfold keepb; by rewrite Hd).
      rewrite (cons_middle s pre tmp), app_assoc, IH.
      * rewrite filter_cons_True by done. by rewrite <- app_assoc.
      * intros s' [?| ->%list_elem_of_singleton]%elem_of_app; auto.
Qed.

End Filter.

(** The dict of lines 236-241 has the attributes of every cluster. *)
Lemma fetch_attrs_cover (get_host_attributes : string → host_attributes)
    (clusters : list string) :
  attrs_cover clusters (fetch_attrs get_host_attributes clusters).
Proof.
  unfold attrs_cover, fetch_attrs. generalize (∅ : gmap string attr).
  induction clusters as [|c0 clusters IH]; intros d c Hc.
  - by apply elem_of_nil in Hc.
  - cbn [foldl]. destruct (decide (c ∈ clusters)) as [Hin|Hnin].
    + by apply IH.
    + apply elem_of_cons in Hc as [->|Hc]; [|done].
      clear IH. revert d. induction clusters as [|c1 clusters IH]; intros d.
      * cbn [foldl]. rewrite lookup_insert_eq. by eexists.
      * cbn [foldl]. rewrite insert_insert_ne.
        -- apply IH. intros Hc. apply Hnin. by right.
        -- intros ->. apply Hnin. left.
Qed.

(** The CPU test with the floor division of Python 2: a slot fails it when
    the request exceeds twice its CPUs by two or more. *)
Lemma cpu_test_floor (total_cpu cpus : Z) :
  total_cpu / 2 > cpus ↔ total_cpu >= 2 * cpus + 2.
Proof. split; intros H; Z.div_mod_to_equations; lia. Qed.

(** C2.  The loop of lines 267-283 leaves in [planning.slots] exactly the
    slots that pass the aggregate test, in their order: a slot goes when the
    required memory exceeds [slot_ram], or the required CPU divided by two
    (floor division, as Python 2 computes it) exceeds [slot_cpu], or a
    resource of the slot with a declared minimum is below it.  When nothing
    is left the script exits; otherwise what the finder hands over has no
    insufficient slot. *)
Theorem slot_filter_discards_exactly
    (clusters : list string) (clusters_attr : gmap string attr)
    (resources : gmap string Z) (total_mem total_cpu : Z) (slots : list slot) :
  attrs_cover clusters clusters_attr →
  ∃ kept,
    filter_loop clusters clusters_attr resources total_mem total_cpu slots slots
      = Return kept
    ∧ kept `sublist_of` slots
    ∧ (∀ s, s ∈ kept ↔
         s ∈ slots
         ∧ ¬ insufficient clusters clusters_attr resources total_mem total_cpu s)
    ∧ find_slots clusters clusters_attr resources total_mem total_cpu slots
      = (if bool_decide (kept = []) then Raise SystemExit else Return kept).
Proof.
  intros Hcover.
  pose (keep := keepb clusters clusters_attr resources total_mem total_cpu).
  exists (filter (λ s, keep s = true) slots).
  assert (Hloop :
    filter_loop clusters clusters_attr resources total_mem total_cpu slots slots
    = Return (filter (λ s, keep s = true) slots)).
  { apply (filter_loop_inv _ _ _ _ _ Hcover slots []). by intros s ?%elem_of_nil. }
  split_and!.
  - done.
  - apply sublist_filter.
  - intros s. rewrite list_elem_of_filter. unfold keep.
    rewrite keepb_iff by done. tauto.
  - unfold SlotFinder.find_slots. rewrite Hloop. cbn [mbind outcome_bind].
    destruct (filter _ slots) as [|s0 l]; done.
Qed.

Lemma sample_attrs_cover : attrs_cover Sample.clusters Sample.clusters_attr.
Proof.
  intros c Hc. apply list_elem_of_In in Hc. simpl in Hc.
  destruct Hc as [<-|[<-|[]]]; eexists; vm_compute; reflexivity.
Defined.

Lemma slot_filter_discards_exactly_witness :
  ∃ kept,
    filter_loop Sample.clusters Sample.clusters_attr Sample.resources 20000 8
      [Sample.slot_a; Sample.slot_b; Sample.slot_c]
      [Sample.slot_a; Sample.slot_b; Sample.slot_c] = Return kept
    ∧ kept `sublist_of` [Sample.slot_a; Sample.slot_b; Sample.slot_c]
    ∧ (∀ s, s ∈ kept ↔
         s ∈ [Sample.slot_a; Sample.slot_b; Sample.slot_c]
         ∧ ¬ insufficient Sample.clusters Sample.clusters_attr
               Sample.resources 20000 8 s)
    ∧ find_slots Sample.clusters Sample.clusters_attr Sample.resources 20000 8
        [Sample.slot_a; Sample.slot_b; Sample.slot_c]
      = (if bool_decide (kept = []) then Raise SystemExit else Return kept).
Proof.
  apply (slot_filter_discards_exactly Sample.clusters Sample.clusters_attr
           Sample.resources 20000 8
           [Sample.slot_a; Sample.slot_b; Sample.slot_c]).
  exact sample_attrs_cover.
Defined.

(** A request for 20000 MB and 8 CPU: the slot with 15000 MB of RAM goes,
    and so does the one without the requested [suno] node. *)
Example find_slots_sample :
  find_slots Sample.clusters Sample.clusters_attr Sample.resources 20000 8
    [Sample.slot_a; Sample.slot_b; Sample.slot_c] = Return [Sample.slot_b].
Proof. vm_compute. reflexivity. Qed.

Example find_slots_sample_exit :
  find_slots Sample.clusters Sample.clusters_attr Sample.resources 20000 8
    [Sample.slot_a] = Raise SystemExit.
Proof. vm_compute. reflexivity. Qed.

End SlotFinderFacts.

(** ** Host-count distribution *)

Module DistributorFacts.
Import Distributor.

Section Distribute.

Variable clusters : list string.
Variable clusters_attr : gmap string attr.
Variable avail : gmap string Z.
Variable vm_ram_size : Z.

Abbreviation skip_full := (skip_full avail).
Abbreviation place_vm := (place_vm clusters_attr avail vm_ram_size).
Abbreviation vm_loop := (vm_loop clusters_attr avail vm_ram_size).
Abbreviation distribute_hosts :=
  (distribute_hosts clusters clusters_attr avail vm_ram_size).
Abbreviation init_cluster_nodes := (init_cluster_nodes clusters avail).

Abbreviation full := (full avail).
Abbreviation has_room := (has_room avail).
Abbreviation bounded := (bounded avail).

(** When every cluster of the cycle is full, the loop of lines 314-315
    uses up any number of steps. *)
Lemma skip_full_all_full fuel cn it c :
  it ≠ [] → full cn c → (∀ k, k ∈ it → full cn k) →
  skip_full fuel cn it c = OutOfFuel.
Proof.
  revert it c. induction fuel as [|fuel IH]; intros it c Hne (n & a & Hn & Ha & Hle) Hall;
    cbn [Distributor.skip_full]; unfold getitem; rewrite Hn, Ha;
    cbn [mbind outcome_bind]; destruct (Z.leb_spec a n); try lia; [done|].
  destruct it as [|k rest]; [done|]. cbn [cycle_next mbind outcome_bind].
  apply IH.
  - by destruct rest.
  - apply Hall. left.
  - intros k' [Hk'| ->%list_elem_of_singleton]%elem_of_app; apply Hall;
      [by right|left].
Qed.

(** The loop of lines 314-315 ends when some cluster of the cycle has
    room: as many steps as clusters come before it are enough. *)
Lemma skip_full_returns pre k post fuel cn it c :
  c :: it = pre ++ k :: post →
  (∀ x, x ∈ pre → full cn x ∨ has_room cn x) →
  has_room cn k → (length pre ≤ fuel)%nat →
  ∃ c' it', skip_full fuel cn it c = Return (c', it') ∧ has_room cn c'.
Proof.
  revert fuel it c post.
  induction pre as [|p pre IH]; intros fuel it c post Heq Hpre Hk Hfuel.
  - injection Heq as -> ->. destruct Hk as (n & a & Hn & Ha & Hlt).
    exists k, post. split; [|by exists n, a].
    destruct fuel; cbn [Distributor.skip_full]; unfold getitem; rewrite Hn, Ha;
      cbn [mbind outcome_bind]; by destruct (Z.leb_spec a n); [lia|].
  - injection Heq as -> ->.
    destruct (Hpre p) as [(n & a & Hn & Ha & Hle)|(n & a & Hn & Ha & Hlt)]; [left| |].
    + destruct fuel as [|fuel]; [simpl in Hfuel; lia|].
      cbn [Distributor.skip_full]. unfold getitem. rewrite Hn, Ha.
      cbn [mbind outcome_bind]. destruct (Z.leb_spec a n); [|lia].
      assert (Hpre' : ∀ x, x ∈ pre → full cn x ∨ has_room cn x).
      { intros x Hx. apply Hpre. by right. }
      simpl in Hfuel.
      destruct pre as [|q pre]; cbn [app cycle_next mbind outcome_bind].
      * apply (IH fuel (post ++ [k]) k (post ++ [k])); [done|done|done|simpl; lia].
      * apply (IH fuel ((pre ++ k :: post) ++ [q]) q (post ++ [q]));
          [|done|done|simpl in *; lia].
        by rewrite <- app_assoc.
    + exists p, (pre ++ k :: post). split; [|by exists n, a].
      destruct fuel; cbn [Distributor.skip_full]; unfold getitem; rewrite Hn, Ha;
        cbn [mbind outcome_bind]; by destruct (Z.leb_spec a n); [lia|].
Qed.

(** What leaves the loop of lines 314-315 has room. *)
Lemma skip_full_room fuel cn it c c' it' :
  skip_full fuel cn it c = Return (c', it') → has_room cn c'.
Proof.
  revert it c. induction fuel as [|fuel IH]; intros it c;
    cbn [Distributor.skip_full]; unfold getitem;
    destruct (cn !! c) as [n|] eqn:Hn; try done; cbn [mbind outcome_bind];
    destruct (avail !! c) as [a|] eqn:Ha; try done; cbn [mbind outcome_bind];
    destruct (Z.leb_spec a n); try done.
  - intros [= <- <-]. by exists n, a.
  - destruct (cycle_next it) as [[c1 it1]| |]; [|done..].
    cbn [mbind outcome_bind]. apply IH.
  - intros [= <- <-]. by exists n, a.
Qed.

Lemma vm_loop_app fuel n m st :
  vm_loop fuel (n + m) st = (st' ← vm_loop fuel n st; vm_loop fuel m st').
Proof.
  revert st. induction n as [|n IH]; intros st; [done|].
  cbn [Nat.add Distributor.vm_loop].
  destruct (place_vm fuel st) as [st1| |]; [|done..].
  cbn [mbind outcome_bind]. apply IH.
Qed.



(** Lines 296-299: the entries of [cluster_nodes] are the keys of the slot
    that are clusters, all at zero. *)
Lemma init_fold_lookup (l : list string) (acc : gmap string Z) c :
  foldl (λ cn c, if bool_decide (c ∈ clusters) then <[c := 0]> cn else cn) acc l !! c
  = if bool_decide (c ∈ l ∧ c ∈ clusters) then Some 0 else acc !! c.
Proof.
  revert acc. induction l as [|k l IH]; intros acc; simpl.
  - done.
  - rewrite IH.
    destruct (decide (c = k)) as [->|Hne].
    + repeat case_bool_decide; rewrite ?lookup_insert_eq; try done;
        rewrite elem_of_cons in *; naive_solver.
    + repeat case_bool_decide; rewrite ?lookup_insert_ne by done; try done;
        rewrite elem_of_cons in *; naive_solver.
Qed.

Lemma init_cluster_nodes_lookup c :
  init_cluster_nodes !! c
  = if bool_decide (is_Some (avail !! c) ∧ c ∈ clusters) then Some 0 else None.
Proof.
  unfold Distributor.init_cluster_nodes. rewrite init_fold_lookup, lookup_empty.
  assert (Hdom : c ∈ (map_to_list avail).*1 ↔ is_Some (avail !! c)).
  { rewrite list_elem_of_fmap. split.
    - intros ([k a] & -> & Hin%elem_of_map_to_list). by eexists.
    - intros [a Ha]. exists (c, a). split; [done|]. by apply elem_of_map_to_list. }
  case_bool_decide as H1; case_bool_decide as H2; tauto.
Qed.

Lemma iterkeys_check_ok ks :
  iterkeys_check clusters avail ks = true → iterkeys_of init_cluster_nodes ks.
Proof.
  unfold iterkeys_check. rewrite !andb_true_iff, !forallb_forall.
  intros [[Hnd%bool_decide_eq_true Hin] Hall]. split; [done|].
  assert (Hdom : ∀ k, k ∈ (map_to_list avail).*1 ↔ is_Some (avail !! k)).
  { intros k. rewrite list_elem_of_fmap. split.
    - intros ([k' a] & -> & Hk%elem_of_map_to_list). by eexists.
    - intros [a Ha]. exists (k, a). split; [done|]. by apply elem_of_map_to_list. }
  intros k. rewrite init_cluster_nodes_lookup. split.
  - intros Hk%list_elem_of_In%Hin%bool_decide_eq_true.
    rewrite Hdom in Hk. by rewrite bool_decide_true.
  - case_bool_decide as Hk; [|by intros [? ?]]. intros _.
    destruct Hk as [Hk%Hdom%list_elem_of_In%Hall%bool_decide_eq_true Hc]. auto.
Qed.


Lemma nonneg_insert (cn : gmap string Z) c n :
  nonneg cn → 0 ≤ n → nonneg (<[c := n]> cn).
Proof.
  intros Hnn Hn c' n'. destruct (decide (c = c')) as [->|Hne].
  - rewrite lookup_insert_eq. by intros [= <-].
  - rewrite lookup_insert_ne by done. apply Hnn.
Qed.





Variable get_cluster_site : string → string.

Abbreviation apply_minimum := (apply_minimum get_cluster_site).
Abbreviation apply_minimums := (apply_minimums get_cluster_site).
Abbreviation allocate_hosts :=
  (allocate_hosts clusters clusters_attr avail vm_ram_size get_cluster_site).

Lemma grows_refl cn : grows cn cn.
Proof. intros c n Hc. exists n. split; [done|lia]. Qed.

Lemma grows_trans cn1 cn2 cn3 : grows cn1 cn2 → grows cn2 cn3 → grows cn1 cn3.
Proof.
  intros H12 H23 c n Hc. destruct (H12 c n Hc) as (n2 & Hc2 & ?).
  destruct (H23 c n2 Hc2) as (n3 & Hc3 & ?). exists n3. split; [done|lia].
Qed.

(** Lines 320-325 for one cluster: the counts grow, the count of the
    cluster reaches its requested minimum, and only the entry of the site
    changes in [resources]. *)
Lemma apply_minimum_spec cn res c cn' res' :
  apply_minimum (cn, res) c = Return (cn', res') →
  grows cn cn'
  ∧ (nonneg cn → nonneg cn')
  ∧ (∀ m, res !! c = Some m → ∃ n', cn' !! c = Some n' ∧ m ≤ n')
  ∧ (∀ k, k ≠ get_cluster_site c → res' !! k = res !! k)
  ∧ (∀ k, k ≠ c → cn' !! k = cn !! k)
  ∧ (∃ n, cn !! c = Some n
          ∧ cn' !! c = Some (match res !! c with Some m => Z.max n m | None => n end)).
Proof.
  unfold Distributor.apply_minimum.
  destruct (res !! c) as [m|] eqn:Hm.
  - unfold getitem. destruct (cn !! c) as [n|] eqn:Hn; [|by cbn].
    cbn [mbind outcome_bind]. rewrite lookup_insert_eq.
    cbn [mbind outcome_bind]. intros [= <- <-]. split_and!.
    + intros k nk Hk. destruct (decide (c = k)) as [<-|Hne].
      * rewrite lookup_insert_eq. exists (Z.max n m). split; [done|].
        rewrite Hn in Hk. injection Hk as <-. lia.
      * rewrite lookup_insert_ne by done. exists nk. split; [done|lia].
    + intros Hnn. apply nonneg_insert; [done|]. apply Hnn in Hn. lia.
    + intros m' [= <-]. rewrite lookup_insert_eq. exists (Z.max n m).
      split; [done|lia].
    + intros k Hk. destruct (res !! get_cluster_site c);
        by rewrite lookup_insert_ne.
    + intros k Hk. by rewrite lookup_insert_ne.
    + exists n. by rewrite lookup_insert_eq.
  - cbn [mbind outcome_bind]. unfold getitem.
    destruct (cn !! c) as [n|] eqn:Hn; [|done].
    cbn [mbind outcome_bind]. intros [= <- <-]. split_and!.
    + apply grows_refl.
    + done.
    + done.
    + intros k Hk. destruct (res !! get_cluster_site c);
        by rewrite lookup_insert_ne.
    + done.
    + by exists n.
Qed.


Lemma apply_minimums_grows ks cn res cn' res' :
  apply_minimums ks (cn, res) = Return (cn', res') →
  grows cn cn' ∧ (nonneg cn → nonneg cn').
Proof.
  revert cn res. induction ks as [|c ks IH]; intros cn res;
    cbn [Distributor.apply_minimums].
  - intros [= <- <-]. split; [apply grows_refl|done].
  - destruct (apply_minimum (cn, res) c) as [[cn1 res1]| |] eqn:H1; [|done..].
    cbn [mbind outcome_bind]. intros H2.
    apply apply_minimum_spec in H1 as (Hg1 & Hn1 & _).
    apply IH in H2 as (Hg2 & Hn2). split; [by eapply grows_trans|auto].
Qed.


(** *** When the allocation stays within the slot *)

Lemma bounded_insert (cn : gmap string Z) c n a :
  bounded cn → avail !! c = Some a → n ≤ a → bounded (<[c := n]> cn).
Proof.
  intros Hb Ha Hn c' n'. destruct (decide (c = c')) as [<-|Hne].
  - rewrite lookup_insert_eq. intros [= <-]. by exists a.
  - rewrite lookup_insert_ne by done. apply Hb.
Qed.

(** Lines 307-315 keep the counts within the slot and the current cluster
    with room, once the current cluster has room. *)
Lemma place_vm_bounded fuel st st' :
  bounded (cluster_nodes st) → has_room (cluster_nodes st) (cluster st) →
  place_vm fuel st = Return st' →
  bounded (cluster_nodes st') ∧ has_room (cluster_nodes st') (cluster st').
Proof.
  intros Hb (n & a & Hn & Ha & Hlt). unfold Distributor.place_vm.
  destruct (getitem clusters_attr (cluster st)) as [at_| |]; [|done..].
  cbn [mbind outcome_bind]. destruct (_ <? _).
  2:{ intros [= <-]. split; [done|]. by exists n, a. }
  unfold getitem. rewrite Hn, Ha. cbn [mbind outcome_bind].
  destruct (Z.ltb_spec a (n + 1)); [lia|].
  cbn [mbind outcome_bind]. rewrite Hn. cbn [mbind outcome_bind].
  destruct (cycle_next (iter_cluster st)) as [[c2 it2]| |]; [|done..].
  cbn [mbind outcome_bind].
  destruct (skip_full _ _ _ _) as [[c3 it3]| |] eqn:Hskip; [|done..].
  cbn [mbind outcome_bind]. intros [= <-]. cbn [cluster_nodes cluster].
  split.
  - apply (bounded_insert _ _ _ a); [done|done|lia].
  - by eapply skip_full_room.
Qed.

Lemma vm_loop_bounded fuel n st st' :
  bounded (cluster_nodes st) → has_room (cluster_nodes st) (cluster st) →
  vm_loop fuel n st = Return st' →
  bounded (cluster_nodes st') ∧ has_room (cluster_nodes st') (cluster st').
Proof.
  revert st. induction n as [|n IH]; intros st Hb Hr; cbn [Distributor.vm_loop].
  - by intros [= <-].
  - destruct (place_vm fuel st) as [st1| |] eqn:H1; [|done..].
    cbn [mbind outcome_bind].
    apply place_vm_bounded in H1 as [Hb1 Hr1]; [|done..]. by apply IH.
Qed.

(** Lines 301-316 stay within the slot when the first cluster of the cycle
    has a free host. *)
Lemma distribute_hosts_bounded fuel k ks n_vm cn :
  (∀ c a, avail !! c = Some a → 0 ≤ a) →
  has_room init_cluster_nodes k →
  distribute_hosts fuel (k :: ks) n_vm = Return cn → bounded cn.
Proof.
  intros Havail Hroom. unfold Distributor.distribute_hosts.
  cbn [cycle_next mbind outcome_bind].
  destruct (vm_loop _ _ _) as [st| |] eqn:Hloop; [|done..].
  cbn [mbind outcome_bind].
  apply vm_loop_bounded in Hloop as [Hb (n & a & Hn & Ha & Hlt)]; [|..|done].
  - unfold getitem. rewrite Hn. cbn [mbind outcome_bind]. intros [= <-].
    apply (bounded_insert _ _ _ a); [done|done|lia].
  - intros c n. rewrite init_cluster_nodes_lookup.
    case_bool_decide as Hc; [|done]. intros [= <-].
    destruct Hc as [[a Ha] _]. exists a. split; [done|]. by eapply Havail.
Qed.

(** Lines 319-325 on the clusters still to visit: each of them ends at or
    above its requested minimum, and the counts stay within the slot when
    the slot has the requested minimums.  The names of the sites are not
    names of clusters. *)
Lemma apply_minimums_bounds todo cn res cn' res' :
  NoDup todo → (∀ c, c ∈ todo → get_cluster_site c ∉ todo) →
  apply_minimums todo (cn, res) = Return (cn', res') →
  (∀ c m, c ∈ todo → res !! c = Some m → ∃ n', cn' !! c = Some n' ∧ m ≤ n')
  ∧ (bounded cn →
     (∀ c m a, c ∈ todo → res !! c = Some m → avail !! c = Some a → m ≤ a) →
     bounded cn').
Proof.
  revert cn res. induction todo as [|c0 todo IH]; intros cn res Hnd Hsite;
    cbn [Distributor.apply_minimums].
  - intros [= <- <-]. split; [by intros c m ?%elem_of_nil|done].
  - destruct (apply_minimum (cn, res) c0) as [[cn1 res1]| |] eqn:H1; [|done..].
    cbn [mbind outcome_bind]. intros H2.
    apply NoDup_cons in Hnd as [Hc0 Hnd].
    apply apply_minimum_spec in H1 as (_ & _ & Hfloor & Hres & Hcn & n0 & Hn0 & Hn1).
    assert (Hsite' : ∀ c, c ∈ todo → get_cluster_site c ∉ todo).
    { intros c Hc Hin. apply (Hsite c); by right. }
    assert (Hres' : ∀ c, c ∈ todo → res1 !! c = res !! c).
    { intros c Hc. apply Hres. intros ->. apply (Hsite c0); [left|by right]. }
    pose proof (apply_minimums_grows _ _ _ _ _ H2) as [Hgrow _].
    apply IH in H2 as [IHfloor IHbound]; [|done..]. split.
    + intros c m [->|Hc]%elem_of_cons Hm.
      * destruct (Hfloor m Hm) as (n1 & Hc1 & Hle).
        destruct (Hgrow _ _ Hc1) as (n' & Hc' & Hle'). exists n'. split; [done|lia].
      * apply IHfloor; [done|]. by rewrite Hres'.
    + intros Hb Hreq. apply IHbound.
      * intros c n. destruct (decide (c = c0)) as [->|Hne].
        -- rewrite Hn1. intros [= <-]. destruct (Hb _ _ Hn0) as (a & Ha & Hle).
           exists a. split; [done|]. destruct (res !! c0) as [m|] eqn:Hm; [|done].
           assert (m ≤ a) by (eapply (Hreq c0); [left|done..]). lia.
        -- rewrite Hcn by done. apply Hb.
      * intros c m a Hc Hm Ha. apply (Hreq c m a); [by right| |done].
        by rewrite <- Hres'.
Qed.

(** Lines 296-325 give an allocation between the requested minimums and
    the availability of the slot when the first cluster of the cycle has a
    free host and the slot has the requested minimums. *)
Lemma allocate_hosts_within_slot fuel k ks n_vm resources cn res' :
  NoDup (k :: ks) →
  (∀ c, c ∈ k :: ks → get_cluster_site c ∉ k :: ks) →
  (∀ c a, avail !! c = Some a → 0 ≤ a) →
  (∀ c m a, c ∈ k :: ks → resources !! c = Some m → avail !! c = Some a → m ≤ a) →
  has_room init_cluster_nodes k →
  allocate_hosts fuel (k :: ks) n_vm resources = Return (cn, res') →
  bounded cn
  ∧ ∀ c m, c ∈ k :: ks → resources !! c = Some m → ∃ n, cn !! c = Some n ∧ m ≤ n.
Proof.
  intros Hnd Hsite Havail Hreq Hroom. unfold Distributor.allocate_hosts.
  destruct (distribute_hosts _ _ _) as [cn0| |] eqn:H0; [|done..].
  cbn [mbind outcome_bind]. intros H1.
  apply distribute_hosts_bounded in H0; [|done..].
  apply apply_minimums_bounds in H1 as [Hfloor Hbound]; [|done..].
  split; [by apply Hbound|]. intros c m Hc Hm. by apply Hfloor.
Qed.

End Distribute.

(** C6.  One cluster with one available host of 8192 MB and eight virtual
    machines of 1024 MB, a slot that passes the filter: the eighth machine
    fills the host, the count reaches the availability, and the loop of
    lines 314-315 then asks the cycle for the next cluster for ever; no
    number of steps gives a result and nothing is raised. *)
Theorem single_cluster_ceiling_loops (fuel : nat) :
  iterkeys_of (init_cluster_nodes ["sol"] Sample.avail_sol1) ["sol"]
  ∧ distribute_hosts ["sol"] Sample.attr8 Sample.avail_sol1 1024 fuel ["sol"] 8
    = OutOfFuel
  ∧ SlotFinder.find_slots ["sol"] Sample.attr8 {[ "sol" := 0 ]} 8192 8
      [Slot 0 3600 Sample.avail_sol1] = Return [Slot 0 3600 Sample.avail_sol1].
Proof.
  split_and!.
  { apply iterkeys_check_ok. vm_compute. reflexivity. }
  2:{ vm_compute. reflexivity. }
  unfold distribute_hosts. cbn [cycle_next mbind outcome_bind app].
  change (Z.to_nat 8) with (7 + 1)%nat. rewrite vm_loop_app.
  assert (H7 : vm_loop Sample.attr8 Sample.avail_sol1 1024 fuel 7
                 (State (init_cluster_nodes ["sol"] Sample.avail_sol1) ["sol"] "sol" 0)
               = Return (State {[ "sol" := 0 ]} ["sol"] "sol" 7168)).
  { vm_compute. reflexivity. }
  rewrite H7. cbn [mbind outcome_bind vm_loop].
  assert (H8 : place_vm Sample.attr8 Sample.avail_sol1 1024 fuel
                 (State {[ "sol" := 0 ]} ["sol"] "sol" 7168)
               = ('(c3, it3) ← skip_full Sample.avail_sol1 fuel
                                  {[ "sol" := 1 ]} ["sol"] "sol";
                  Return (State {[ "sol" := 1 ]} it3 c3 0))).
  { reflexivity. }
  rewrite H8, skip_full_all_full; [done|done| |].
  - exists 1, 1. split_and!; [vm_compute; reflexivity..|lia].
  - intros k ->%list_elem_of_singleton.
    exists 1, 1. split_and!; [vm_compute; reflexivity..|lia].
Qed.



Example distribute_zero_vms :
  distribute_hosts Sample.clusters Sample.attr8 Sample.avail_suno0 1024
    5 ["sol"; "suno"] 0 = Return {[ "sol" := 1; "suno" := 0 ]}.
Proof. vm_compute. reflexivity. Qed.

(** Ten machines of 1024 MB on hosts of 8192 MB: eight fill a host of the
    first cluster of the cycle, the last two go to the second. *)
Example distribute_three_clusters :
  distribute_hosts ["A"; "B"; "C"] Sample.attr_abc Sample.avail_abc 1024
    3 ["A"; "B"; "C"] 10 = Return {[ "A" := 1; "B" := 1; "C" := 0 ]}.
Proof. vm_compute. reflexivity. Qed.

(** C1.  The increment of line 316 is not guarded.  A slot in which the
    first cluster of the cycle has no free host and one virtual machine:
    that cluster is allocated one host, above its availability of zero.
    Whichever of the two clusters the dict enumerates first, one of the two
    slots shows it.  Both slots pass the filter of the slot finder. *)
Theorem zero_availability_overallocated (fuel : nat) :
  iterkeys_of (init_cluster_nodes Sample.clusters Sample.avail_sol0) ["sol"; "suno"]
  ∧ allocate_hosts Sample.clusters Sample.attr8 Sample.avail_sol0 1024
      Sample.site_of fuel ["sol"; "suno"] 1 Sample.site_request
    = Return ({[ "sol" := 1; "suno" := 0 ]}, {[ "sophia" := 1 ]})
  ∧ Sample.avail_sol0 !! "sol" = Some 0
  ∧ iterkeys_of (init_cluster_nodes Sample.clusters Sample.avail_suno0) ["suno"; "sol"]
  ∧ allocate_hosts Sample.clusters Sample.attr8 Sample.avail_suno0 1024
      Sample.site_of fuel ["suno"; "sol"] 1 Sample.site_request
    = Return ({[ "sol" := 0; "suno" := 1 ]}, {[ "sophia" := 1 ]})
  ∧ Sample.avail_suno0 !! "suno" = Some 0
  ∧ SlotFinder.find_slots Sample.clusters Sample.attr8 Sample.site_request
      1024 1 [Slot 0 3600 Sample.avail_sol0; Slot 0 3600 Sample.avail_suno0]
    = Return [Slot 0 3600 Sample.avail_sol0; Slot 0 3600 Sample.avail_suno0].
Proof.
  split_and!.
  - apply iterkeys_check_ok. vm_compute. reflexivity.
  - vm_compute. reflexivity.
  - vm_compute. reflexivity.
  - apply iterkeys_check_ok. vm_compute. reflexivity.
  - vm_compute. reflexivity.
  - vm_compute. reflexivity.
  - vm_compute. reflexivity.
Qed.

End DistributorFacts.

(** ** Network identities *)

Module NetFacts.
Import Net.

Lemma land_255 (x : Z) : Z.land x 255 = x mod 256.
Proof. change 255 with (Z.ones 8). by rewrite Z.land_ones. Qed.

Lemma word_range (i ip : Z) : 0 ≤ word i ip ≤ 255.
Proof.
  unfold word. rewrite land_255.
  pose proof (Z.mod_pos_bound (ip ≫ (8 * (3 - i))) 256). lia.
Qed.

Section Filter.

Variable sites : list string.
Variable kavlan_id : Z.

Abbreviation vm_ip_step := (vm_ip_step sites kavlan_id).
Abbreviation vm_ip_of := (vm_ip_of sites kavlan_id).
Abbreviation keeps := (keeps sites kavlan_id).

Lemma vm_ip_step_keeps vm_ip ip :
  vm_ip_step vm_ip ip = if decide (keeps ip) then vm_ip ++ [ip] else vm_ip.
Proof.
  unfold Net.vm_ip_step, Net.keeps.
  destruct (Z.eqb_spec (word 3 ip) 0) as [H3|H3]; cbn [negb].
  { rewrite decide_False; [done|tauto]. }
  case_bool_decide as Hs; cbn [andb].
  - destruct (Z.ltb_spec ((kavlan_id - 4) * 64 + 2) (word 2 ip)).
    { rewrite decide_True; [done|]. split; [done|]. left. lia. }
    destruct (Z.leb_spec 216 (word 2 ip)).
    + rewrite decide_True; [done|]. split; [done|]. right. lia.
    + rewrite decide_False; [done|]. intros [_ [[_ ?]|?]]; lia.
  - destruct (Z.leb_spec 216 (word 2 ip)).
    + rewrite decide_True; [done|]. split; [done|]. right. lia.
    + rewrite decide_False; [done|]. intros [_ [[? _]|?]]; [done|lia].
Qed.

Lemma vm_ip_fold acc hosts :
  foldl vm_ip_step acc hosts = acc ++ filter keeps hosts.
Proof.
  revert acc. induction hosts as [|ip hosts IH]; intros acc; simpl.
  - by rewrite app_nil_r.
  - rewrite IH, vm_ip_step_keeps, (filter_cons keeps).
    destruct (decide (keeps ip)); [|done]. by rewrite <- app_assoc.
Qed.

(** Lines 410-416 select, in order, the addresses that the rule keeps. *)
Lemma vm_ip_of_filter hosts : vm_ip_of hosts = filter keeps hosts.
Proof. unfold Net.vm_ip_of. by rewrite vm_ip_fold. Qed.

End Filter.

(** C5, as the code has it.  An address is kept exactly when its last octet
    is not 0 and its third octet exceeds [(kavlan_id - 4) * 64 + 2] with
    one site involved, or is at least 216 whatever the number of sites.
    With one site and a VLAN id of at most 7 that is the rule of the third
    octet exceeding the threshold; with another number of sites it is the
    rule of 216; with one site and VLAN 5 every kept address has a third
    octet above 66. *)
Theorem address_filter_rule (sites : list string) (kavlan_id : Z)
    (hosts : list Z) (ip : Z) :
  (ip ∈ vm_ip_of sites kavlan_id hosts ↔
     ip ∈ hosts ∧ word 3 ip ≠ 0
     ∧ ((length sites = 1%nat ∧ word 2 ip > (kavlan_id - 4) * 64 + 2)
        ∨ word 2 ip >= 216))
  ∧ (length sites = 1%nat → kavlan_id ≤ 7 →
     (ip ∈ vm_ip_of sites kavlan_id hosts ↔
        ip ∈ hosts ∧ word 3 ip ≠ 0 ∧ word 2 ip > (kavlan_id - 4) * 64 + 2))
  ∧ (length sites ≠ 1%nat →
     (ip ∈ vm_ip_of sites kavlan_id hosts ↔
        ip ∈ hosts ∧ word 3 ip ≠ 0 ∧ word 2 ip >= 216))
  ∧ (length sites = 1%nat → kavlan_id = 5 →
     ip ∈ vm_ip_of sites kavlan_id hosts → word 2 ip > 66).
Proof.
  assert (Hiff : ip ∈ vm_ip_of sites kavlan_id hosts ↔
                 ip ∈ hosts ∧ keeps sites kavlan_id ip).
  { rewrite vm_ip_of_filter, list_elem_of_filter. tauto. }
  unfold keeps in Hiff. split_and!.
  - rewrite Hiff. tauto.
  - intros Hs Hk. rewrite Hiff. split.
    + intros (? & ? & [[_ ?]|?]); split_and!; auto; lia.
    + intros (? & ? & ?). split_and!; auto.
  - intros Hs. rewrite Hiff. split.
    + intros (? & ? & [[? _]|?]); [done|]. by split_and!.
    + intros (? & ? & ?). split_and!; auto.
  - intros Hs -> [_ [_ [[_ ?]|?]]]%Hiff; lia.
Qed.

Lemma address_filter_rule_witness :
  (ip4 10 5 67 1 ∈ vm_ip_of ["sophia"] 5 [ip4 10 5 66 1; ip4 10 5 67 1] ↔
     ip4 10 5 67 1 ∈ [ip4 10 5 66 1; ip4 10 5 67 1] ∧ word 3 (ip4 10 5 67 1) ≠ 0
     ∧ word 2 (ip4 10 5 67 1) > (5 - 4) * 64 + 2)
  ∧ word 2 (ip4 10 5 67 1) > 66.
Proof.
  pose proof (address_filter_rule ["sophia"] 5 [ip4 10 5 66 1; ip4 10 5 67 1]
                (ip4 10 5 67 1)) as (H0 & H1 & _ & H3).
  split.
  - apply H1; [reflexivity|lia].
  - apply H3; [reflexivity|reflexivity|].
    apply H0. split_and!.
    + right. left.
    + vm_compute. discriminate.
    + left. split; [reflexivity|vm_compute; reflexivity].
Defined.

(** With one site and VLAN 8 the threshold is 258: the address 10.8.216.1
    is kept by the second test of line 415 although its third octet does
    not exceed the threshold. *)
Lemma single_site_rule_counterexample :
  length ["sophia"] = 1%nat
  ∧ ip4 10 8 216 1 ∈ vm_ip_of ["sophia"] 8 [ip4 10 8 216 1]
  ∧ ¬ (word 2 (ip4 10 8 216 1) > (8 - 4) * 64 + 2).
Proof.
  split_and!.
  - reflexivity.
  - vm_compute. left.
  - vm_compute. intros H. discriminate H.
Qed.



(** *** Text of addresses and MACs *)

Lemma elem_of_bytes (x : Z) : x ∈ bytes ↔ 0 ≤ x ≤ 255.
Proof. unfold bytes. rewrite elem_of_seqZ. lia. Qed.

Lemma hex2_inj_bytes :
  forallb (λ a, forallb (λ b, implb (String.eqb (hex2 a) (hex2 b)) (a =? b)) bytes)
          bytes = true.
Proof. vm_compute. reflexivity. Qed.

Lemma hex2_inj (a b : Z) :
  0 ≤ a ≤ 255 → 0 ≤ b ≤ 255 → hex2 a = hex2 b → a = b.
Proof.
  intros Ha%elem_of_bytes Hb%elem_of_bytes Heq.
  pose proof hex2_inj_bytes as H. rewrite forallb_forall in H.
  apply list_elem_of_In, H in Ha. rewrite forallb_forall in Ha.
  apply list_elem_of_In, Ha in Hb.
  rewrite Heq, String.eqb_refl in Hb. simpl in Hb. by apply Z.eqb_eq.
Qed.

Lemma str_octet_inj_bytes :
  forallb (λ a, forallb (λ b, implb (String.eqb (str_octet a) (str_octet b)) (a =? b))
                        bytes)
          bytes = true.
Proof. vm_compute. reflexivity. Qed.

Lemma str_octet_inj (a b : Z) :
  0 ≤ a ≤ 255 → 0 ≤ b ≤ 255 → str_octet a = str_octet b → a = b.
Proof.
  intros Ha%elem_of_bytes Hb%elem_of_bytes Heq.
  pose proof str_octet_inj_bytes as H. rewrite forallb_forall in H.
  apply list_elem_of_In, H in Ha. rewrite forallb_forall in Ha.
  apply list_elem_of_In, Ha in Hb.
  rewrite Heq, String.eqb_refl in Hb. simpl in Hb. by apply Z.eqb_eq.
Qed.

Lemma str_octet_no_dot_bytes :
  forallb (λ a, negb (occurs "." (str_octet a))) bytes = true.
Proof. vm_compute. reflexivity. Qed.

Lemma str_octet_no_dot (a : Z) : 0 ≤ a ≤ 255 → occurs "." (str_octet a) = false.
Proof.
  intros Ha%elem_of_bytes. pose proof str_octet_no_dot_bytes as H.
  rewrite forallb_forall in H. apply list_elem_of_In, H in Ha.
  by apply negb_true_iff.
Qed.

(** Two texts without [c], each followed by [c], are cut at the same place. *)
Lemma split_at_sep (c : ascii) (s s' r r' : string) :
  occurs c s = false → occurs c s' = false →
  s +:+ String c r = s' +:+ String c r' → s = s' ∧ r = r'.
Proof.
  revert s'. induction s as [|a s IH]; intros [|a' s']; simpl.
  - intros _ _ [= ->]. done.
  - destruct (decide (a' = c)); [done|]. intros _ _ [= ? _]. congruence.
  - destruct (decide (a = c)); [done|]. intros _ _ [= ? _]. congruence.
  - destruct (decide (a = c)); [done|]. destruct (decide (a' = c)); [done|].
    intros Hs Hs' [= -> Heq]. destruct (IH _ Hs Hs' Heq) as [-> ->]. done.
Qed.

Lemma word_decompose (ip : Z) :
  ip mod 2 ^ 32 = ip4 (word 0 ip) (word 1 ip) (word 2 ip) (word 3 ip).
Proof.
  unfold word, ip4. rewrite !land_255, !Z.shiftr_div_pow2 by lia.
  change (2 ^ (8 * (3 - 0))) with 16777216.
  change (2 ^ (8 * (3 - 1))) with 65536.
  change (2 ^ (8 * (3 - 2))) with 256.
  change (2 ^ (8 * (3 - 3))) with 1.
  change (2 ^ 32) with 4294967296.
  Z.div_mod_to_equations. lia.
Qed.

Lemma str_ip_words (ip ip' : Z) :
  str_ip ip = str_ip ip' → ip mod 2 ^ 32 = ip' mod 2 ^ 32.
Proof.
  intros Heq. rewrite !word_decompose.
  unfold str_ip in Heq. cbn [map join] in Heq.
  change ("." +:+ ?x) with (String "."%char x) in Heq.
  apply split_at_sep in Heq as [H0 Heq];
    [|apply str_octet_no_dot, word_range..].
  apply split_at_sep in Heq as [H1 Heq];
    [|apply str_octet_no_dot, word_range..].
  apply split_at_sep in Heq as [H2 H3];
    [|apply str_octet_no_dot, word_range..].
  apply str_octet_inj in H0, H1, H2, H3; try apply word_range.
  by rewrite H0, H1, H2, H3.
Qed.

(** [str] tells apart the addresses of a range of at most [2^32]. *)
Lemma str_ip_inj_range (a n ip ip' : Z) :
  n ≤ 2 ^ 32 → a ≤ ip < a + n → a ≤ ip' < a + n →
  str_ip ip = str_ip ip' → ip = ip'.
Proof.
  intros Hn Hi Hi' Heq%str_ip_words.
  change (2 ^ 32) with 4294967296 in *.
  Z.div_mod_to_equations. lia.
Qed.


Lemma randint_byte (raw : Z) : 0 ≤ randint 0 255 raw ≤ 255.
Proof.
  unfold randint. change (255 - 0 + 1) with 256.
  pose proof (Z.mod_pos_bound raw 256). lia.
Qed.

Lemma hex2_app_inj (a b : Z) (x y : string) :
  hex2 a +:+ x = hex2 b +:+ y → hex2 a = hex2 b ∧ x = y.
Proof.
  intros H.
  change (String (hex_char (a / 16)) (String (hex_char (a mod 16)) x)
          = String (hex_char (b / 16)) (String (hex_char (b mod 16)) y)) in H.
  injection H as H1 H2 H3. unfold hex2. by rewrite H1, H2, H3.
Qed.

Lemma colon_app_inj (x y : string) : ":" +:+ x = ":" +:+ y → x = y.
Proof. intros H. change (String ":"%char x = String ":"%char y) in H. congruence. Qed.

Section Allocator.

Variable sites : list string.
Variable kavlan_id : Z.
Variable rnd : nat → Z.

Abbreviation draw_mac := (draw_mac rnd).
Abbreviation drawn := (drawn rnd).
Abbreviation retry_mac := (retry_mac rnd).
Abbreviation ip_mac_step := (ip_mac_step rnd).
Abbreviation ip_mac_loop := (ip_mac_loop rnd).
Abbreviation generate := (generate rnd).
Abbreviation allocate := (allocate sites kavlan_id rnd).
Abbreviation fresh_within := (fresh_within rnd).

(** The text of a MAC tells apart the MACs that the generator builds. *)
Lemma mac_str_inj (m m' : list Z) : drawn m → drawn m' → mac_str m = mac_str m' → m = m'.
Proof.
  intros [p ->] [p' ->]. unfold Net.draw_mac, mac_str. cbn [fst map join].
  intros H.
  do 3 (apply hex2_app_inj in H as [_ H]; apply colon_app_inj in H).
  apply hex2_app_inj in H as [Ha H]. apply colon_app_inj in H.
  apply hex2_app_inj in H as [Hb Hc]. apply colon_app_inj in Hc.
  apply hex2_inj in Ha, Hb, Hc; try apply randint_byte.
  by rewrite Ha, Hb, Hc.
Qed.

(** Lines 426-430: what leaves the loop is a generated MAC that was not
    issued before. *)
Lemma retry_mac_spec fuel issued mac p mac' p' :
  drawn mac → retry_mac fuel issued mac p = Return (mac', p') →
  (mac' ∉ issued) ∧ drawn mac'.
Proof.
  revert mac p. induction fuel as [|fuel IH]; intros mac p Hd; cbn [Net.retry_mac].
  - case_bool_decide; [done|]. by intros [= <- <-].
  - case_bool_decide.
    + apply IH. by eexists.
    + by intros [= <- <-].
Qed.

(** The loop ends as soon as one of the next draws is new. *)
Lemma retry_mac_returns fuel issued p k :
  (k ≤ fuel)%nat → (draw_mac (p + 3 * k)).1 ∉ issued →
  ∃ mac p', retry_mac fuel issued (draw_mac p).1 (draw_mac p).2 = Return (mac, p').
Proof.
  revert p k. induction fuel as [|fuel IH]; intros p k Hk Hfresh;
    cbn [Net.retry_mac].
  - assert (k = 0)%nat as -> by lia. rewrite Nat.add_0_r in Hfresh.
    rewrite bool_decide_false by done. by eexists _, _.
  - case_bool_decide as Hin; [|by eexists _, _].
    destruct k as [|k].
    { rewrite Nat.add_0_r in Hfresh. done. }
    cbn [snd]. change (S (S (S p))) with (3 + p)%nat.
    apply (IH (3 + p)%nat k); [lia|].
    by replace (3 + p + 3 * k)%nat with (p + 3 * S k)%nat by lia.
Qed.

Abbreviation gen_ok := (gen_ok rnd).

Lemma ip_mac_step_spec fuel g ip g' :
  gen_ok g → ip_mac_step fuel g ip = Return g' →
  gen_ok g'
  ∧ (ip_mac g').*1 = (ip_mac g).*1 ++ [str_ip ip]
  ∧ length (macs g') = S (length (macs g)).
Proof.
  intros (Hnd & Hdr & Hstr). unfold Net.ip_mac_step.
  destruct (Net.draw_mac rnd (pos g)) as [mac p] eqn:Hdraw.
  destruct (retry_mac fuel (macs g) mac p) as [[mac' p']| |] eqn:Hr; [|done..].
  cbn [mbind outcome_bind]. intros [= <-]. unfold gen_ok.
  cbn [Net.macs Net.ip_mac].
  apply retry_mac_spec in Hr as [Hnew Hd'].
  2:{ exists (pos g). by rewrite Hdraw. }
  split_and!.
  - apply NoDup_app. split_and!; [done| |apply NoDup_singleton].
    intros x Hx ->%list_elem_of_singleton. done.
  - apply Forall_app. split; [done|]. by apply Forall_singleton.
  - rewrite !fmap_app, Hstr. done.
  - by rewrite fmap_app.
  - rewrite length_app. simpl. lia.
Qed.

Lemma ip_mac_loop_spec fuel ips g g' :
  gen_ok g → ip_mac_loop fuel g ips = Return g' →
  gen_ok g'
  ∧ (ip_mac g').*1 = (ip_mac g).*1 ++ map str_ip ips
  ∧ length (macs g') = (length (macs g) + length ips)%nat.
Proof.
  revert g. induction ips as [|ip ips IH]; intros g Hok; cbn [Net.ip_mac_loop].
  - intros [= <-]. rewrite app_nil_r. simpl. split_and!; [done..|lia].
  - destruct (ip_mac_step fuel g ip) as [g1| |] eqn:H1; [|done..].
    cbn [mbind outcome_bind]. intros H2.
    apply ip_mac_step_spec in H1 as (Hok1 & Hip1 & Hlen1); [|done].
    apply IH in H2 as (Hok2 & Hip2 & Hlen2); [|done].
    split_and!; [done| |simpl; lia].
    rewrite Hip2, Hip1, <- app_assoc. done.
Qed.

Lemma ip_mac_step_returns fuel bound g ip :
  fresh_within fuel bound → (length (macs g) < bound)%nat →
  ∃ g', ip_mac_step fuel g ip = Return g'.
Proof.
  intros Hfresh Hlen. unfold Net.ip_mac_step.
  destruct (Hfresh (macs g) (pos g) Hlen) as (k & Hk & Hnew).
  destruct (retry_mac_returns fuel (macs g) (pos g) k Hk Hnew) as (mac & p' & Hr).
  destruct (Net.draw_mac rnd (pos g)) as [mac0 p0]. cbn [fst snd] in Hr.
  rewrite Hr. cbn [mbind outcome_bind]. by eexists.
Qed.

Lemma ip_mac_loop_returns fuel bound ips g :
  fresh_within fuel bound → gen_ok g →
  (length (macs g) + length ips ≤ bound)%nat →
  ∃ g', ip_mac_loop fuel g ips = Return g'.
Proof.
  intros Hfresh. revert g. induction ips as [|ip ips IH]; intros g Hok Hlen;
    cbn [Net.ip_mac_loop].
  - by eexists.
  - simpl in Hlen.
    destruct (ip_mac_step_returns fuel bound g ip Hfresh) as [g1 H1]; [lia|].
    rewrite H1. cbn [mbind outcome_bind].
    apply ip_mac_step_spec in H1 as (Hok1 & _ & Hlen1); [|done].
    apply IH; [done|lia].
Qed.

Lemma gen_ok_init : gen_ok (Gen [] [] 0%nat).
Proof. split_and!; [apply NoDup_nil_2|done|done]. Qed.

Lemma slice_to_take {A} (l : list A) (n : Z) : ∃ k, slice_to l n = take k l.
Proof. unfold slice_to. destruct (n <? 0); by eexists. Qed.

Lemma slice_to_nonneg {A} (l : list A) (n : Z) :
  0 ≤ n → slice_to l n = take (Z.to_nat n) l.
Proof. intros Hn. unfold slice_to. by destruct (Z.ltb_spec n 0); [lia|]. Qed.

(** The host addresses of a network are distinct and lie in a range of at
    most [2^32] addresses. *)
Lemma iter_hosts_range (ips : IPNetwork) :
  0 ≤ prefixlen ips →
  NoDup (iter_hosts ips)
  ∧ ∃ a n, n ≤ 2 ^ 32 ∧ ∀ x, x ∈ iter_hosts ips → a ≤ x < a + n.
Proof.
  intros Hp. unfold iter_hosts.
  destruct (4 <=? net_size ips); [|split; [apply NoDup_nil_2|]].
  - split; [apply NoDup_seqZ|].
    exists (net_first ips + 1), (net_size ips - 2). split.
    + unfold net_size.
      assert (2 ^ (32 - prefixlen ips) ≤ 2 ^ 32) by (apply Z.pow_le_mono_r; lia).
      lia.
    + intros x Hx%elem_of_seqZ. lia.
  - exists 0, 0. split; [done|]. by intros x ?%elem_of_nil.
Qed.

Lemma generate_spec fuel vm_ip n_vm g :
  generate fuel vm_ip n_vm = Return g →
  gen_ok g ∧ (ip_mac g).*1 = map str_ip (slice_to vm_ip n_vm).
Proof.
  unfold Net.generate. destruct vm_ip as [|ip0 vm_ip]; [done|].
  cbn [first_item mbind outcome_bind]. intros H.
  apply ip_mac_loop_spec in H as (Hok & Hip & _); [|apply gen_ok_init].
  done.
Qed.

End Allocator.

(** The block 10.0.0.0/22 with VLAN 5 and one site: no address has a third
    octet above 66, the pool is empty and line 418 raises. *)
Example allocate_empty_pool :
  allocate ["sophia"] 5 Sample.rnd_count 1 (Network (ip4 10 0 0 0) 22) 5
  = Raise IndexError.
Proof. vm_compute. reflexivity. Qed.

(** C4.  The pairs of one run have pairwise distinct addresses and pairwise
    distinct MACs.  The MACs are the texts of distinct byte lists, each made
    of 00:20:4e and three consecutive draws between 0 and 255 of the random
    source. *)
Theorem allocator_no_duplicates (sites : list string) (kavlan_id : Z)
    (rnd : nat → Z) (fuel : nat) (ips : IPNetwork) (n_vm : Z)
    (pairs : list (string * string)) :
  0 ≤ prefixlen ips →
  allocate sites kavlan_id rnd fuel ips n_vm = Return pairs →
  NoDup pairs.*1 ∧ NoDup pairs.*2
  ∧ ∃ issued : list (list Z),
      NoDup issued ∧ pairs.*2 = map mac_str issued
      ∧ Forall (λ mac, ∃ p a b c,
                  a = randint 0 255 (rnd p) ∧ b = randint 0 255 (rnd (S p))
                  ∧ c = randint 0 255 (rnd (S (S p)))
                  ∧ 0 ≤ a ≤ 255 ∧ 0 ≤ b ≤ 255 ∧ 0 ≤ c ≤ 255
                  ∧ mac = [0; 32; 78; a; b; c]) issued.
Proof.
  intros Hp. unfold allocate.
  destruct (generate _ _ _ _) as [g| |] eqn:Hg; [|done..].
  cbn [mbind outcome_bind]. intros [= <-].
  apply generate_spec in Hg as ((Hnd & Hdr & Hstr) & Hip).
  split_and!.
  - rewrite Hip. destruct (slice_to_take (vm_ip_of sites kavlan_id (iter_hosts ips)) n_vm)
      as [k ->].
    destruct (iter_hosts_range ips Hp) as (Hnd' & a & n & Hn & Hrange).
    assert (Hsub : take k (vm_ip_of sites kavlan_id (iter_hosts ips))
                   `sublist_of` iter_hosts ips).
    { etrans; [apply sublist_take|]. rewrite vm_ip_of_filter. apply sublist_filter. }
    apply NoDup_fmap_2_strong; [|by eapply sublist_NoDup].
    intros x y Hx Hy. apply (str_ip_inj_range a n); [done|..].
    + by apply Hrange, (sublist_subseteq _ _ Hsub).
    + by apply Hrange, (sublist_subseteq _ _ Hsub).
  - rewrite Hstr. apply NoDup_fmap_2_strong; [|done].
    intros x y Hx Hy. rewrite Forall_forall in Hdr.
    apply (mac_str_inj rnd); by apply Hdr.
  - exists (macs g). split_and!; [done..|].
    eapply Forall_impl; [exact Hdr|]. intros mac [p ->].
    exists p, (randint 0 255 (rnd p)), (randint 0 255 (rnd (S p))),
           (randint 0 255 (rnd (S (S p)))).
    split_and!; try done; apply randint_byte.
Qed.

Lemma allocator_no_duplicates_witness :
  NoDup [("10.27.255.249", "00:20:4e:00:00:00");
         ("10.27.255.250", "00:20:4e:01:01:01")].*1
  ∧ NoDup [("10.27.255.249", "00:20:4e:00:00:00");
           ("10.27.255.250", "00:20:4e:01:01:01")].*2
  ∧ ∃ issued : list (list Z),
      NoDup issued
      ∧ [("10.27.255.249", "00:20:4e:00:00:00");
         ("10.27.255.250", "00:20:4e:01:01:01")].*2 = map mac_str issued
      ∧ Forall (λ mac, ∃ p a b c,
                  a = randint 0 255 (Sample.rnd_slow p)
                  ∧ b = randint 0 255 (Sample.rnd_slow (S p))
                  ∧ c = randint 0 255 (Sample.rnd_slow (S (S p)))
                  ∧ 0 ≤ a ≤ 255 ∧ 0 ≤ b ≤ 255 ∧ 0 ≤ c ≤ 255
                  ∧ mac = [0; 32; 78; a; b; c]) issued.
Proof.
  apply (allocator_no_duplicates ["sophia"; "rennes"] 5 Sample.rnd_slow 1
           Sample.net6 2).
  - vm_compute. discriminate.
  - vm_compute. reflexivity.
Defined.

(** The length of what the allocator returns.  For a count [n_vm >= 0]:
    on an empty pool line 418 raises [IndexError]; a run that returns
    gives as many pairs as the slice [vm_ip[0:n_vm]] has addresses, that
    is the smaller of [n_vm] and the size of the pool, for the first
    addresses of the pool in order; and the run returns when the pool is
    not empty and the random source gives a new MAC within [fuel] further
    draws. *)
Lemma allocator_length (sites : list string) (kavlan_id : Z)
    (rnd : nat → Z) (fuel : nat) (ips : IPNetwork) (n_vm : Z) :
  0 ≤ n_vm →
  (vm_ip_of sites kavlan_id (iter_hosts ips) = [] →
     allocate sites kavlan_id rnd fuel ips n_vm = Raise IndexError)
  ∧ (∀ pairs, allocate sites kavlan_id rnd fuel ips n_vm = Return pairs →
       length pairs
       = Nat.min (Z.to_nat n_vm) (length (vm_ip_of sites kavlan_id (iter_hosts ips)))
       ∧ pairs.*1
         = map str_ip (take (Z.to_nat n_vm) (vm_ip_of sites kavlan_id (iter_hosts ips)))
       ∧ ((Z.to_nat n_vm ≤ length (vm_ip_of sites kavlan_id (iter_hosts ips)))%nat →
          length pairs = Z.to_nat n_vm))
  ∧ (vm_ip_of sites kavlan_id (iter_hosts ips) ≠ [] →
     fresh_within rnd fuel (Z.to_nat n_vm) →
     ∃ pairs, allocate sites kavlan_id rnd fuel ips n_vm = Return pairs).
Proof.
  intros Hn. unfold allocate.
  set (pool := vm_ip_of sites kavlan_id (iter_hosts ips)).
  split_and!.
  - intros ->. done.
  - intros pairs.
    destruct (generate _ _ _ _) as [g| |] eqn:Hg; [|done..].
    cbn [mbind outcome_bind]. intros [= <-].
    apply generate_spec in Hg as (_ & Hip).
    rewrite slice_to_nonneg in Hip by done.
    assert (Hlen : length (ip_mac g)
                   = Nat.min (Z.to_nat n_vm) (length pool)).
    { rewrite <- (length_fmap fst), Hip, length_map, length_take. done. }
    split_and!; [done|done|lia].
  - intros Hne Hfresh. unfold generate.
    destruct pool as [|ip0 pool'] eqn:Hpool; [done|].
    cbn [first_item mbind outcome_bind]. rewrite slice_to_nonneg by done.
    destruct (ip_mac_loop_returns rnd fuel (Z.to_nat n_vm)
                (take (Z.to_nat n_vm) (ip0 :: pool')) (Gen [] [] 0%nat))
      as [g Hg]; [done|apply gen_ok_init| |].
    + cbn [macs length]. rewrite length_take. lia.
    + rewrite Hg. cbn [mbind outcome_bind]. by eexists.
Qed.

Lemma rnd_count_fresh : fresh_within Sample.rnd_count 1 2.
Proof.
  intros issued p Hlen.
  destruct (decide ((draw_mac Sample.rnd_count (p + 3 * 0)).1 ∈ issued)) as [Hin|Hin].
  2:{ exists 0%nat. split; [lia|done]. }
  exists 1%nat. split; [lia|].
  destruct issued as [|m [|m' issued]]; [by apply elem_of_nil in Hin| |simpl in Hlen; lia].
  apply list_elem_of_singleton in Hin. intros Hin'%list_elem_of_singleton.
  rewrite <- Hin' in Hin. unfold draw_mac, Sample.rnd_count, randint in Hin.
  cbn [fst] in Hin. injection Hin as Hin _ _.
  change (255 - 0 + 1) with 256 in Hin. rewrite !Z.add_0_l in Hin.
  rewrite !Nat2Z.inj_add in Hin. change (Z.of_nat (3 * 0)) with 0 in Hin.
  change (Z.of_nat (3 * 1)) with 3 in Hin.
  revert Hin. generalize (Z.of_nat p). intros z Hin.
  Z.div_mod_to_equations. lia.
Defined.

(** C3.  Too few addresses: no failure, and machines without addresses.
    When the filtered pool has fewer addresses than the [n_vm] machines
    asked for, the allocator does not fail for want of addresses.  On an
    empty pool the unused [min_ip = vm_ip[0]] of line 418 raises
    [IndexError].  On a pool that is not empty the slice of line 421 cuts
    the request: the run returns, for a random source that gives a new MAC
    within [fuel] further draws, one pair per address of the pool, fewer
    than [n_vm]; and lines 445-476, which read neither the pool nor the
    pairs, still define [n_vm] machines when [n_vm] is at most 10000 and
    the hosts can hold them, more machines than there are pairs. *)
Theorem allocator_truncates_silently (sites : list string) (kavlan_id : Z)
    (rnd : nat → Z) (fuel : nat) (ips : IPNetwork)
    (n_vm hosts_max_vms n_hosts : Z) :
  0 ≤ n_vm ≤ Machines.max_vms →
  n_vm ≤ hosts_max_vms - n_hosts →
  Z.of_nat (length (vm_ip_of sites kavlan_id (iter_hosts ips))) < n_vm →
  (vm_ip_of sites kavlan_id (iter_hosts ips) = [] →
     allocate sites kavlan_id rnd fuel ips n_vm = Raise IndexError)
  ∧ (vm_ip_of sites kavlan_id (iter_hosts ips) ≠ [] →
     fresh_within rnd fuel (length (vm_ip_of sites kavlan_id (iter_hosts ips))) →
     ∃ pairs,
       allocate sites kavlan_id rnd fuel ips n_vm = Return pairs
       ∧ pairs.*1 = map str_ip (vm_ip_of sites kavlan_id (iter_hosts ips))
       ∧ Z.of_nat (length pairs) < n_vm
       ∧ Machines.defined_vms false n_vm hosts_max_vms n_hosts = n_vm
       ∧ Z.of_nat (length pairs)
         < Machines.defined_vms false n_vm hosts_max_vms n_hosts).
Proof.
  intros [Hn Hmax] Hcap Hshort. unfold allocate.
  set (pool := vm_ip_of sites kavlan_id (iter_hosts ips)) in *.
  assert (Hdef : Machines.defined_vms false n_vm hosts_max_vms n_hosts = n_vm).
  { unfold Machines.defined_vms, Machines.cap_to_hosts, Machines.cap_to_kavlan.
    destruct (Z.gtb_spec n_vm Machines.max_vms); lia. }
  split.
  - intros ->. done.
  - intros Hne Hfresh. unfold generate.
    destruct pool as [|ip0 pool'] eqn:Hpool; [done|].
    cbn [first_item mbind outcome_bind]. rewrite slice_to_nonneg by done.
    rewrite take_ge by lia.
    destruct (ip_mac_loop_returns rnd fuel (length (ip0 :: pool'))
                (ip0 :: pool') (Gen [] [] 0%nat))
      as [g Hg]; [done|apply gen_ok_init|cbn [macs length]; lia|].
    rewrite Hg. cbn [mbind outcome_bind]. exists (ip_mac g).
    apply ip_mac_loop_spec in Hg as (_ & Hip & _); [|apply gen_ok_init].
    change ((ip_mac g).*1 = map str_ip (ip0 :: pool')) in Hip.
    assert (Hlen : length (ip_mac g) = length (ip0 :: pool')).
    { rewrite <- (length_fmap fst), Hip. apply length_map. }
    split_and!; [done|done|lia|done|lia].
Qed.

(** Three machines on a block of two host addresses: the run returns two
    pairs and raises nothing, and three machines are defined. *)
Lemma allocator_truncates_silently_witness :
  allocate ["sophia"; "rennes"] 5 Sample.rnd_count 1 Sample.net2 3
  = Return [("10.27.255.253", "00:20:4e:00:01:02");
            ("10.27.255.254", "00:20:4e:03:04:05")]
  ∧ ∃ pairs,
      allocate ["sophia"; "rennes"] 5 Sample.rnd_count 1 Sample.net2 3 = Return pairs
      ∧ pairs.*1
        = map str_ip (vm_ip_of ["sophia"; "rennes"] 5 (iter_hosts Sample.net2))
      ∧ Z.of_nat (length pairs) < 3
      ∧ Machines.defined_vms false 3 6 2 = 3
      ∧ Z.of_nat (length pairs) < Machines.defined_vms false 3 6 2.
Proof.
  split; [vm_compute; reflexivity|].
  apply (allocator_truncates_silently ["sophia"; "rennes"] 5 Sample.rnd_count 1
           Sample.net2 3 6 2).
  - vm_compute. split; discriminate.
  - lia.
  - vm_compute. reflexivity.
  - vm_compute. discriminate.
  - assert (length (vm_ip_of ["sophia"; "rennes"] 5 (iter_hosts Sample.net2)) = 2%nat)
      as -> by (vm_compute; reflexivity).
    exact rnd_count_fresh.
Defined.

End NetFacts.

(** ** dnsmasq configuration *)

Module DhcpFacts.
Import Net Dhcp NetFacts.

Lemma foldl_min_spec (l : list Z) (x : Z) :
  foldl Z.min x l ∈ x :: l ∧ ∀ y, y ∈ x :: l → foldl Z.min x l ≤ y.
Proof.
  revert x. induction l as [|z l IH]; intros x; simpl.
  - split; [left|]. intros y ->%list_elem_of_singleton. lia.
  - destruct (IH (Z.min x z)) as [Hin Hle]. split.
    + apply elem_of_cons in Hin as [Hin|Hin].
      * rewrite Hin. destruct (Z.min_spec x z) as [[_ ->]|[_ ->]]; [left|right; left].
      * by do 2 right.
    + assert (H0 : foldl Z.min (Z.min x z) l ≤ Z.min x z) by (apply Hle; left).
      intros y [->|[->|Hy]%elem_of_cons]%elem_of_cons; [lia|lia|].
      apply Hle. by right.
Qed.

Lemma foldl_max_spec (l : list Z) (x : Z) :
  foldl Z.max x l ∈ x :: l ∧ ∀ y, y ∈ x :: l → y ≤ foldl Z.max x l.
Proof.
  revert x. induction l as [|z l IH]; intros x; simpl.
  - split; [left|]. intros y ->%list_elem_of_singleton. lia.
  - destruct (IH (Z.max x z)) as [Hin Hle]. split.
    + apply elem_of_cons in Hin as [Hin|Hin].
      * rewrite Hin. destruct (Z.max_spec x z) as [[_ ->]|[_ ->]]; [right; left|left].
      * by do 2 right.
    + assert (H0 : Z.max x z ≤ foldl Z.max (Z.max x z) l) by (apply Hle; left).
      intros y [->|[->|Hy]%elem_of_cons]%elem_of_cons; [lia|lia|].
      apply Hle. by right.
Qed.

Lemma py_min_spec (l : list Z) :
  l ≠ [] → ∃ lo, py_min l = Return lo ∧ lo ∈ l ∧ ∀ y, y ∈ l → lo ≤ y.
Proof.
  destruct l as [|x l]; [done|]. intros _. eexists. split; [done|].
  apply foldl_min_spec.
Qed.

Lemma py_max_spec (l : list Z) :
  l ≠ [] → ∃ hi, py_max l = Return hi ∧ hi ∈ l ∧ ∀ y, y ∈ l → y ≤ hi.
Proof.
  destruct l as [|x l]; [done|]. intros _. eexists. split; [done|].
  apply foldl_max_spec.
Qed.

Lemma append_assoc (a b c : string) : (a +:+ b) +:+ c = a +:+ (b +:+ c).
Proof.
  induction a as [|x a IH]; [done|].
  change (String x ((a +:+ b) +:+ c) = String x (a +:+ (b +:+ c))).
  by rewrite IH.
Qed.

Lemma append_empty_r (a : string) : a +:+ "" = a.
Proof.
  induction a as [|x a IH]; [done|].
  change (String x (a +:+ "") = String x a). by rewrite IH.
Qed.

Lemma dhcp_hosts_fold (acc : string) (ip_mac : list (string * string)) :
  foldl (λ acc im, acc +:+ host_entry im) acc ip_mac
  = acc +:+ host_entries ip_mac.
Proof.
  revert acc. induction ip_mac as [|im l IH]; intros acc; simpl.
  - by rewrite append_empty_r.
  - rewrite IH. apply append_assoc.
Qed.

(** Lines 500-502: the entries of the pairs one after the other. *)
Lemma dhcp_hosts_entries (ip_mac : list (string * string)) :
  dhcp_hosts ip_mac = host_entries ip_mac.
Proof. unfold dhcp_hosts. by rewrite dhcp_hosts_fold. Qed.

(** C8, as the code has it.  After a run of the allocator the hosts text
    has one entry per issued pair, binding the MAC of the pair to its
    address; the range goes from the least to the greatest address of the
    whole filtered pool [vm_ip], followed by the netmask and a lease of 12h;
    the router is the greatest address of the pool.  Every issued address
    lies within these bounds. *)
Theorem dhcp_config_covers_pool (sites : list string) (kavlan_id : Z)
    (rnd : nat → Z) (fuel : nat) (ips : IPNetwork) (n_vm : Z)
    (pairs : list (string * string)) :
  allocate sites kavlan_id rnd fuel ips n_vm = Return pairs →
  ∃ lo hi issued,
    lo ∈ vm_ip_of sites kavlan_id (iter_hosts ips)
    ∧ hi ∈ vm_ip_of sites kavlan_id (iter_hosts ips)
    ∧ (∀ ip, ip ∈ vm_ip_of sites kavlan_id (iter_hosts ips) → lo ≤ ip ≤ hi)
    ∧ issued = slice_to (vm_ip_of sites kavlan_id (iter_hosts ips)) n_vm
    ∧ pairs.*1 = map str_ip issued
    ∧ (∀ ip, ip ∈ issued → lo ≤ ip ≤ hi)
    ∧ dhcp_config ips (vm_ip_of sites kavlan_id (iter_hosts ips)) pairs
      = Return (Config
          (host_entries pairs)
          ("dhcp-range=" +:+ (str_ip lo +:+ "," +:+ str_ip hi +:+ ","
                              +:+ str_ip (netmask ips)) +:+ ",12h" +:+ nl)
          ("dhcp-option=option:router," +:+ str_ip hi +:+ nl))
    ∧ (∀ ip mac, host_entry (ip, mac) = "dhcp-host=:" +:+ mac +:+ "," +:+ ip +:+ nl).
Proof.
  unfold allocate. set (pool := vm_ip_of sites kavlan_id (iter_hosts ips)).
  destruct (generate _ _ _ _) as [g| |] eqn:Hg; [|done..].
  cbn [mbind outcome_bind]. intros [= <-].
  assert (Hne : pool ≠ []).
  { intros Hnil. rewrite Hnil in Hg. done. }
  apply generate_spec in Hg as (_ & Hip).
  destruct (py_min_spec pool Hne) as (lo & Hlo & Hlo_in & Hlo_le).
  destruct (py_max_spec pool Hne) as (hi & Hhi & Hhi_in & Hhi_le).
  exists lo, hi, (slice_to pool n_vm).
  assert (Hsub : ∀ ip, ip ∈ slice_to pool n_vm → ip ∈ pool).
  { destruct (slice_to_take pool n_vm) as [k ->].
    intros ip. apply (sublist_subseteq _ _ (sublist_take _ _)). }
  split_and!; try done.
  - intros ip Hin. split; [by apply Hlo_le|by apply Hhi_le].
  - intros ip Hin%Hsub. split; [by apply Hlo_le|by apply Hhi_le].
  - unfold dhcp_config. rewrite Hlo, Hhi. cbn [mbind outcome_bind].
    by rewrite dhcp_hosts_entries.
Qed.

Lemma dhcp_config_covers_pool_witness :
  ∃ lo hi issued,
    lo ∈ vm_ip_of ["sophia"; "rennes"] 5 (iter_hosts Sample.net6)
    ∧ hi ∈ vm_ip_of ["sophia"; "rennes"] 5 (iter_hosts Sample.net6)
    ∧ (∀ ip, ip ∈ vm_ip_of ["sophia"; "rennes"] 5 (iter_hosts Sample.net6) →
             lo ≤ ip ≤ hi)
    ∧ issued = slice_to (vm_ip_of ["sophia"; "rennes"] 5 (iter_hosts Sample.net6)) 2
    ∧ [("10.27.255.249", "00:20:4e:00:01:02");
       ("10.27.255.250", "00:20:4e:03:04:05")].*1 = map str_ip issued
    ∧ (∀ ip, ip ∈ issued → lo ≤ ip ≤ hi)
    ∧ dhcp_config Sample.net6
        (vm_ip_of ["sophia"; "rennes"] 5 (iter_hosts Sample.net6))
        [("10.27.255.249", "00:20:4e:00:01:02");
         ("10.27.255.250", "00:20:4e:03:04:05")]
      = Return (Config
          (host_entries [("10.27.255.249", "00:20:4e:00:01:02");
                         ("10.27.255.250", "00:20:4e:03:04:05")])
          ("dhcp-range=" +:+ (str_ip lo +:+ "," +:+ str_ip hi +:+ ","
                              +:+ str_ip (netmask Sample.net6)) +:+ ",12h" +:+ nl)
          ("dhcp-option=option:router," +:+ str_ip hi +:+ nl))
    ∧ (∀ ip mac, host_entry (ip, mac) = "dhcp-host=:" +:+ mac +:+ "," +:+ ip +:+ nl).
Proof.
  apply (dhcp_config_covers_pool ["sophia"; "rennes"] 5 Sample.rnd_count 1
           Sample.net6 2).
  vm_compute. reflexivity.
Defined.

(** Two addresses are issued out of a pool of six: the greatest issued
    address is 10.27.255.250, but the range ends at 10.27.255.254 and the
    router is 10.27.255.254, the greatest address of the pool. *)
Lemma dhcp_bounds_counterexample :
  allocate ["sophia"; "rennes"] 5 Sample.rnd_count 1 Sample.net6 2
  = Return [("10.27.255.249", "00:20:4e:00:01:02");
            ("10.27.255.250", "00:20:4e:03:04:05")]
  ∧ py_max (slice_to (vm_ip_of ["sophia"; "rennes"] 5 (iter_hosts Sample.net6)) 2)
    = Return (ip4 10 27 255 250)
  ∧ dhcp_config Sample.net6
      (vm_ip_of ["sophia"; "rennes"] 5 (iter_hosts Sample.net6))
      [("10.27.255.249", "00:20:4e:00:01:02");
       ("10.27.255.250", "00:20:4e:03:04:05")]
    = Return (Config
        ("dhcp-host=:00:20:4e:00:01:02,10.27.255.249" +:+ nl
         +:+ "dhcp-host=:00:20:4e:03:04:05,10.27.255.250" +:+ nl)
        ("dhcp-range=10.27.255.249,10.27.255.254,255.255.255.248,12h" +:+ nl)
        ("dhcp-option=option:router,10.27.255.254" +:+ nl))
  ∧ str_ip (ip4 10 27 255 250) ≠ "10.27.255.254".
Proof. vm_compute. split_and!; [done..|discriminate]. Qed.

End DhcpFacts.

(** ** Topology against reservation *)

Module TopologyFacts.
Import Topology.

Lemma prefix_before_sep (c : ascii) (s : string) :
  String.prefix (before_sep c s) s = true.
Proof.
  induction s as [|a s IH]; simpl; [done|].
  destruct (decide (a = c)); simpl; [done|].
  destruct (Ascii.ascii_dec a a); [done|congruence].
Qed.

Lemma contains_prefix (sub s : string) :
  String.prefix sub s = true → contains sub s = true.
Proof. intros H. destruct s; cbn [contains]; by rewrite H. Qed.

(** A host of the wanted cluster always passes the test of line 442. *)
Lemma contains_same_cluster (id h : string) :
  cluster_of h = cluster_of id → contains (cluster_of id) h = true.
Proof.
  intros <-. apply contains_prefix, prefix_before_sep.
Qed.

(** Lines 441-444 when the identifier is among the remaining hosts. *)
Lemma match_host_present (tmp_hosts : list string) (id : string) :
  id ∈ tmp_hosts → match_host tmp_hosts id = Return (id, tmp_hosts).
Proof.
  intros Hin. unfold match_host. by rewrite bool_decide_false by tauto.
Qed.

(** Lines 441-444 when it is not: the first remaining host that contains
    the cluster name is taken and leaves the list. *)
Lemma match_host_absent (tmp_hosts : list string) (id : string) :
  id ∉ tmp_hosts →
  match_host tmp_hosts id =
  match List.filter (contains (cluster_of id)) tmp_hosts with
  | [] => Raise IndexError
  | h :: _ => tmp_hosts' ← py_remove h tmp_hosts; Return (h, tmp_hosts')
  end.
Proof.
  intros Hin. unfold match_host. rewrite bool_decide_true by done.
  by destruct (List.filter _ _).
Qed.

(** When no other reserved host contains the cluster name, line 442 selects
    the hosts of the cluster of the logical host. *)
Lemma match_host_same_cluster (tmp_hosts : list string) (id : string) :
  id ∉ tmp_hosts →
  (∀ h, h ∈ tmp_hosts → contains (cluster_of id) h = true →
        cluster_of h = cluster_of id) →
  match_host tmp_hosts id =
  match List.filter (λ h, bool_decide (cluster_of h = cluster_of id)) tmp_hosts with
  | [] => Raise IndexError
  | h :: _ => tmp_hosts' ← py_remove h tmp_hosts; Return (h, tmp_hosts')
  end.
Proof.
  intros Hid Hsame. rewrite match_host_absent by done.
  assert (Heq : List.filter (contains (cluster_of id)) tmp_hosts
                = List.filter (λ h, bool_decide (cluster_of h = cluster_of id))
                              tmp_hosts).
  { apply filter_ext_in. intros h Hh%list_elem_of_In.
    destruct (contains (cluster_of id) h) eqn:Hc.
    - symmetry. apply bool_decide_eq_true. by apply Hsame.
    - symmetry. apply bool_decide_eq_false. intros Heq.
      apply contains_same_cluster in Heq. congruence. }
  by rewrite Heq.
Qed.

Lemma match_host_subset (tmp_hosts tmp_hosts' : list string) (id id' : string) :
  match_host tmp_hosts id = Return (id', tmp_hosts') →
  id' ∈ tmp_hosts ∧ tmp_hosts' ⊆ tmp_hosts.
Proof.
  unfold match_host. case_bool_decide as Hin.
  - destruct (List.filter _ _) as [|h tmp] eqn:Hf; [done|].
    cbn [first_item mbind outcome_bind].
    assert (Hh : h ∈ tmp_hosts).
    { apply list_elem_of_In. eapply (proj1 (filter_In _ _ _)).
      rewrite Hf. by left. }
    destruct (py_remove_elem_of h tmp_hosts Hh) as (l' & -> & Hsub & _).
    cbn [mbind outcome_bind]. intros [= <- <-]. done.
  - intros [= <- <-]. split; [|done].
    by destruct (decide (id ∈ tmp_hosts)).
Qed.

Lemma match_hosts_present (tmp_hosts : list string) (ids : list string) :
  (∀ id, id ∈ ids → id ∈ tmp_hosts) →
  match_hosts tmp_hosts ids = Return (ids, tmp_hosts).
Proof.
  induction ids as [|id ids IH]; intros Hall; [done|].
  cbn [match_hosts]. rewrite match_host_present by (apply Hall; left).
  cbn [mbind outcome_bind]. rewrite IH; [done|].
  intros ??. apply Hall. by right.
Qed.

Lemma match_hosts_subset (ids : list string) :
  ∀ tmp_hosts ids' tmp_hosts',
  match_hosts tmp_hosts ids = Return (ids', tmp_hosts') →
  (∀ id, id ∈ ids' → id ∈ tmp_hosts) ∧ tmp_hosts' ⊆ tmp_hosts.
Proof.
  induction ids as [|id ids IH]; intros tmp_hosts ids' tmp_hosts'.
  - intros [= <- <-]. split; [by intros ? ?%elem_of_nil|done].
  - cbn [match_hosts].
    destruct (match_host tmp_hosts id) as [[id1 tmp1]| |] eqn:H1; [|done..].
    cbn [mbind outcome_bind].
    destruct (match_hosts tmp1 ids) as [[rest tmp2]| |] eqn:H2; [|done..].
    cbn [mbind outcome_bind]. intros [= <- <-].
    apply match_host_subset in H1 as [Hid Hsub1].
    apply IH in H2 as [Hrest Hsub2]. split.
    + intros x [->|Hx]%elem_of_cons; [done|]. by apply Hsub1, Hrest.
    + by etrans.
Qed.

(** C9.  On a topology whose host identifiers are all names of reserved
    hosts the matcher returns the identifiers as they are; and after a run
    that succeeded, a second run on its result changes nothing. *)
Theorem matcher_idempotent (hosts : list string) (ids : list string) :
  ((∀ id, id ∈ ids → id ∈ map short_name hosts) →
     match_topology hosts ids = Return ids)
  ∧ (∀ ids', match_topology hosts ids = Return ids' →
     match_topology hosts ids' = Return ids').
Proof.
  assert (Hfix : ∀ l, (∀ id, id ∈ l → id ∈ map short_name hosts) →
                      match_topology hosts l = Return l).
  { intros l Hl. unfold match_topology. by rewrite match_hosts_present. }
  split; [apply Hfix|].
  intros ids'. unfold match_topology at 1.
  destruct (match_hosts _ ids) as [[ids1 tmp1]| |] eqn:H1; [|done..].
  cbn [mbind outcome_bind]. intros [= <-].
  apply Hfix. by apply match_hosts_subset in H1 as [? _].
Qed.

Lemma matcher_idempotent_witness :
  match_topology ["sol-1.sophia.grid5000.fr"; "sol-2.sophia.grid5000.fr"]
                 ["sol-2"; "sol-1"] = Return ["sol-2"; "sol-1"]
  ∧ match_topology ["sol-1.sophia.grid5000.fr"; "sol-2.sophia.grid5000.fr"]
                 ["sol-1"; "sol-2"] = Return ["sol-1"; "sol-2"].
Proof.
  split.
  - apply (proj1 (matcher_idempotent
                    ["sol-1.sophia.grid5000.fr"; "sol-2.sophia.grid5000.fr"]
                    ["sol-2"; "sol-1"])).
    intros id Hid. apply list_elem_of_In in Hid. apply list_elem_of_In.
    simpl in Hid. destruct Hid as [<-|[<-|[]]]; vm_compute; tauto.
  - apply (proj2 (matcher_idempotent
                    ["sol-1.sophia.grid5000.fr"; "sol-2.sophia.grid5000.fr"]
                    ["sol-9"; "sol-7"])).
    vm_compute. reflexivity.
Defined.

(** The scenario of two logical hosts of one cluster: the first takes the
    first reserved host, the second the next one. *)
Example match_two_of_one_cluster :
  match_topology ["clusterA-1.site.grid5000.fr"; "clusterA-2.site.grid5000.fr"]
                 ["clusterA-99"; "clusterA-98"]
  = Return ["clusterA-1"; "clusterA-2"].
Proof. vm_compute. reflexivity. Qed.

(** No reserved host contains the cluster name: [tmp[0]] raises. *)
Example match_no_candidate :
  match_topology ["clusterA-1.site.grid5000.fr"] ["clusterB-1"]
  = Raise IndexError.
Proof. vm_compute. reflexivity. Qed.

(** C7.  Line 442 tests whether the cluster name occurs anywhere in the
    host name.  With the reserved hosts [parasol-1] and [sol-2], the logical
    host [sol-9] becomes [parasol-1], which is of another cluster, although
    [sol-2] of the wanted cluster is free; and with [parasol-1] alone the
    run does not fail. *)
Theorem matcher_takes_substring_match :
  match_topology ["parasol-1.rennes.grid5000.fr"; "sol-2.sophia.grid5000.fr"]
                 ["sol-9"] = Return ["parasol-1"]
  ∧ cluster_of "parasol-1" ≠ cluster_of "sol-9"
  ∧ cluster_of "sol-2" = cluster_of "sol-9"
  ∧ match_topology ["parasol-1.rennes.grid5000.fr"] ["sol-9"]
    = Return ["parasol-1"].
Proof. vm_compute. split_and!; [done|discriminate|done|done]. Qed.

End TopologyFacts.

(** ** Further general facts *)

Lemma elem_of_concat {A} (x : A) (ls : list (list A)) :
  x ∈ concat ls ↔ ∃ l, x ∈ l ∧ l ∈ ls.
Proof.
  induction ls as [|l ls IH]; cbn [concat].
  - split; [by intros ?%elem_of_nil|]. by intros (l & _ & ?%elem_of_nil).
  - rewrite elem_of_app, IH. split.
    + intros [Hx|(l' & Hx & Hl)].
      * exists l. split; [done|]. apply elem_of_cons. by left.
      * exists l'. split; [done|]. apply elem_of_cons. by right.
    + intros (l' & Hx & [->|Hl]%elem_of_cons); [by left|].
      right. by exists l'.
Qed.

Module AccountingFacts.
Import Distributor Accounting DistributorFacts.

Lemma map_sum_insert (f : string → Z → Z) (cn : gmap string Z) c n n' :
  cn !! c = Some n →
  map_sum f (<[c := n']> cn) = map_sum f cn - f c n + f c n'.
Proof.
  intros Hc. unfold map_sum.
  rewrite <- (insert_delete_id cn c n Hc) at 2.
  rewrite <- (insert_delete_eq cn c n').
  rewrite !(Zsum_perm _ _ (fmap_Permutation _ _ _
             (map_to_list_insert (delete c cn) c _ (lookup_delete_eq cn c)))).
  unfold Zsum. simpl. lia.
Qed.

Lemma total_hosts_map_sum (cn : gmap string Z) :
  total_hosts cn = map_sum (λ _ n, n) cn.
Proof. unfold total_hosts, map_sum. f_equal. Qed.

Lemma free_hosts_insert (avail cn : gmap string Z) c n n' :
  cn !! c = Some n → free_hosts avail (<[c := n']> cn) = free_hosts avail cn.
Proof.
  intros Hc. unfold free_hosts. rewrite (map_sum_insert _ _ _ _ _ Hc).
  cbv beta. lia.
Qed.

(** Counts within the slot that sum to less than the free hosts leave a
    cluster with room. *)
Lemma room_of_sum_list (avail : gmap string Z) (l : list (string * Z)) :
  (∀ c n, (c, n) ∈ l → ∃ a, avail !! c = Some a ∧ n ≤ a) →
  Zsum (map (λ kv : string * Z, kv.2) l)
  < Zsum (map (λ kv : string * Z, default 0 (avail !! kv.1)) l) →
  ∃ c n a, (c, n) ∈ l ∧ avail !! c = Some a ∧ n < a.
Proof.
  induction l as [|[c n] l IH]; intros Hb Hlt.
  - unfold Zsum in Hlt. simpl in Hlt. lia.
  - destruct (Hb c n) as (a & Ha & Hle); [left|].
    destruct (decide (n < a)) as [Hn|Hn].
    + exists c, n, a. split; [left|done].
    + destruct IH as (c' & n' & a' & Hin & Ha' & Hlt').
      * intros c' n' Hin. apply Hb. by right.
      * unfold Zsum in *. simpl in Hlt. rewrite Ha in Hlt. simpl in Hlt. lia.
      * exists c', n', a'. split; [by right|done].
Qed.

Lemma room_of_sum (avail cn : gmap string Z) :
  bounded avail cn → total_hosts cn < free_hosts avail cn →
  ∃ c, has_room avail cn c.
Proof.
  intros Hb Hlt.
  destruct (room_of_sum_list avail (map_to_list cn)) as (c & n & a & Hin & Ha & Hn).
  - intros c n Hin%elem_of_map_to_list. by apply Hb.
  - rewrite total_hosts_map_sum in Hlt. exact Hlt.
  - exists c, n, a. by apply elem_of_map_to_list in Hin.
Qed.

Lemma cycle_next_perm it c it' :
  cycle_next it = Return (c, it') → it' ≡ₚ it ∧ c ∈ it.
Proof.
  destruct it as [|k rest]; [done|]. intros [= <- <-]. split; [|left].
  by rewrite Permutation_app_comm.
Qed.

Section Termination.

Variable clusters : list string.
Variable clusters_attr : gmap string attr.
Variable avail : gmap string Z.
Variable vm_ram_size : Z.
Variable ks : list string.

Abbreviation skip_full := (skip_full avail).
Abbreviation place_vm := (place_vm clusters_attr avail vm_ram_size).
Abbreviation vm_loop := (vm_loop clusters_attr avail vm_ram_size).
Abbreviation has_room := (has_room avail).
Abbreviation bounded := (bounded avail).
Abbreviation full := (full avail).

(** The loop of lines 314-315 only turns the cycle. *)
Lemma skip_full_perm fuel cn it c c' it' :
  skip_full fuel cn it c = Return (c', it') → it' ≡ₚ it ∧ c' ∈ c :: it.
Proof.
  revert it c. induction fuel as [|fuel IH]; intros it c;
    cbn [Distributor.skip_full]; unfold getitem;
    destruct (cn !! c) as [n|]; try done; cbn [mbind outcome_bind];
    destruct (avail !! c) as [a|]; try done; cbn [mbind outcome_bind];
    destruct (a <=? n); try done.
  - intros [= <- <-]. split; [done|left].
  - destruct (cycle_next it) as [[c1 it1]| |] eqn:Hnext; [|done..].
    cbn [mbind outcome_bind]. intros [Hp Hin]%IH.
    apply cycle_next_perm in Hnext as [Hp1 Hin1]. split; [by etrans|].
    right. apply elem_of_cons in Hin as [->|Hin]; [done|]. by rewrite <- Hp1.
  - intros [= <- <-]. split; [done|left].
Qed.

Abbreviation loop_ok := (loop_ok avail ks).

Hypothesis Hattr : ∀ c, c ∈ ks → is_Some (clusters_attr !! c).

Lemma place_vm_returns fuel st :
  loop_ok st → (length ks ≤ fuel)%nat →
  total_hosts (cluster_nodes st) + 1 < free_hosts avail (cluster_nodes st) →
  ∃ st', place_vm fuel st = Return st' ∧ loop_ok st'
         ∧ total_hosts (cluster_nodes st') ≤ total_hosts (cluster_nodes st) + 1
         ∧ free_hosts avail (cluster_nodes st') = free_hosts avail (cluster_nodes st).
Proof.
  intros (Hiter & Hkeys & Hb & n & a & Hn & Ha & Hlt) Hfuel Hfree.
  assert (Hcl : cluster st ∈ ks) by (apply Hkeys; by eexists).
  destruct (Hattr _ Hcl) as [at_ Hat].
  unfold Distributor.place_vm, getitem. rewrite Hat. cbn [mbind outcome_bind].
  destruct (_ <? _).
  2:{ eexists. split; [reflexivity|]. unfold Accounting.loop_ok.
      cbn [cluster_nodes cluster iter_cluster].
      split_and!; [done|done|done|by exists n, a|lia|done]. }
  rewrite Hn, Ha. cbn [mbind outcome_bind].
  destruct (Z.ltb_spec a (n + 1)); [lia|].
  cbn [mbind outcome_bind]. rewrite Hn. cbn [mbind outcome_bind].
  set (cn' := <[cluster st := n + 1]> (cluster_nodes st)).
  assert (Hb' : bounded cn').
  { apply (bounded_insert _ _ _ _ a); [done|done|lia]. }
  assert (Htot : total_hosts cn' = total_hosts (cluster_nodes st) + 1).
  { rewrite (total_hosts_map_sum cn'), (total_hosts_map_sum (cluster_nodes st)).
    unfold cn'. rewrite (map_sum_insert _ _ _ _ _ Hn). cbv beta. lia. }
  assert (Hfree' : free_hosts avail cn' = free_hosts avail (cluster_nodes st)).
  { by apply free_hosts_insert with n. }
  assert (Hkeys' : ∀ c, is_Some (cn' !! c) ↔ c ∈ ks).
  { intros c. unfold cn'. rewrite <- Hkeys.
    destruct (decide (cluster st = c)) as [<-|Hne].
    - rewrite lookup_insert_eq, Hn. split; by eexists.
    - by rewrite lookup_insert_ne. }
  destruct (iter_cluster st) as [|c2 rest] eqn:Hit.
  { apply Permutation_nil_l in Hiter. rewrite <- Hiter in Hcl.
    by apply elem_of_nil in Hcl. }
  cbn [cycle_next mbind outcome_bind].
  destruct (room_of_sum avail cn' Hb') as (k & Hk); [lia|].
  assert (Hkin : k ∈ c2 :: (rest ++ [c2])).
  { right. rewrite Permutation_app_comm. simpl. rewrite Hiter.
    apply Hkeys'. destruct Hk as (nk & ak & Hnk & _). by eexists. }
  apply list_elem_of_split in Hkin as (pre & post & Hsplit).
  assert (Hlen : length (rest ++ [c2]) = length ks).
  { rewrite <- Hiter. rewrite length_app. simpl. lia. }
  destruct (skip_full_returns avail pre k post fuel cn' (rest ++ [c2]) c2)
    as (c3 & it3 & Hskip & Hc3); [done| |done| |].
  - intros x Hx.
    assert (Hxin : x ∈ ks).
    { assert (Hx' : x ∈ c2 :: (rest ++ [c2])).
      { rewrite Hsplit. apply elem_of_app. by left. }
      apply elem_of_cons in Hx' as [->|Hx'].
      - rewrite <- Hiter. left.
      - rewrite <- Hiter. by rewrite Permutation_app_comm in Hx'. }
    apply Hkeys' in Hxin as [nx Hnx]. destruct (Hb' _ _ Hnx) as (ax & Hax & Hle).
    destruct (decide (nx < ax)); [right|left]; exists nx, ax; split_and!; try done; lia.
  - assert (length (c2 :: (rest ++ [c2])) = length (pre ++ k :: post)) as Hl
      by (by rewrite Hsplit).
    rewrite length_app in Hl. simpl in Hl. lia.
  - rewrite Hskip. cbn [mbind outcome_bind]. eexists. split; [reflexivity|].
    unfold Accounting.loop_ok. cbn [cluster_nodes cluster iter_cluster]. fold cn'.
    apply skip_full_perm in Hskip as [Hp _].
    split_and!; [|done|done|done|lia|done].
    rewrite Hp, Permutation_app_comm. simpl. by rewrite <- Hiter.
Qed.

Lemma vm_loop_returns fuel n st :
  loop_ok st → (length ks ≤ fuel)%nat →
  total_hosts (cluster_nodes st) + Z.of_nat n < free_hosts avail (cluster_nodes st) →
  ∃ st', vm_loop fuel n st = Return st' ∧ loop_ok st'.
Proof.
  revert st. induction n as [|n IH]; intros st Hok Hfuel Hfree;
    cbn [Distributor.vm_loop].
  - by eexists.
  - destruct (place_vm_returns fuel st Hok Hfuel) as (st1 & H1 & Hok1 & Htot & Hfr);
      [lia|].
    rewrite H1. cbn [mbind outcome_bind]. apply IH; [done|done|lia].
Qed.

End Termination.

Lemma map_sum_zero (f : string → Z → Z) (cn : gmap string Z) :
  (∀ c n, cn !! c = Some n → f c n = 0) → map_sum f cn = 0.
Proof.
  intros Hz. unfold map_sum.
  assert (H : ∀ l : list (string * Z),
            (∀ c n, (c, n) ∈ l → f c n = 0) →
            Zsum (map (λ kv : string * Z, f kv.1 kv.2) l) = 0).
  { induction l as [|[c n] l IH]; intros Hl; [done|].
    unfold Zsum in *. simpl. rewrite (Hl c n) by left.
    rewrite IH; [done|]. intros c' n' Hin. apply Hl. by right. }
  apply H. intros c n Hin%elem_of_map_to_list. by apply Hz.
Qed.

Lemma total_hosts_init clusters avail :
  total_hosts (init_cluster_nodes clusters avail) = 0.
Proof.
  rewrite total_hosts_map_sum. apply map_sum_zero. intros c n.
  rewrite init_cluster_nodes_lookup. case_bool_decide; [|done]. by intros [= <-].
Qed.

Lemma allocated_ram_init clusters clusters_attr avail :
  allocated_ram clusters_attr (init_cluster_nodes clusters avail) = 0.
Proof.
  apply map_sum_zero. intros c n.
  rewrite init_cluster_nodes_lookup. case_bool_decide; [|done]. by intros [= <-].
Qed.

Lemma bounded_init clusters avail :
  (∀ c a, avail !! c = Some a → 0 ≤ a) →
  bounded avail (init_cluster_nodes clusters avail).
Proof.
  intros Havail c n. rewrite init_cluster_nodes_lookup.
  case_bool_decide as Hc; [|done]. intros [= <-].
  destruct Hc as [[a Ha] _]. exists a. split; [done|]. by eapply Havail.
Qed.

(** X1.  Fewer virtual machines than free hosts: the distribution returns.
    When the first cluster of the cycle has a free host, every cluster of
    the cycle has its attributes, and the slot has more free hosts on
    these clusters than there are virtual machines, lines 301-316 return
    an allocation, within the slot, as soon as the loop of lines 314-315
    may take one turn of the cycle. *)
Theorem distribute_hosts_returns (clusters : list string)
    (clusters_attr : gmap string attr) (avail : gmap string Z)
    (vm_ram_size : Z) (fuel : nat) (k : string) (ks : list string) (n_vm : Z) :
  iterkeys_of (init_cluster_nodes clusters avail) (k :: ks) →
  (∀ c, c ∈ k :: ks → is_Some (clusters_attr !! c)) →
  (∀ c a, avail !! c = Some a → 0 ≤ a) →
  has_room avail (init_cluster_nodes clusters avail) k →
  (length (k :: ks) ≤ fuel)%nat →
  0 ≤ n_vm < free_hosts avail (init_cluster_nodes clusters avail) →
  ∃ cn, distribute_hosts clusters clusters_attr avail vm_ram_size fuel (k :: ks) n_vm
        = Return cn
        ∧ bounded avail cn.
Proof.
  intros [Hnd Hkeys] Hattr Havail Hroom Hfuel Hn.
  unfold distribute_hosts. cbn [cycle_next mbind outcome_bind].
  destruct (vm_loop_returns clusters_attr avail vm_ram_size (k :: ks) Hattr fuel
              (Z.to_nat n_vm)
              (State (init_cluster_nodes clusters avail) (ks ++ [k]) k 0))
    as (st & Hloop & Hiter & Hkeys' & Hb & n & a & Hcn & Ha & Hlt); [|done|..].
  - unfold Accounting.loop_ok. cbn [cluster_nodes cluster iter_cluster]. split_and!.
    + by rewrite Permutation_app_comm.
    + intros c. by rewrite Hkeys.
    + by apply bounded_init.
    + done.
  - cbn [cluster_nodes]. rewrite total_hosts_init. lia.
  - rewrite Hloop. cbn [mbind outcome_bind]. unfold getitem. rewrite Hcn.
    cbn [mbind outcome_bind]. eexists. split; [reflexivity|].
    apply (bounded_insert _ _ _ _ a); [done|done|lia].
Qed.

Lemma abc_avail_nonneg : ∀ c a, Sample.avail_abc !! c = Some a → 0 ≤ a.
Proof.
  apply (bool_decide_unpack (map_Forall (λ _ a, 0 ≤ a) Sample.avail_abc)).
  vm_compute. exact I.
Defined.

Lemma abc_attrs : ∀ c, c ∈ ["A"; "B"; "C"] → is_Some (Sample.attr_abc !! c).
Proof.
  intros c Hc. apply list_elem_of_In in Hc. simpl in Hc.
  destruct Hc as [<-|[<-|[<-|[]]]]; eexists; vm_compute; reflexivity.
Defined.

Lemma abc_room :
  has_room Sample.avail_abc (init_cluster_nodes ["A"; "B"; "C"] Sample.avail_abc) "A".
Proof. exists 0, 2. split_and!; [vm_compute; reflexivity..|lia]. Defined.

Lemma distribute_hosts_returns_witness :
  ∃ cn, distribute_hosts ["A"; "B"; "C"] Sample.attr_abc Sample.avail_abc 1024
          3 ["A"; "B"; "C"] 4 = Return cn
        ∧ bounded Sample.avail_abc cn.
Proof.
  apply (distribute_hosts_returns ["A"; "B"; "C"] Sample.attr_abc Sample.avail_abc
           1024 3 "A" ["B"; "C"] 4).
  - apply iterkeys_check_ok. vm_compute. reflexivity.
  - exact abc_attrs.
  - exact abc_avail_nonneg.
  - exact abc_room.
  - simpl. lia.
  - split; [lia|]. vm_compute. reflexivity.
Defined.

(** The loop of line 306 adds no key to [cluster_nodes]. *)
Lemma place_vm_keys clusters_attr avail vm_ram_size fuel st st' c :
  place_vm clusters_attr avail vm_ram_size fuel st = Return st' →
  is_Some (cluster_nodes st' !! c) → is_Some (cluster_nodes st !! c).
Proof.
  unfold place_vm.
  destruct (getitem clusters_attr (cluster st)) as [at_| |]; [|done..].
  cbn [mbind outcome_bind]. destruct (_ <? _); [|by intros [= <-]].
  destruct (getitem (cluster_nodes st) (cluster st)) as [n| |]; [|done..].
  cbn [mbind outcome_bind].
  destruct (getitem avail (cluster st)) as [a| |]; [|done..].
  cbn [mbind outcome_bind].
  destruct (if a <? n + 1 then _ else _) as [[c1 it1]| |]; [|done..].
  cbn [mbind outcome_bind]. unfold getitem at 1.
  destruct (cluster_nodes st !! c1) as [n1|] eqn:Hn1; [|done].
  cbn [mbind outcome_bind].
  destruct (cycle_next it1) as [[c2 it2]| |]; [|done..].
  cbn [mbind outcome_bind].
  destruct (skip_full _ _ _ _ _) as [[c3 it3]| |]; [|done..].
  cbn [mbind outcome_bind]. intros [= <-]. cbn [cluster_nodes].
  destruct (decide (c1 = c)) as [<-|Hne]; [by eexists|].
  by rewrite lookup_insert_ne.
Qed.

Lemma vm_loop_keys clusters_attr avail vm_ram_size fuel n st st' c :
  vm_loop clusters_attr avail vm_ram_size fuel n st = Return st' →
  is_Some (cluster_nodes st' !! c) → is_Some (cluster_nodes st !! c).
Proof.
  revert st. induction n as [|n IH]; intros st; cbn [vm_loop].
  - by intros [= <-].
  - destruct (place_vm _ _ _ _ st) as [st1| |] eqn:H1; [|done..].
    cbn [mbind outcome_bind]. intros H2 Hc.
    eapply place_vm_keys; [exact H1|]. by eapply IH.
Qed.

Section Sufficiency.

Variable clusters : list string.
Variable clusters_attr : gmap string attr.
Variable avail : gmap string Z.
Variable vm_ram_size : Z.

Abbreviation place_vm := (place_vm clusters_attr avail vm_ram_size).
Abbreviation vm_loop := (vm_loop clusters_attr avail vm_ram_size).
Abbreviation ram_of := (SlotFinder.ram_of clusters_attr).

Abbreviation fits := (fits clusters_attr avail vm_ram_size).

Lemma place_vm_fits fuel j st st' :
  fits j st → place_vm fuel st = Return st' → fits (j + 1) st'.
Proof.
  intros (Hj & Hram & Hb & Hroom & Hall) Hstep.
  destruct (place_vm_bounded clusters_attr avail vm_ram_size fuel st st' Hb Hroom Hstep)
    as [Hb' Hroom'].
  destruct Hroom as (n & a & Hn & Ha & Hlt).
  revert Hstep Hb' Hroom'. unfold Distributor.place_vm, getitem.
  destruct (clusters_attr !! cluster st) as [at_|] eqn:Hat; [|done].
  assert (Hmem : ram_of (cluster st) = mem at_).
  { unfold SlotFinder.ram_of. by rewrite Hat. }
  cbn [mbind outcome_bind].
  destruct (Z.ltb_spec (mem at_) (node_ram st + vm_ram_size + vm_ram_size)).
  2:{ intros [= <-] _ _. unfold Accounting.fits. cbn [cluster_nodes cluster node_ram].
      split_and!; [lia|lia|done|by exists n, a|done]. }
  rewrite Hn, Ha. cbn [mbind outcome_bind].
  destruct (Z.ltb_spec a (n + 1)); [lia|].
  cbn [mbind outcome_bind]. rewrite Hn. cbn [mbind outcome_bind].
  destruct (cycle_next (iter_cluster st)) as [[c2 it2]| |]; [|done..].
  cbn [mbind outcome_bind].
  destruct (skip_full _ _ _ _ _) as [[c3 it3]| |]; [|done..].
  cbn [mbind outcome_bind]. intros [= <-]. cbn [cluster_nodes cluster].
  intros Hb' Hroom'. unfold Accounting.fits. cbn [cluster_nodes cluster node_ram].
  assert (Hsum : allocated_ram clusters_attr (<[cluster st := n + 1]> (cluster_nodes st))
                 = allocated_ram clusters_attr (cluster_nodes st) + mem at_).
  { unfold allocated_ram. rewrite (map_sum_insert _ _ _ _ _ Hn). cbv beta.
    rewrite Hmem. lia. }
  assert (Hkeys : ∀ c, is_Some (<[cluster st := n + 1]> (cluster_nodes st) !! c) →
                       is_Some (cluster_nodes st !! c)).
  { intros c. destruct (decide (cluster st = c)) as [<-|Hne].
    - intros _. by eexists.
    - by rewrite lookup_insert_ne. }
  split_and!; [rewrite Hsum; lia| |done|done|].
  - rewrite Z.add_0_l. apply Hall, Hkeys.
    destruct Hroom' as (n3 & a3 & Hn3 & _). by eexists.
  - intros c Hc. by apply Hall, Hkeys.
Qed.

Lemma vm_loop_fits fuel n j st st' :
  fits j st → vm_loop fuel n st = Return st' → fits (j + Z.of_nat n) st'.
Proof.
  revert j st. induction n as [|n IH]; intros j st Hfits;
    cbn [Distributor.vm_loop].
  - intros [= <-]. by rewrite Z.add_0_r.
  - destruct (place_vm fuel st) as [st1| |] eqn:H1; [|done..].
    cbn [mbind outcome_bind]. intros H2.
    apply (place_vm_fits _ j) in H1; [|done].
    apply (IH (j + 1)) in H2; [|done].
    by replace (j + Z.of_nat (S n)) with (j + 1 + Z.of_nat n) by lia.
Qed.

End Sufficiency.

Lemma distribute_hosts_ram (clusters : list string)
    (clusters_attr : gmap string attr) (avail : gmap string Z)
    (vm_ram_size : Z) (fuel : nat) (k : string) (ks : list string) (n_vm : Z)
    (cn : gmap string Z) :
  0 ≤ vm_ram_size → 0 ≤ n_vm →
  (∀ c a, avail !! c = Some a → 0 ≤ a) →
  (∀ c, is_Some (init_cluster_nodes clusters avail !! c) →
        vm_ram_size ≤ SlotFinder.ram_of clusters_attr c) →
  has_room avail (init_cluster_nodes clusters avail) k →
  distribute_hosts clusters clusters_attr avail vm_ram_size fuel (k :: ks) n_vm
    = Return cn →
  n_vm * vm_ram_size ≤ allocated_ram clusters_attr cn.
Proof.
  intros Hvm Hn Havail Hfit Hroom. unfold distribute_hosts.
  cbn [cycle_next mbind outcome_bind].
  destruct (vm_loop _ _ _ _ _ _) as [st| |] eqn:Hloop; [|done..].
  cbn [mbind outcome_bind].
  apply (vm_loop_fits clusters_attr avail vm_ram_size fuel _ 0) in Hloop.
  2:{ unfold Accounting.fits. cbn [cluster_nodes cluster node_ram].
      rewrite allocated_ram_init. split_and!; [lia| |by apply bounded_init|done|done].
      rewrite Z.add_0_l. apply Hfit. destruct Hroom as (n & a & Hc & _). by eexists. }
  destruct Hloop as (Hj & Hram & _ & (n & a & Hc & _) & _).
  unfold getitem. rewrite Hc. cbn [mbind outcome_bind]. intros [= <-].
  unfold allocated_ram in *. rewrite (map_sum_insert _ _ _ _ _ Hc). cbv beta.
  rewrite Z2Nat.id in Hj by done. lia.
Qed.

(** Lines 319-325 do not take RAM away. *)
Lemma apply_minimums_ram (clusters_attr : gmap string attr)
    (get_cluster_site : string → string) ks cn res cn' res' :
  (∀ c, is_Some (cn !! c) → 0 ≤ SlotFinder.ram_of clusters_attr c) →
  apply_minimums get_cluster_site ks (cn, res) = Return (cn', res') →
  allocated_ram clusters_attr cn ≤ allocated_ram clusters_attr cn'.
Proof.
  revert cn res. induction ks as [|c ks IH]; intros cn res Hram;
    cbn [apply_minimums].
  - intros [= <- <-]. lia.
  - destruct (apply_minimum get_cluster_site (cn, res) c) as [[cn1 res1]| |] eqn:H1;
      [|done..].
    cbn [mbind outcome_bind]. intros H2.
    assert (H01 : allocated_ram clusters_attr cn ≤ allocated_ram clusters_attr cn1
                  ∧ ∀ k, is_Some (cn1 !! k) → is_Some (cn !! k)).
    { revert H1. unfold apply_minimum, getitem.
      destruct (res !! c) as [m|].
      - destruct (cn !! c) as [n|] eqn:Hn; [|by cbn].
        cbn [mbind outcome_bind]. rewrite lookup_insert_eq.
        cbn [mbind outcome_bind]. intros [= <- <-]. split.
        + unfold allocated_ram. rewrite (map_sum_insert _ _ _ _ _ Hn). cbv beta.
          assert (0 ≤ SlotFinder.ram_of clusters_attr c) by (apply Hram; by eexists).
          nia.
        + intros k. destruct (decide (c = k)) as [<-|Hne].
          * intros _. by eexists.
          * by rewrite lookup_insert_ne.
      - cbn [mbind outcome_bind]. destruct (cn !! c) as [n|]; [|done].
        cbn [mbind outcome_bind]. intros [= <- <-]. split; [lia|done]. }
    destruct H01 as [Hle Hkeys]. etrans; [exact Hle|].
    eapply IH; [|exact H2]. intros k Hk. by apply Hram, Hkeys.
Qed.

(** X2.  The allocation has the RAM of the virtual machines.  When no
    machine is larger than a host of a cluster of the slot and the first
    cluster of the cycle has a free host, the [cluster_nodes] that lines
    296-325 return has at least [n_vm * vm_ram_size] MB on its hosts. *)
Theorem allocation_ram_sufficient (clusters : list string)
    (clusters_attr : gmap string attr) (avail : gmap string Z)
    (vm_ram_size : Z) (get_cluster_site : string → string) (fuel : nat)
    (k : string) (ks : list string) (n_vm : Z)
    (resources cn res' : gmap string Z) :
  0 ≤ vm_ram_size → 0 ≤ n_vm →
  (∀ c a, avail !! c = Some a → 0 ≤ a) →
  (∀ c, is_Some (init_cluster_nodes clusters avail !! c) →
        vm_ram_size ≤ SlotFinder.ram_of clusters_attr c) →
  has_room avail (init_cluster_nodes clusters avail) k →
  allocate_hosts clusters clusters_attr avail vm_ram_size get_cluster_site
    fuel (k :: ks) n_vm resources = Return (cn, res') →
  n_vm * vm_ram_size ≤ allocated_ram clusters_attr cn.
Proof.
  intros Hvm Hn Havail Hfit Hroom. unfold allocate_hosts.
  destruct (distribute_hosts _ _ _ _ _ _ _) as [cn0| |] eqn:H0; [|done..].
  cbn [mbind outcome_bind]. intros H1.
  pose proof (distribute_hosts_ram _ _ _ _ _ _ _ _ _ Hvm Hn Havail Hfit Hroom H0).
  etrans; [eassumption|]. eapply apply_minimums_ram; [|exact H1].
  intros c Hc. etrans; [exact Hvm|]. apply Hfit.
  revert H0 Hc. clear. unfold distribute_hosts.
  cbn [cycle_next mbind outcome_bind].
  destruct (vm_loop _ _ _ _ _ _) as [st| |] eqn:Hloop; [|done..].
  cbn [mbind outcome_bind]. unfold getitem.
  destruct (cluster_nodes st !! cluster st) as [n|] eqn:Hn; [|done].
  cbn [mbind outcome_bind]. intros [= <-] Hc.
  assert (Hc' : is_Some (cluster_nodes st !! c)).
  { destruct (decide (cluster st = c)) as [<-|Hne]; [by eexists|].
    by rewrite lookup_insert_ne in Hc. }
  exact (vm_loop_keys _ _ _ _ _ _ _ _ Hloop Hc').
Qed.

Lemma abc_fit :
  ∀ c, is_Some (init_cluster_nodes ["A"; "B"; "C"] Sample.avail_abc !! c) →
       1024 ≤ SlotFinder.ram_of Sample.attr_abc c.
Proof.
  intros c. rewrite init_cluster_nodes_lookup.
  case_bool_decide as Hc; [|by intros [? ?]]. intros _.
  destruct Hc as [_ Hc]. apply list_elem_of_In in Hc. simpl in Hc.
  destruct Hc as [<-|[<-|[<-|[]]]]; vm_compute; discriminate.
Defined.

Lemma allocation_ram_sufficient_witness :
  20 * 1024
  ≤ allocated_ram Sample.attr_abc ({[ "A" := 1; "B" := 1; "C" := 1 ]} : gmap string Z).
Proof.
  apply (allocation_ram_sufficient ["A"; "B"; "C"] Sample.attr_abc Sample.avail_abc
           1024 (λ _, "site") 3 "A" ["B"; "C"] 20 {[ "site" := 0; "C" := 1 ]}
           {[ "A" := 1; "B" := 1; "C" := 1 ]} {[ "site" := 3; "C" := 1 ]}).
  - lia.
  - lia.
  - exact abc_avail_nonneg.
  - exact abc_fit.
  - exact abc_room.
  - vm_compute. reflexivity.
Defined.

Lemma next_div_mod (k j : Z) :
  0 < k → 0 ≤ j →
  (j mod k + 1 = k → (j + 1) mod k = 0 ∧ (j + 1) / k = j / k + 1)
  ∧ (j mod k + 1 < k → (j + 1) mod k = j mod k + 1 ∧ (j + 1) / k = j / k).
Proof.
  intros Hk Hj. pose proof (Z.div_mod j k ltac:(lia)) as Hdm.
  pose proof (Z.mod_pos_bound j k Hk) as Hr. split; intros H.
  - split.
    + symmetry. apply (Z.mod_unique _ _ (j / k + 1)); [lia|nia].
    + symmetry. apply (Z.div_unique _ _ _ 0); [lia|nia].
  - split.
    + symmetry. apply (Z.mod_unique _ _ (j / k)); [lia|nia].
    + symmetry. apply (Z.div_unique _ _ _ (j mod k + 1)); [lia|nia].
Qed.

(** A host is full when it holds [m / v] machines. *)
Lemma host_full_test (m v r : Z) :
  0 < v → v ≤ m → 0 ≤ r < m / v →
  (m < r * v + v + v ↔ r + 1 = m / v).
Proof.
  intros Hv Hm Hr. pose proof (Z.div_mod m v ltac:(lia)) as Hdm.
  pose proof (Z.mod_pos_bound m v Hv) as Hb. split; intros H; nia.
Qed.

Section Count.

Variable clusters : list string.
Variable clusters_attr : gmap string attr.
Variable avail : gmap string Z.
Variables vm_ram_size host_ram : Z.

Abbreviation place_vm := (place_vm clusters_attr avail vm_ram_size).
Abbreviation vm_loop := (vm_loop clusters_attr avail vm_ram_size).

Hypothesis Hvm : 0 < vm_ram_size.
Hypothesis Hhost : vm_ram_size ≤ host_ram.
Hypothesis Hsame : ∀ c at_, clusters_attr !! c = Some at_ → mem at_ = host_ram.

Abbreviation counted := (counted vm_ram_size host_ram).

Lemma place_vm_counted fuel j st st' :
  0 ≤ j → counted j st → place_vm fuel st = Return st' → counted (j + 1) st'.
Proof.
  intros Hj [Hram Htot].
  assert (Hk : 0 < host_ram / vm_ram_size) by (apply Z.div_str_pos; lia).
  pose proof (Z.mod_pos_bound j _ Hk) as Hr.
  destruct (next_div_mod _ j Hk Hj) as [Hfull Hopen].
  unfold Distributor.place_vm, getitem.
  destruct (clusters_attr !! cluster st) as [at_|] eqn:Hat; [|done].
  cbn [mbind outcome_bind]. rewrite (Hsame _ _ Hat), Hram.
  pose proof (host_full_test host_ram vm_ram_size _ Hvm Hhost Hr) as Htest.
  destruct (Z.ltb_spec host_ram
              (j mod (host_ram / vm_ram_size) * vm_ram_size
               + vm_ram_size + vm_ram_size)) as [Hlt|Hge].
  2:{ intros [= <-]. unfold Accounting.counted. cbn [cluster_nodes node_ram].
      destruct Hopen as [Hm Hd]; [lia|]. rewrite Hm, Hd. split; [lia|done]. }
  destruct (cluster_nodes st !! cluster st) as [n|]; [|done].
  cbn [mbind outcome_bind].
  destruct (avail !! cluster st) as [a|]; [|done].
  cbn [mbind outcome_bind].
  destruct (if a <? n + 1 then _ else _) as [[c1 it1]| |]; [|done..].
  cbn [mbind outcome_bind].
  destruct (cluster_nodes st !! c1) as [n1|] eqn:Hn1; [|done].
  cbn [mbind outcome_bind].
  destruct (cycle_next it1) as [[c2 it2]| |]; [|done..].
  cbn [mbind outcome_bind].
  destruct (skip_full _ _ _ _ _) as [[c3 it3]| |]; [|done..].
  cbn [mbind outcome_bind]. intros [= <-]. unfold Accounting.counted.
  cbn [cluster_nodes node_ram].
  destruct Hfull as [Hm Hd]; [by apply Htest|]. rewrite Hm, Hd. split; [lia|].
  rewrite total_hosts_map_sum, (map_sum_insert _ _ _ _ _ Hn1). cbv beta.
  rewrite <- total_hosts_map_sum. lia.
Qed.

Lemma vm_loop_counted fuel n j st st' :
  0 ≤ j → counted j st → vm_loop fuel n st = Return st' →
  counted (j + Z.of_nat n) st'.
Proof.
  revert j st. induction n as [|n IH]; intros j st Hj Hc;
    cbn [Distributor.vm_loop].
  - intros [= <-]. by rewrite Z.add_0_r.
  - destruct (place_vm fuel st) as [st1| |] eqn:H1; [|done..].
    cbn [mbind outcome_bind]. intros H2.
    apply (place_vm_counted _ j) in H1; [|done..].
    apply (IH (j + 1)) in H2; [|lia|done].
    by replace (j + Z.of_nat (S n)) with (j + 1 + Z.of_nat n) by lia.
Qed.

End Count.

(** X3.  The number of hosts that the distribution allocates.  On clusters
    whose hosts all have [host_ram] MB, with machines of [vm_ram_size] MB
    that fit in a host, an allocation that lines 301-316 return for
    [n_vm] machines has [n_vm / k + 1] hosts in all, where
    [k = host_ram / vm_ram_size] machines fill a host: one host more than
    the machines fill when [n_vm] is a multiple of [k]. *)
Theorem distribute_hosts_count (clusters : list string)
    (clusters_attr : gmap string attr) (avail : gmap string Z)
    (vm_ram_size host_ram : Z) (fuel : nat) (ks : list string) (n_vm : Z)
    (cn : gmap string Z) :
  0 < vm_ram_size → vm_ram_size ≤ host_ram → 0 ≤ n_vm →
  (∀ c at_, clusters_attr !! c = Some at_ → mem at_ = host_ram) →
  distribute_hosts clusters clusters_attr avail vm_ram_size fuel ks n_vm
    = Return cn →
  total_hosts cn = n_vm / (host_ram / vm_ram_size) + 1.
Proof.
  intros Hvm Hhost Hn Hsame. unfold distribute_hosts.
  destruct (cycle_next ks) as [[c it]| |]; [|done..].
  cbn [mbind outcome_bind].
  destruct (vm_loop _ _ _ _ _ _) as [st| |] eqn:Hloop; [|done..].
  cbn [mbind outcome_bind].
  apply (vm_loop_counted clusters_attr avail vm_ram_size host_ram Hvm Hhost Hsame
           fuel _ 0) in Hloop; [|lia|].
  2:{ unfold Accounting.counted. cbn [cluster_nodes node_ram].
      rewrite total_hosts_init, Z.mod_0_l, Z.div_0_l; [done| |].
      - assert (0 < host_ram / vm_ram_size) by (apply Z.div_str_pos; lia). lia.
      - assert (0 < host_ram / vm_ram_size) by (apply Z.div_str_pos; lia). lia. }
  destruct Hloop as [_ Htot]. unfold getitem.
  destruct (cluster_nodes st !! cluster st) as [n|] eqn:Hc; [|done].
  cbn [mbind outcome_bind]. intros [= <-].
  rewrite total_hosts_map_sum, (map_sum_insert _ _ _ _ _ Hc). cbv beta.
  rewrite <- total_hosts_map_sum, Htot, Z.add_0_l, Z2Nat.id by done. lia.
Qed.

Lemma abc_same_ram : ∀ c at_, Sample.attr_abc !! c = Some at_ → mem at_ = 8192.
Proof.
  apply (bool_decide_unpack (map_Forall (λ _ at_, mem at_ = 8192) Sample.attr_abc)).
  vm_compute. exact I.
Defined.

Lemma distribute_hosts_count_witness :
  total_hosts ({[ "A" := 1; "B" := 1; "C" := 1 ]} : gmap string Z)
  = 16 / (8192 / 1024) + 1.
Proof.
  apply (distribute_hosts_count ["A"; "B"; "C"] Sample.attr_abc Sample.avail_abc
           1024 8192 3 ["A"; "B"; "C"] 16).
  - lia.
  - lia.
  - lia.
  - exact abc_same_ram.
  - vm_compute. reflexivity.
Defined.

End AccountingFacts.

Module ReservationFacts.
Import Distributor Accounting DistributorFacts AccountingFacts Reservation.

Section Sites.

Variable get_cluster_site : string → string.

Abbreviation apply_minimum := (apply_minimum get_cluster_site).
Abbreviation apply_minimums := (apply_minimums get_cluster_site).
Abbreviation clusters_of_site := (clusters_of_site get_cluster_site).

(** Lines 322-325 for one cluster: the entry of its site takes its count. *)
Lemma apply_minimum_site cn res c cn1 res1 :
  apply_minimum (cn, res) c = Return (cn1, res1) →
  ∃ n, cn1 !! c = Some n
       ∧ res1 = <[get_cluster_site c := default 0 (res !! get_cluster_site c) + n]> res.
Proof.
  unfold Distributor.apply_minimum, getitem.
  destruct (res !! c) as [m|].
  - destruct (cn !! c) as [n|] eqn:Hn; [|by cbn].
    cbn [mbind outcome_bind]. rewrite lookup_insert_eq.
    cbn [mbind outcome_bind]. intros [= <- <-].
    exists (Z.max n m). rewrite lookup_insert_eq. split; [done|].
    by destruct (res !! get_cluster_site c).
  - cbn [mbind outcome_bind]. destruct (cn !! c) as [n|] eqn:Hn; [|done].
    cbn [mbind outcome_bind]. intros [= <- <-]. exists n. split; [done|].
    destruct (res !! get_cluster_site c); simpl; [done|]. by rewrite Z.add_0_l.
Qed.

Lemma apply_minimums_other todo cn res cn' res' c :
  c ∉ todo → apply_minimums todo (cn, res) = Return (cn', res') →
  cn' !! c = cn !! c.
Proof.
  revert cn res. induction todo as [|c0 todo IH]; intros cn res Hc;
    cbn [Distributor.apply_minimums].
  - by intros [= <- <-].
  - destruct (apply_minimum (cn, res) c0) as [[cn1 res1]| |] eqn:H1; [|done..].
    cbn [mbind outcome_bind]. intros H2.
    apply apply_minimum_spec in H1 as (_ & _ & _ & _ & Hcn & _).
    rewrite (IH cn1 res1); [|intros ?; apply Hc; by right|done].
    apply Hcn. intros ->. apply Hc. left.
Qed.

(** Lines 319-325: the entry of a site ends at what it was, or zero, plus
    the hosts allocated on its clusters. *)
Lemma apply_minimums_site todo cn res cn' res' s :
  NoDup todo → apply_minimums todo (cn, res) = Return (cn', res') →
  res' !! s =
  match clusters_of_site s todo with
  | [] => res !! s
  | cs => Some (default 0 (res !! s) + hosts_on cn' cs)
  end.
Proof.
  revert cn res. induction todo as [|c0 todo IH]; intros cn res Hnd;
    cbn [Distributor.apply_minimums].
  - by intros [= <- <-].
  - destruct (apply_minimum (cn, res) c0) as [[cn1 res1]| |] eqn:H1; [|done..].
    cbn [mbind outcome_bind]. intros H2.
    apply NoDup_cons in Hnd as [Hc0 Hnd].
    apply apply_minimum_site in H1 as (n & Hn & ->).
    pose proof (apply_minimums_other _ _ _ _ _ _ Hc0 H2) as Hkeep.
    rewrite (IH _ _ Hnd H2). unfold Reservation.clusters_of_site.
    rewrite filter_cons. destruct (decide (get_cluster_site c0 = s)) as [<-|Hne].
    + rewrite lookup_insert_eq. cbn [default].
      destruct (filter _ todo) as [|c1 cs] eqn:Hf.
      * unfold hosts_on, Zsum. simpl. rewrite Hkeep, Hn. simpl. f_equal. lia.
      * unfold hosts_on, Zsum. simpl. rewrite Hkeep, Hn. simpl. f_equal. lia.
    + rewrite lookup_insert_ne by done. done.
Qed.

End Sites.

Lemma place_vm_keeps_keys clusters_attr avail vm_ram_size fuel st st' c :
  place_vm clusters_attr avail vm_ram_size fuel st = Return st' →
  is_Some (cluster_nodes st !! c) → is_Some (cluster_nodes st' !! c).
Proof.
  unfold place_vm.
  destruct (getitem clusters_attr (cluster st)) as [at_| |]; [|done..].
  cbn [mbind outcome_bind]. destruct (_ <? _); [|by intros [= <-]].
  destruct (getitem (cluster_nodes st) (cluster st)) as [n| |]; [|done..].
  cbn [mbind outcome_bind].
  destruct (getitem avail (cluster st)) as [a| |]; [|done..].
  cbn [mbind outcome_bind].
  destruct (if a <? n + 1 then _ else _) as [[c1 it1]| |]; [|done..].
  cbn [mbind outcome_bind]. unfold getitem at 1.
  destruct (cluster_nodes st !! c1) as [n1|] eqn:Hn1; [|done].
  cbn [mbind outcome_bind].
  destruct (cycle_next it1) as [[c2 it2]| |]; [|done..].
  cbn [mbind outcome_bind].
  destruct (skip_full _ _ _ _ _) as [[c3 it3]| |]; [|done..].
  cbn [mbind outcome_bind]. intros [= <-]. cbn [cluster_nodes].
  destruct (decide (c1 = c)) as [<-|Hne].
  - rewrite lookup_insert_eq. by eexists.
  - by rewrite lookup_insert_ne.
Qed.

Lemma vm_loop_keeps_keys clusters_attr avail vm_ram_size fuel n st st' c :
  vm_loop clusters_attr avail vm_ram_size fuel n st = Return st' →
  is_Some (cluster_nodes st !! c) → is_Some (cluster_nodes st' !! c).
Proof.
  revert st. induction n as [|n IH]; intros st; cbn [vm_loop].
  - by intros [= <-].
  - destruct (place_vm _ _ _ _ st) as [st1| |] eqn:H1; [|done..].
    cbn [mbind outcome_bind]. intros H2 Hc.
    eapply IH; [exact H2|]. by eapply place_vm_keeps_keys.
Qed.

(** Lines 301-316 keep the keys of [cluster_nodes]. *)
Lemma distribute_hosts_keys clusters clusters_attr avail vm_ram_size fuel ks n_vm cn c :
  distribute_hosts clusters clusters_attr avail vm_ram_size fuel ks n_vm = Return cn →
  is_Some (cn !! c) ↔ is_Some (init_cluster_nodes clusters avail !! c).
Proof.
  unfold distribute_hosts.
  destruct (cycle_next ks) as [[c0 it]| |]; [|done..].
  cbn [mbind outcome_bind].
  destruct (vm_loop _ _ _ _ _ _) as [st| |] eqn:Hloop; [|done..].
  cbn [mbind outcome_bind]. unfold getitem.
  destruct (cluster_nodes st !! cluster st) as [n|] eqn:Hn; [|done].
  cbn [mbind outcome_bind]. intros [= <-].
  assert (Hins : is_Some (<[cluster st := n + 1]> (cluster_nodes st) !! c)
                 ↔ is_Some (cluster_nodes st !! c)).
  { destruct (decide (cluster st = c)) as [<-|Hne].
    - rewrite lookup_insert_eq, Hn. split; by eexists.
    - by rewrite lookup_insert_ne. }
  rewrite Hins. split.
  - exact (vm_loop_keys _ _ _ _ _ _ _ _ Hloop).
  - exact (vm_loop_keeps_keys _ _ _ _ _ _ _ _ Hloop).
Qed.

Lemma apply_minimums_keys get_cluster_site ks cn res cn' res' c :
  apply_minimums get_cluster_site ks (cn, res) = Return (cn', res') →
  is_Some (cn' !! c) ↔ is_Some (cn !! c).
Proof.
  revert cn res. induction ks as [|c0 ks IH]; intros cn res; cbn [apply_minimums].
  - by intros [= <- <-].
  - destruct (apply_minimum get_cluster_site (cn, res) c0) as [[cn1 res1]| |] eqn:H1;
      [|done..].
    cbn [mbind outcome_bind]. intros H2. rewrite (IH _ _ H2).
    apply apply_minimum_spec in H1 as (_ & _ & _ & _ & Hcn & n & Hn & Hn1).
    destruct (decide (c = c0)) as [->|Hne].
    + rewrite Hn, Hn1. split; by eexists.
    + by rewrite Hcn.
Qed.

(** X4.  What the reservation asks for.  In the request that lines 296-333
    hand to [create_reservation], the entry ['kavlan'] is the VLAN count of
    the slot, every cluster of the cycle has its count of hosts, and a
    site has what the user asked for it (nothing counts as zero) plus the
    hosts allocated on its clusters; an entry that is neither is as the
    user gave it. *)
Theorem reservation_request_sites (clusters : list string)
    (clusters_attr : gmap string attr) (avail : gmap string Z) (vm_ram_size : Z)
    (get_cluster_site : string → string) (fuel : nat) (ks : list string)
    (n_vm : Z) (resources req : gmap string Z) :
  iterkeys_of (init_cluster_nodes clusters avail) ks →
  "kavlan" ∉ ks →
  plan_reservation clusters clusters_attr avail vm_ram_size get_cluster_site
    fuel ks n_vm resources = Return req →
  req !! "kavlan" = avail !! "kavlan"
  ∧ (∀ c, c ∈ ks → is_Some (req !! c))
  ∧ (∀ s, s ∉ ks → s ≠ "kavlan" →
       req !! s =
       match clusters_of_site get_cluster_site s ks with
       | [] => resources !! s
       | cs => Some (default 0 (resources !! s) + hosts_on req cs)
       end).
Proof.
  intros [Hnd Hkeys] Hkav. unfold plan_reservation.
  destruct (allocate_hosts _ _ _ _ _ _ _ _ _) as [[cn res]| |] eqn:Halloc; [|done..].
  cbn [mbind outcome_bind]. unfold reservation_request, getitem.
  destruct (avail !! "kavlan") as [kv|] eqn:Hkv; [|done].
  cbn [mbind outcome_bind]. intros [= <-].
  revert Halloc. unfold allocate_hosts.
  destruct (distribute_hosts _ _ _ _ _ _ _) as [cn0| |] eqn:H0; [|done..].
  cbn [mbind outcome_bind]. intros H1.
  assert (Hdom : ∀ c, is_Some (cn !! c) ↔ c ∈ ks).
  { intros c. rewrite (apply_minimums_keys _ _ _ _ _ _ _ H1).
    rewrite (distribute_hosts_keys _ _ _ _ _ _ _ _ _ H0). symmetry. apply Hkeys. }
  assert (Hreq : ∀ c, c ∈ ks →
            (<["kavlan" := kv]> (cn ∪ res) : gmap string Z) !! c = cn !! c).
  { intros c Hc. rewrite lookup_insert_ne by (intros <-; done).
    destruct (proj2 (Hdom c) Hc) as [n Hn]. rewrite Hn.
    by apply lookup_union_Some_l. }
  split_and!.
  - by rewrite lookup_insert_eq.
  - intros c Hc. rewrite (Hreq c Hc). by apply Hdom.
  - intros s Hs Hne. rewrite lookup_insert_ne by done.
    assert (Hnone : cn !! s = None).
    { apply eq_None_not_Some. by rewrite Hdom. }
    rewrite (lookup_union_r _ _ _ Hnone).
    rewrite (apply_minimums_site get_cluster_site ks cn0 resources cn res s Hnd H1).
    destruct (clusters_of_site get_cluster_site s ks) as [|c1 cs] eqn:Hcs; [done|].
    f_equal. f_equal. unfold hosts_on. f_equal. apply map_ext_in.
    intros c Hc. rewrite Hreq; [done|].
    assert (Hin : c ∈ clusters_of_site get_cluster_site s ks).
    { rewrite Hcs. by apply list_elem_of_In. }
    unfold clusters_of_site in Hin. by apply list_elem_of_filter in Hin as [_ ?].
Qed.

Lemma reservation_request_sites_witness :
  ({[ "A" := 1; "B" := 1; "C" := 1; "site" := 8; "kavlan" := 2 ]} : gmap string Z)
    !! "site"
  = Some (5 + hosts_on ({[ "A" := 1; "B" := 1; "C" := 1; "site" := 8;
                           "kavlan" := 2 ]} : gmap string Z) ["A"; "B"; "C"]).
Proof.
  pose proof (reservation_request_sites ["A"; "B"; "C"] Sample.attr_abc
                (<["kavlan" := 2]> Sample.avail_abc) 1024 (λ _, "site") 3
                ["A"; "B"; "C"] 20 {[ "site" := 5; "C" := 1 ]}
                {[ "A" := 1; "B" := 1; "C" := 1; "site" := 8; "kavlan" := 2 ]})
    as (_ & _ & Hsite).
  - apply iterkeys_check_ok. vm_compute. reflexivity.
  - intros Hin. apply list_elem_of_In in Hin. simpl in Hin.
    destruct Hin as [H|[H|[H|[]]]]; discriminate H.
  - vm_compute. reflexivity.
  - apply (Hsite "site").
    + intros Hin. apply list_elem_of_In in Hin. simpl in Hin.
      destruct Hin as [H|[H|[H|[]]]]; discriminate H.
    + discriminate.
Defined.

End ReservationFacts.

Module CeilingFacts.
Import Distributor Accounting DistributorFacts AccountingFacts.

(** The loop of lines 314-315 stops at the first cluster with room. *)
Lemma skip_full_first avail pre k post fuel cn it c :
  c :: it = pre ++ k :: post →
  (∀ x, x ∈ pre → full avail cn x) →
  has_room avail cn k → (length pre ≤ fuel)%nat →
  ∃ it', skip_full avail fuel cn it c = Return (k, it') ∧ it' ≡ₚ it.
Proof.
  revert fuel it c post.
  induction pre as [|p pre IH]; intros fuel it c post Heq Hpre Hk Hfuel.
  - injection Heq as -> ->. destruct Hk as (n & a & Hn & Ha & Hlt).
    exists post. split; [|done].
    destruct fuel; cbn [skip_full]; unfold getitem; rewrite Hn, Ha;
      cbn [mbind outcome_bind]; by destruct (Z.leb_spec a n); [lia|].
  - injection Heq as -> ->.
    destruct (Hpre p) as (n & a & Hn & Ha & Hle); [left|].
    destruct fuel as [|fuel]; [simpl in Hfuel; lia|].
    cbn [skip_full]. unfold getitem. rewrite Hn, Ha.
    cbn [mbind outcome_bind]. destruct (Z.leb_spec a n); [|lia].
    assert (Hpre' : ∀ x, x ∈ pre → full avail cn x).
    { intros x Hx. apply Hpre. by right. }
    simpl in Hfuel.
    destruct pre as [|q pre]; cbn [app cycle_next mbind outcome_bind].
    + destruct (IH fuel (post ++ [k]) k (post ++ [k])) as (it' & Hr & Hp);
        [done|done|done|simpl; lia|].
      exists it'. split; [done|]. rewrite Hp. apply Permutation_app_comm.
    + destruct (IH fuel ((pre ++ k :: post) ++ [q]) q (post ++ [q]))
        as (it' & Hr & Hp); [|done|done|simpl in *; lia|].
      { by rewrite <- app_assoc. }
      exists it'. split; [done|]. rewrite Hp. apply Permutation_app_comm.
Qed.

(** X5.  How the search for the next cluster ends.  When the clusters from
    the current one to [k] in the order of the cycle are full up to [k],
    which has room, the loop of lines 314-315 stops at [k] within as many
    steps as there are full clusters before it, and leaves the cycle with
    the same clusters.  When the current cluster and all those of the
    cycle are full, no number of steps ends the loop. *)
Theorem ceiling_loop_outcome (avail cn : gmap string Z) (it : list string)
    (c : string) (fuel : nat) :
  it ≠ [] →
  (∀ pre k post,
     c :: it = pre ++ k :: post →
     (∀ x, x ∈ pre → full avail cn x) → has_room avail cn k →
     (length pre ≤ fuel)%nat →
     ∃ it', skip_full avail fuel cn it c = Return (k, it') ∧ it' ≡ₚ it)
  ∧ ((∀ x, x ∈ c :: it → full avail cn x) →
     skip_full avail fuel cn it c = OutOfFuel).
Proof.
  intros Hne. split.
  - intros pre k post. apply skip_full_first.
  - intros Hall. apply skip_full_all_full; [done|apply Hall; left|].
    intros x Hx. apply Hall. by right.
Qed.

Lemma ceiling_loop_outcome_witness :
  (∃ it', skip_full Sample.avail_abc 2 {[ "A" := 2; "B" := 2; "C" := 0 ]}
            ["B"; "C"; "A"] "A" = Return ("C", it')
          ∧ it' ≡ₚ ["B"; "C"; "A"])
  ∧ skip_full Sample.avail_abc 7 {[ "A" := 2; "B" := 2; "C" := 1 ]}
      ["B"; "C"; "A"] "A" = OutOfFuel.
Proof.
  split.
  - apply (proj1 (ceiling_loop_outcome Sample.avail_abc
                    {[ "A" := 2; "B" := 2; "C" := 0 ]} ["B"; "C"; "A"] "A" 2
                    ltac:(discriminate)) ["A"; "B"] "C" ["A"]).
    + reflexivity.
    + intros x Hx. apply list_elem_of_In in Hx. simpl in Hx.
      destruct Hx as [<-|[<-|[]]]; exists 2, 2;
        (split_and!; [vm_compute; reflexivity..|lia]).
    + exists 0, 1. split_and!; [vm_compute; reflexivity..|lia].
    + simpl. lia.
  - apply (proj2 (ceiling_loop_outcome Sample.avail_abc
                    {[ "A" := 2; "B" := 2; "C" := 1 ]} ["B"; "C"; "A"] "A" 7
                    ltac:(discriminate))).
    intros x Hx. apply list_elem_of_In in Hx. simpl in Hx.
    destruct Hx as [<-|[<-|[<-|[<-|[]]]]];
      [exists 2, 2|exists 2, 2|exists 1, 1|exists 2, 2];
      (split_and!; [vm_compute; reflexivity..|lia]).
Defined.

(** X6.  The allocation stays within the slot.  When the first cluster of
    the cycle has a free host, the slot has no negative count and at least
    the requested minimum of every cluster, and no site bears the name of
    a cluster, a run of lines 296-325 that returns gives every cluster at
    most the hosts that the slot has free and at least its requested
    minimum. *)
Theorem allocation_within_slot (clusters : list string)
    (clusters_attr : gmap string attr) (avail : gmap string Z) (vm_ram_size : Z)
    (get_cluster_site : string → string) (fuel : nat) (k : string)
    (ks : list string) (n_vm : Z) (resources cn res' : gmap string Z) :
  NoDup (k :: ks) →
  (∀ c, c ∈ k :: ks → get_cluster_site c ∉ k :: ks) →
  (∀ c a, avail !! c = Some a → 0 ≤ a) →
  (∀ c m a, c ∈ k :: ks → resources !! c = Some m → avail !! c = Some a → m ≤ a) →
  has_room avail (init_cluster_nodes clusters avail) k →
  allocate_hosts clusters clusters_attr avail vm_ram_size get_cluster_site
    fuel (k :: ks) n_vm resources = Return (cn, res') →
  bounded avail cn
  ∧ ∀ c m, c ∈ k :: ks → resources !! c = Some m → ∃ n, cn !! c = Some n ∧ m ≤ n.
Proof. apply allocate_hosts_within_slot. Qed.

Lemma allocation_within_slot_witness :
  bounded Sample.avail_abc {[ "A" := 1; "B" := 1; "C" := 1 ]}
  ∧ ∀ c m, c ∈ ["A"; "B"; "C"] →
           ({[ "site" := 5; "C" := 1 ]} : gmap string Z) !! c = Some m →
           ∃ n, ({[ "A" := 1; "B" := 1; "C" := 1 ]} : gmap string Z) !! c = Some n
                ∧ m ≤ n.
Proof.
  apply (allocation_within_slot ["A"; "B"; "C"] Sample.attr_abc Sample.avail_abc
           1024 (λ _, "site") 3 "A" ["B"; "C"] 20 {[ "site" := 5; "C" := 1 ]}
           {[ "A" := 1; "B" := 1; "C" := 1 ]} {[ "site" := 8; "C" := 1 ]}).
  - apply (bool_decide_unpack (NoDup ["A"; "B"; "C"])). vm_compute. exact I.
  - intros c _ Hin. apply list_elem_of_In in Hin. simpl in Hin.
    destruct Hin as [H|[H|[H|[]]]]; discriminate H.
  - exact abc_avail_nonneg.
  - intros c m a Hc. apply list_elem_of_In in Hc. simpl in Hc.
    destruct Hc as [<-|[<-|[<-|[]]]]; vm_compute; intros H1 H2;
      try discriminate H1.
    injection H1 as <-. injection H2 as <-. discriminate.
  - exact abc_room.
  - vm_compute. reflexivity.
Defined.

End CeilingFacts.

Module PoolFacts.
Import Net Dhcp NetFacts DhcpFacts.

Lemma seqZ_increasing (m n : Z) : StronglySorted Z.lt (seqZ m n).
Proof.
  remember (Z.to_nat n) as k eqn:Hk. revert m n Hk.
  induction k as [|k IH]; intros m n Hk.
  - rewrite seqZ_nil by lia. constructor.
  - rewrite seqZ_cons by lia. constructor.
    + apply IH. lia.
    + apply Forall_forall. intros x Hx%elem_of_seqZ. lia.
Qed.

Lemma filter_increasing (P : Z → Prop) `{∀ x, Decision (P x)} (l : list Z) :
  StronglySorted Z.lt l → StronglySorted Z.lt (filter P l).
Proof.
  induction 1 as [|x l Hl IH Hx]; [constructor|].
  rewrite filter_cons. destruct (decide (P x)); [|done].
  constructor; [done|]. apply Forall_forall. intros y [_ Hy]%list_elem_of_filter.
  rewrite Forall_forall in Hx. by apply Hx.
Qed.

(** Lines 409-416 give the addresses in increasing order. *)
Lemma pool_increasing (sites : list string) (kavlan_id : Z) (ips : IPNetwork) :
  StronglySorted Z.lt (vm_ip_of sites kavlan_id (iter_hosts ips)).
Proof.
  rewrite vm_ip_of_filter. apply filter_increasing. unfold iter_hosts.
  destruct (4 <=? net_size ips); [apply seqZ_increasing|constructor].
Qed.

Lemma foldl_min_first (x : Z) (l : list Z) :
  Forall (Z.lt x) l → foldl Z.min x l = x.
Proof.
  revert x. induction l as [|y l IH]; intros x Hx; [done|].
  apply Forall_cons in Hx as [Hxy Hx]. simpl.
  rewrite Z.min_l by lia. by apply IH.
Qed.

Lemma foldl_max_last (x : Z) (l : list Z) :
  StronglySorted Z.lt (x :: l) → Some (foldl Z.max x l) = last (x :: l).
Proof.
  revert x. induction l as [|y l IH]; intros x Hs; [done|].
  apply StronglySorted_inv in Hs as [Hl Hx].
  apply Forall_cons in Hx as [Hxy Hx]. simpl foldl.
  rewrite Z.max_r by lia. rewrite (IH y Hl). done.
Qed.

(** X7.  The bounds of the DHCP range.  After a run of the allocator for at
    least one machine, the range of line 504 starts at the first address
    of the filtered pool, which is the address of the first pair, and it
    ends at the last address of the pool, which is also the router of
    line 507. *)
Theorem dhcp_range_first_last (sites : list string) (kavlan_id : Z)
    (rnd : nat → Z) (fuel : nat) (ips : IPNetwork) (n_vm : Z)
    (pairs : list (string * string)) :
  1 ≤ n_vm →
  allocate sites kavlan_id rnd fuel ips n_vm = Return pairs →
  ∃ lo hi,
    head (vm_ip_of sites kavlan_id (iter_hosts ips)) = Some lo
    ∧ last (vm_ip_of sites kavlan_id (iter_hosts ips)) = Some hi
    ∧ head pairs.*1 = Some (str_ip lo)
    ∧ dhcp_config ips (vm_ip_of sites kavlan_id (iter_hosts ips)) pairs
      = Return (Config
          (host_entries pairs)
          ("dhcp-range=" +:+ (str_ip lo +:+ "," +:+ str_ip hi +:+ ","
                              +:+ str_ip (netmask ips)) +:+ ",12h" +:+ nl)
          ("dhcp-option=option:router," +:+ str_ip hi +:+ nl)).
Proof.
  intros Hn. unfold allocate.
  pose proof (pool_increasing sites kavlan_id ips) as Hsorted.
  destruct (vm_ip_of sites kavlan_id (iter_hosts ips)) as [|lo pool] eqn:Hpool;
    [done|].
  destruct (generate _ _ _ _) as [g| |] eqn:Hg; [|done..].
  cbn [mbind outcome_bind]. intros [= <-].
  apply generate_spec in Hg as (_ & Hip).
  rewrite slice_to_nonneg in Hip by lia.
  assert (Z.to_nat n_vm = S (Z.to_nat (n_vm - 1))) as Hn' by lia.
  rewrite Hn' in Hip. cbn [take map] in Hip.
  exists lo, (foldl Z.max lo pool). split_and!.
  - done.
  - symmetry. by apply foldl_max_last.
  - by rewrite Hip.
  - unfold dhcp_config. cbn [py_min py_max mbind outcome_bind].
    rewrite foldl_min_first, dhcp_hosts_entries; [done|].
    by apply StronglySorted_inv in Hsorted as [_ ?].
Qed.

Lemma dhcp_range_first_last_witness :
  ∃ lo hi,
    head (vm_ip_of ["sophia"; "rennes"] 5 (iter_hosts Sample.net6)) = Some lo
    ∧ last (vm_ip_of ["sophia"; "rennes"] 5 (iter_hosts Sample.net6)) = Some hi
    ∧ head [("10.27.255.249", "00:20:4e:00:01:02");
            ("10.27.255.250", "00:20:4e:03:04:05")].*1 = Some (str_ip lo)
    ∧ dhcp_config Sample.net6
        (vm_ip_of ["sophia"; "rennes"] 5 (iter_hosts Sample.net6))
        [("10.27.255.249", "00:20:4e:00:01:02");
         ("10.27.255.250", "00:20:4e:03:04:05")]
      = Return (Config
          (host_entries [("10.27.255.249", "00:20:4e:00:01:02");
                         ("10.27.255.250", "00:20:4e:03:04:05")])
          ("dhcp-range=" +:+ (str_ip lo +:+ "," +:+ str_ip hi +:+ ","
                              +:+ str_ip (netmask Sample.net6)) +:+ ",12h" +:+ nl)
          ("dhcp-option=option:router," +:+ str_ip hi +:+ nl)).
Proof.
  apply (dhcp_range_first_last ["sophia"; "rennes"] 5 Sample.rnd_count 1
           Sample.net6 2).
  - lia.
  - vm_compute. reflexivity.
Defined.

(** X8.  The text of a MAC.  For lists of six bytes the text of line 432
    has 17 characters, and two lists with the same text are the same
    list: distinct MACs are written differently. *)
Theorem mac_text_inj (m m' : list Z) :
  length m = 6%nat → length m' = 6%nat →
  Forall (λ x, 0 ≤ x ≤ 255) m → Forall (λ x, 0 ≤ x ≤ 255) m' →
  String.length (mac_str m) = 17%nat
  ∧ (mac_str m = mac_str m' → m = m').
Proof.
  intros Hl Hl' Hb Hb'.
  destruct m as [|a [|b [|c [|d [|e [|f [|]]]]]]]; try discriminate Hl.
  destruct m' as [|a' [|b' [|c' [|d' [|e' [|f' [|]]]]]]]; try discriminate Hl'.
  split; [reflexivity|].
  unfold mac_str. cbn [map join]. intros H.
  apply hex2_app_inj in H as [Ha H]. apply colon_app_inj in H.
  apply hex2_app_inj in H as [Hb1 H]. apply colon_app_inj in H.
  apply hex2_app_inj in H as [Hc H]. apply colon_app_inj in H.
  apply hex2_app_inj in H as [Hd H]. apply colon_app_inj in H.
  apply hex2_app_inj in H as [He Hf]. apply colon_app_inj in Hf.
  rewrite !Forall_cons in Hb, Hb'.
  destruct Hb as (? & ? & ? & ? & ? & ? & _).
  destruct Hb' as (? & ? & ? & ? & ? & ? & _).
  apply hex2_inj in Ha, Hb1, Hc, Hd, He, Hf; try done.
  by subst.
Qed.

Lemma mac_text_inj_witness :
  String.length (mac_str [0; 32; 78; 255; 1; 171]) = 17%nat
  ∧ (mac_str [0; 32; 78; 255; 1; 171] = mac_str [0; 32; 78; 255; 1; 172] →
     [0; 32; 78; 255; 1; 171] = [0; 32; 78; 255; 1; 172]).
Proof.
  apply (mac_text_inj [0; 32; 78; 255; 1; 171] [0; 32; 78; 255; 1; 172]).
  - reflexivity.
  - reflexivity.
  - repeat (apply Forall_cons; split; [lia|]). apply Forall_nil_2.
  - repeat (apply Forall_cons; split; [lia|]). apply Forall_nil_2.
Defined.

End PoolFacts.

Module MatcherFacts.
Import Topology TopologyFacts HostElements.

Lemma py_remove_NoDup {A} `{EqDecision A} (x : A) (l l' : list A) :
  NoDup l → py_remove x l = Return l' → (x ∉ l') ∧ NoDup l' ∧ l' ⊆ l.
Proof.
  revert l'. induction l as [|y l IH]; intros l' Hnd; [done|].
  apply NoDup_cons in Hnd as [Hy Hnd]. cbn [py_remove].
  destruct (decide (x = y)) as [->|Hne].
  - intros [= <-]. split_and!; [done|done|]. intros z Hz. by right.
  - destruct (py_remove x l) as [r| |] eqn:Hr; [|done..].
    cbn [mbind outcome_bind]. intros [= <-].
    destruct (IH r Hnd eq_refl) as (Hx & Hndr & Hsub). split_and!.
    + intros [?|?]%elem_of_cons; [done|by apply Hx].
    + apply NoDup_cons. split; [|done]. intros Hin. by apply Hy, Hsub.
    + intros z [->|Hz]%elem_of_cons; [left|right; by apply Hsub].
Qed.

(** Lines 441-444 return or raise [IndexError]; what they return is the
    identifier itself or a remaining host that contains its cluster
    name. *)
Lemma match_host_outcome (tmp_hosts : list string) (id : string) :
  match match_host tmp_hosts id with
  | Return (id', tmp') =>
      id' ∈ tmp_hosts
      ∧ (id' = id ∨ contains (cluster_of id) id' = true)
  | Raise e => e = IndexError
  | OutOfFuel => False
  end.
Proof.
  unfold match_host. case_bool_decide as Hin.
  - destruct (List.filter _ _) as [|h tmp] eqn:Hf; [done|].
    cbn [first_item mbind outcome_bind].
    assert (Hh : In h (List.filter (contains (cluster_of id)) tmp_hosts)).
    { rewrite Hf. by left. }
    apply filter_In in Hh as [Hh Hc]. apply list_elem_of_In in Hh.
    destruct (py_remove_elem_of h tmp_hosts Hh) as (l' & -> & _).
    cbn [mbind outcome_bind]. split; [done|by right].
  - split; [|by left]. by destruct (decide (id ∈ tmp_hosts)).
Qed.

Lemma match_hosts_outcome (ids : list string) :
  ∀ tmp_hosts,
  match match_hosts tmp_hosts ids with
  | Return (ids', tmp') =>
      Forall2 (λ id id', id' = id ∨ contains (cluster_of id) id' = true) ids ids'
  | Raise e => e = IndexError
  | OutOfFuel => False
  end.
Proof.
  induction ids as [|id ids IH]; intros tmp_hosts; cbn [match_hosts].
  - constructor.
  - pose proof (match_host_outcome tmp_hosts id) as H1.
    destruct (match_host tmp_hosts id) as [[id1 tmp1]| |]; [|done..].
    cbn [mbind outcome_bind]. specialize (IH tmp1).
    destruct (match_hosts tmp1 ids) as [[rest tmp2]| |]; [|done..].
    cbn [mbind outcome_bind]. constructor; [by destruct H1|done].
Qed.

Lemma match_topology_outcome (hosts ids : list string) :
  match match_topology hosts ids with
  | Return ids' =>
      Forall2 (λ id id', id' = id ∨ contains (cluster_of id) id' = true) ids ids'
      ∧ (∀ id', id' ∈ ids' → id' ∈ map short_name hosts)
  | Raise e => e = IndexError
  | OutOfFuel => False
  end.
Proof.
  unfold match_topology.
  pose proof (match_hosts_outcome ids (map short_name hosts)) as Hout.
  destruct (match_hosts (map short_name hosts) ids) as [[ids' tmp']| |] eqn:Hm;
    [|done..].
  cbn [mbind outcome_bind]. split; [done|].
  by apply match_hosts_subset in Hm as [? _].
Qed.

(** On host elements that all have an identifier the loop is the one on
    the identifiers. *)
Lemma match_elements_some (ss : list string) (tmp_hosts : list string) :
  match_elements tmp_hosts (Some <$> ss) = Ended (match_hosts tmp_hosts ss).
Proof.
  revert tmp_hosts. induction ss as [|s ss IH]; intros tmp_hosts; [done|].
  rewrite fmap_cons. cbn [match_elements match_element match_hosts].
  destruct (match_host tmp_hosts s) as [[id' tmp']| |]; [|done..].
  rewrite IH. cbn [mbind outcome_bind].
  by destruct (match_hosts tmp' ss) as [[rest tmp'']| |].
Qed.

(** A run that returns met identifiers only; a run that ends with
    [AttributeError] met an element without identifier. *)
Lemma match_elements_outcome (ids : list (option string)) (tmp_hosts : list string) :
  match match_elements tmp_hosts ids with
  | Ended (Return _) => ∃ ss, ids = Some <$> ss
  | Ended (Raise e) => e = IndexError
  | Ended OutOfFuel => False
  | AttributeError => None ∈ ids ∧ tmp_hosts ≠ []
  end.
Proof.
  revert tmp_hosts. induction ids as [|id ids IH]; intros tmp_hosts;
    cbn [match_elements].
  - by exists [].
  - destruct id as [s|]; cbn [match_element].
    + pose proof (match_host_outcome tmp_hosts s) as H1.
      pose proof (match_host_subset tmp_hosts) as Hsub.
      destruct (match_host tmp_hosts s) as [[id' tmp']| |] eqn:Hm; [|done..].
      specialize (IH tmp').
      destruct (match_elements tmp' ids) as [[[rest tmp'']|e|]|]; try done.
      * destruct IH as [ss ->]. by exists (s :: ss).
      * destruct IH as [Hin _]. split; [by right|].
        intros ->. unfold match_host in Hm.
        rewrite bool_decide_true in Hm by apply not_elem_of_nil. done.
    + destruct tmp_hosts; [done|]. split; [by left|done].
Qed.

(** X9.  What the matcher ends with.  A run of lines 439-444 returns, or
    raises [IndexError] at [tmp[0]], or raises [AttributeError] at the
    [split] of line 442, which happens only with a host element that has
    no [id] and a reserved host.  When it returns, every host element had
    an identifier and has now the name of a reserved host, the one it had
    or a name that contains the cluster name of the one it had.  On host
    elements that all have an identifier the run is the one on the
    identifiers. *)
Theorem matcher_output (hosts : list string) (ids : list (option string)) :
  match match_host_elements hosts ids with
  | Ended (Return ids') =>
      Forall2 (λ id id', ∃ s, id = Some s
                              ∧ (id' = s ∨ contains (cluster_of s) id' = true))
              ids ids'
      ∧ (∀ id', id' ∈ ids' → id' ∈ map short_name hosts)
  | Ended (Raise e) => e = IndexError
  | Ended OutOfFuel => False
  | AttributeError => None ∈ ids ∧ hosts ≠ []
  end
  ∧ ∀ ss, match_host_elements hosts (Some <$> ss) = Ended (match_topology hosts ss).
Proof.
  split.
  - unfold match_host_elements.
    pose proof (match_elements_outcome ids (map short_name hosts)) as Hout.
    destruct (match_elements (map short_name hosts) ids)
      as [[[ids' tmp']|e|]|] eqn:Hm; try done.
    + destruct Hout as [ss ->]. rewrite match_elements_some in Hm.
      injection Hm as Hm.
      pose proof (match_topology_outcome hosts ss) as Ht.
      unfold match_topology in Ht. rewrite Hm in Ht. cbn [mbind outcome_bind] in Ht.
      destruct Ht as [Hrel Hin]. split; [|done].
      clear -Hrel. induction Hrel as [|s id' ss ids' H1 _ IH]; [constructor|].
      rewrite fmap_cons. constructor; [by exists s|done].
    + destruct Hout as [Hin Hne]. split; [done|]. intros ->. done.
  - intros ss. unfold match_host_elements, match_topology.
    rewrite match_elements_some.
    by destruct (match_hosts (map short_name hosts) ss) as [[ids' tmp']| |].
Qed.

Lemma match_hosts_distinct (ids : list string) :
  ∀ tmp_hosts ids' tmp',
  NoDup tmp_hosts → (∀ id, id ∈ ids → id ∉ tmp_hosts) →
  match_hosts tmp_hosts ids = Return (ids', tmp') →
  NoDup ids' ∧ NoDup tmp' ∧ tmp' ⊆ tmp_hosts
  ∧ ∀ x, x ∈ ids' → x ∈ tmp_hosts ∧ x ∉ tmp'.
Proof.
  induction ids as [|id ids IH]; intros tmp_hosts ids' tmp' Hnd Hids;
    cbn [match_hosts].
  - intros [= <- <-]. split_and!; [constructor|done|done|].
    by intros x ?%elem_of_nil.
  - rewrite match_host_absent by (apply Hids; left).
    destruct (List.filter _ _) as [|h tmp] eqn:Hf; [done|].
    assert (Hh : h ∈ tmp_hosts).
    { apply list_elem_of_In. eapply (proj1 (filter_In _ _ _)). rewrite Hf. by left. }
    destruct (py_remove h tmp_hosts) as [tmp1| |] eqn:Hr; [|done..].
    cbn [mbind outcome_bind].
    destruct (py_remove_NoDup h tmp_hosts tmp1 Hnd Hr) as (Hh1 & Hnd1 & Hsub1).
    destruct (match_hosts tmp1 ids) as [[rest tmp2]| |] eqn:H2; [|done..].
    cbn [mbind outcome_bind]. intros [= <- <-].
    apply IH in H2 as (Hndr & Hnd2 & Hsub2 & Hrest); [|done|].
    2:{ intros x Hx Hin. apply (Hids x); [by right|by apply Hsub1]. }
    split_and!.
    + apply NoDup_cons. split; [|done]. intros Hin. by apply Hrest in Hin as [? _].
    + done.
    + by etrans.
    + intros x [->|Hx]%elem_of_cons.
      * split; [done|]. intros Hin. by apply Hh1, Hsub2.
      * apply Hrest in Hx as [? ?]. split; [by apply Hsub1|done].
Qed.

(** X10.  One reserved host per logical host.  When the reserved hosts have
    distinct names and no identifier of the topology is the name of a
    reserved host, a run of the matcher that returns gives pairwise
    distinct reserved hosts to the host elements. *)
Theorem matcher_distinct_hosts (hosts ids ids' : list string) :
  NoDup (map short_name hosts) →
  (∀ id, id ∈ ids → id ∉ map short_name hosts) →
  match_topology hosts ids = Return ids' →
  NoDup ids' ∧ length ids' = length ids.
Proof.
  intros Hnd Hids. unfold match_topology.
  pose proof (match_hosts_outcome ids (map short_name hosts)) as Hout.
  destruct (match_hosts (map short_name hosts) ids) as [[l tmp']| |] eqn:Hm;
    [|done..].
  cbn [mbind outcome_bind]. intros [= <-].
  apply match_hosts_distinct in Hm as (Hl & _); [|done..].
  split; [done|]. symmetry. by eapply Forall2_length.
Qed.

Lemma matcher_distinct_hosts_witness :
  NoDup ["clusterA-1"; "clusterA-2"]
  ∧ length ["clusterA-1"; "clusterA-2"] = length ["clusterA-99"; "clusterA-98"].
Proof.
  apply (matcher_distinct_hosts
           ["clusterA-1.site.grid5000.fr"; "clusterA-2.site.grid5000.fr"]
           ["clusterA-99"; "clusterA-98"]).
  - apply (bool_decide_unpack (NoDup _)). vm_compute. exact I.
  - intros id Hid. apply list_elem_of_In in Hid. simpl in Hid.
    destruct Hid as [<-|[<-|[]]]; apply (bool_decide_unpack (_ ∉ _));
      vm_compute; exact I.
  - vm_compute. reflexivity.
Defined.

(** X11.  For a logical host that is not reserved under its own name, and
    reserved hosts of which none contains the cluster name of the logical
    host without being of that cluster, lines 441-444 take the first
    reserved host of the same cluster and remove it from the list, and
    raise [IndexError] when no reserved host of the cluster is left. *)
Theorem matcher_same_cluster (tmp_hosts : list string) (id : string) :
  id ∉ tmp_hosts →
  (∀ h, h ∈ tmp_hosts → contains (cluster_of id) h = true →
        cluster_of h = cluster_of id) →
  match_host tmp_hosts id =
  match List.filter (λ h, bool_decide (cluster_of h = cluster_of id)) tmp_hosts with
  | [] => Raise IndexError
  | h :: _ => tmp_hosts' ← py_remove h tmp_hosts; Return (h, tmp_hosts')
  end.
Proof. apply match_host_same_cluster. Qed.

Lemma matcher_same_cluster_witness :
  match_host ["parapide-1"; "sol-2"; "sol-3"] "sol-9"
  = match List.filter (λ h, bool_decide (cluster_of h = cluster_of "sol-9"))
                      ["parapide-1"; "sol-2"; "sol-3"] with
    | [] => Raise IndexError
    | h :: _ => tmp_hosts' ← py_remove h ["parapide-1"; "sol-2"; "sol-3"];
                Return (h, tmp_hosts')
    end.
Proof.
  apply (matcher_same_cluster ["parapide-1"; "sol-2"; "sol-3"] "sol-9").
  - apply (bool_decide_unpack (_ ∉ _)). vm_compute. exact I.
  - intros h Hh. apply list_elem_of_In in Hh. simpl in Hh.
    destruct Hh as [<-|[<-|[<-|[]]]]; vm_compute; intros H;
      first [discriminate H|reflexivity].
Defined.

End MatcherFacts.

Module FilterFacts.
Import SlotFinder SlotFinderFacts.

(** X12.  The sums and the test of a slot do not depend on the order in
    which [iteritems()] gives the entries of the slot: when every cluster
    has its attributes, the loop of lines 273-279 run over any listing of
    the entries gives what it gives on the listing of the model. *)
Theorem slot_scan_order (clusters : list string) (clusters_attr : gmap string attr)
    (resources : gmap string Z) (s : slot) (items : list (string * Z)) :
  attrs_cover clusters clusters_attr →
  items ≡ₚ map_to_list (slot_avail s) →
  scan_items clusters clusters_attr resources (Acc 0 0 true) items
  = scan_slot clusters clusters_attr resources s.
Proof. intros Hcover Hp. unfold scan_slot. by apply scan_items_perm. Qed.

Lemma slot_scan_order_witness :
  scan_items Sample.clusters Sample.clusters_attr Sample.resources
    (Acc 0 0 true) [("sol", 1); ("suno", 0); ("kavlan", 1)]
  = scan_slot Sample.clusters Sample.clusters_attr Sample.resources Sample.slot_a
  ∧ scan_items Sample.clusters Sample.clusters_attr Sample.resources
      (Acc 0 0 true) [("kavlan", 1); ("suno", 0); ("sol", 1)]
    = scan_slot Sample.clusters Sample.clusters_attr Sample.resources Sample.slot_a.
Proof.
  split; apply (slot_scan_order Sample.clusters Sample.clusters_attr Sample.resources
                  Sample.slot_a); try exact sample_attrs_cover.
  - apply NoDup_Permutation.
    + apply (bool_decide_unpack (NoDup _)). vm_compute. exact I.
    + apply NoDup_map_to_list.
    + intros [k v]. rewrite elem_of_map_to_list.
      rewrite !elem_of_cons, elem_of_nil. unfold Sample.slot_a. cbn [slot_avail].
      split.
      * intros [[= -> ->]|[[= -> ->]|[[= -> ->]|[]]]]; vm_compute; reflexivity.
      * intros H. apply lookup_insert_Some in H as [[<- <-]|[? H]]; [by left|].
        apply lookup_insert_Some in H as [[<- <-]|[? H]]; [right; by left|].
        apply lookup_singleton_Some in H as [<- <-]. right; right; by left.
  - apply NoDup_Permutation.
    + apply (bool_decide_unpack (NoDup _)). vm_compute. exact I.
    + apply NoDup_map_to_list.
    + intros [k v]. rewrite elem_of_map_to_list.
      rewrite !elem_of_cons, elem_of_nil. unfold Sample.slot_a. cbn [slot_avail].
      split.
      * intros [[= -> ->]|[[= -> ->]|[[= -> ->]|[]]]]; vm_compute; reflexivity.
      * intros H. apply lookup_insert_Some in H as [[<- <-]|[? H]]; [right; right; by left|].
        apply lookup_insert_Some in H as [[<- <-]|[? H]]; [right; by left|].
        apply lookup_singleton_Some in H as [<- <-]. by left.
Defined.

Lemma fetch_attrs_fold (get_host_attributes : string → host_attributes)
    (clusters : list string) (d : gmap string attr) (c : string) :
  foldl (λ d c, let a := get_host_attributes (c +:+ "-1") in
                <[c := Attr (smt_size a) (ram_size a / 1048576)]> d) d clusters !! c
  = if bool_decide (c ∈ clusters)
    then Some (Attr (smt_size (get_host_attributes (c +:+ "-1")))
                    (ram_size (get_host_attributes (c +:+ "-1")) / 1048576))
    else d !! c.
Proof.
  revert d. induction clusters as [|c0 clusters IH]; intros d; cbn [foldl].
  - done.
  - rewrite IH. destruct (decide (c = c0)) as [->|Hne].
    + rewrite lookup_insert_eq. rewrite (bool_decide_true (c0 ∈ c0 :: clusters))
        by left. by case_bool_decide.
    + rewrite lookup_insert_ne by done.
      case_bool_decide as H1; case_bool_decide as H2; try done.
      * exfalso. apply H2. by right.
      * exfalso. apply elem_of_cons in H2 as [?|?]; done.
Qed.

(** X13.  The attributes of the clusters.  The dict of lines 236-241 has an
    entry exactly for the clusters of the list; the entry of a cluster has
    the thread count of its first host as CPU count and the RAM of that
    host in MB, the bytes divided by 1048576 and rounded down. *)
Theorem fetch_attrs_lookup (get_host_attributes : string → host_attributes)
    (clusters : list string) (c : string) :
  fetch_attrs get_host_attributes clusters !! c
  = if bool_decide (c ∈ clusters)
    then Some (Attr (smt_size (get_host_attributes (c +:+ "-1")))
                    (ram_size (get_host_attributes (c +:+ "-1")) / 1048576))
    else None.
Proof. unfold fetch_attrs. by rewrite fetch_attrs_fold, lookup_empty. Qed.

Section Compose.

Variable clusters : list string.
Variable clusters_attr : gmap string attr.
Variable resources : gmap string Z.

Hypothesis Hcover : attrs_cover clusters clusters_attr.

Lemma filter_loop_filter total_mem total_cpu slots :
  filter_loop clusters clusters_attr resources total_mem total_cpu slots slots
  = Return (filter (λ s, keepb clusters clusters_attr resources total_mem total_cpu s
                         = true) slots).
Proof.
  apply (filter_loop_inv _ _ _ _ _ Hcover slots []). by intros s ?%elem_of_nil.
Qed.

Lemma keepb_mono total_mem total_cpu total_mem' total_cpu' s :
  total_mem ≤ total_mem' → total_cpu ≤ total_cpu' →
  keepb clusters clusters_attr resources total_mem' total_cpu' s = true →
  keepb clusters clusters_attr resources total_mem total_cpu s = true.
Proof.
  intros Hm Hc. rewrite !keepb_iff by done. intros Hn Hi. apply Hn.
  assert (total_cpu / 2 ≤ total_cpu' / 2) by (apply Z.div_le_mono; lia).
  destruct Hi as [?|[?|?]]; [left; lia|right; left; lia|by do 2 right].
Qed.

Lemma filter_sublist_impl {A} (P Q : A → Prop) `{∀ x, Decision (P x)}
    `{∀ x, Decision (Q x)} (l : list A) :
  (∀ x, P x → Q x) → filter P l `sublist_of` filter Q l.
Proof.
  intros HPQ. induction l as [|x l IH]; [done|].
  rewrite !filter_cons. destruct (decide (P x)) as [HP|HP].
  - rewrite decide_True by auto. by constructor.
  - destruct (decide (Q x)); [by constructor|done].
Qed.

Lemma filter_filter_same {A} (P : A → Prop) `{∀ x, Decision (P x)} (l : list A) :
  filter P (filter P l) = filter P l.
Proof.
  induction l as [|x l IH]; [done|]. rewrite filter_cons.
  destruct (decide (P x)) as [HP|HP]; [|done].
  rewrite filter_cons, decide_True by done. by rewrite IH.
Qed.

End Compose.

(** X14.  Filtering again and asking for less.  On the slots that the loop
    of lines 267-283 has left, the loop removes nothing; and with a
    request for no more memory and no more CPU, the loop leaves every
    slot that it left for the larger request, in the same order. *)
Theorem filter_loop_again_and_less (clusters : list string)
    (clusters_attr : gmap string attr) (resources : gmap string Z)
    (total_mem total_cpu total_mem' total_cpu' : Z) (slots : list slot) :
  attrs_cover clusters clusters_attr →
  total_mem ≤ total_mem' → total_cpu ≤ total_cpu' →
  ∃ kept kept',
    filter_loop clusters clusters_attr resources total_mem total_cpu slots slots
      = Return kept
    ∧ filter_loop clusters clusters_attr resources total_mem total_cpu kept kept
      = Return kept
    ∧ filter_loop clusters clusters_attr resources total_mem' total_cpu' slots slots
      = Return kept'
    ∧ kept' `sublist_of` kept.
Proof.
  intros Hcover Hm Hc. eexists _, _. split_and!.
  - by apply filter_loop_filter.
  - rewrite filter_loop_filter by done. by rewrite filter_filter_same.
  - by apply filter_loop_filter.
  - apply filter_sublist_impl. intros s. by apply keepb_mono.
Qed.

Lemma filter_loop_again_and_less_witness :
  ∃ kept kept',
    filter_loop Sample.clusters Sample.clusters_attr Sample.resources 20000 8
      [Sample.slot_a; Sample.slot_b; Sample.slot_c]
      [Sample.slot_a; Sample.slot_b; Sample.slot_c] = Return kept
    ∧ filter_loop Sample.clusters Sample.clusters_attr Sample.resources 20000 8
        kept kept = Return kept
    ∧ filter_loop Sample.clusters Sample.clusters_attr Sample.resources 50000 8
        [Sample.slot_a; Sample.slot_b; Sample.slot_c]
        [Sample.slot_a; Sample.slot_b; Sample.slot_c] = Return kept'
    ∧ kept' `sublist_of` kept.
Proof.
  apply (filter_loop_again_and_less Sample.clusters Sample.clusters_attr
           Sample.resources 20000 8 50000 8).
  - exact sample_attrs_cover.
  - lia.
  - lia.
Defined.

End FilterFacts.

Module RequestFacts.
Import Request.

Lemma split_on_none (c : ascii) (s : string) :
  occurs c s = false → split_on c s = [s].
Proof.
  induction s as [|a s IH]; [done|]. cbn [occurs split_on].
  destruct (decide (a = c)); [done|]. intros Hs. by rewrite IH.
Qed.

Lemma split_on_app (c : ascii) (s r : string) :
  occurs c s = false → split_on c (s +:+ String c r) = s :: split_on c r.
Proof.
  induction s as [|a s IH]; cbn [occurs].
  - intros _. change ("" +:+ String c r) with (String c r). cbn [split_on].
    by rewrite decide_True.
  - destruct (decide (a = c)); [done|]. intros Hs.
    change (String a s +:+ String c r) with (String a (s +:+ String c r)).
    cbn [split_on]. rewrite decide_False by done. by rewrite IH.
Qed.

(** Joining pieces without the separator and splitting gives the pieces. *)
Lemma split_on_join (c : ascii) (l : list string) :
  l ≠ [] → Forall (λ s, occurs c s = false) l →
  split_on c (join (String c "") l) = l.
Proof.
  induction l as [|s l IH]; [done|]. intros _ Hl.
  apply Forall_cons in Hl as [Hs Hl]. destruct l as [|s' l].
  - cbn [join]. by apply split_on_none.
  - change (join (String c "") (s :: s' :: l))
      with (s +:+ String c "" +:+ join (String c "") (s' :: l)).
    change (String c "" +:+ ?x) with (String c x).
    rewrite split_on_app by done. by rewrite IH.
Qed.

Lemma occurs_app (c : ascii) (s r : string) :
  occurs c (s +:+ r) = occurs c s || occurs c r.
Proof.
  induction s as [|a s IH]; [done|].
  change (String a s +:+ r) with (String a (s +:+ r)). cbn [occurs].
  by destruct (decide (a = c)).
Qed.

Lemma split_on_length (c : ascii) (s : string) : (1 ≤ length (split_on c s))%nat.
Proof.
  induction s as [|a s IH]; cbn [split_on]; [simpl; lia|].
  destruct (decide (a = c)); [simpl; lia|].
  destruct (split_on c s); simpl in *; lia.
Qed.

Lemma split_on_length_app (c : ascii) (s r : string) :
  length (split_on c (s +:+ String c r))
  = (length (split_on c s) + length (split_on c r))%nat.
Proof.
  induction s as [|a s IH].
  - change ("" +:+ String c r) with (String c r). cbn [split_on].
    by rewrite decide_True.
  - change (String a s +:+ String c r) with (String a (s +:+ String c r)).
    cbn [split_on]. destruct (decide (a = c)); [simpl; lia|].
    pose proof (split_on_length c s) as Hs.
    pose proof (split_on_length c (s +:+ String c r)) as Hsr.
    destruct (split_on c (s +:+ String c r)), (split_on c s); simpl in *; lia.
Qed.

Section ParseFacts.
Variable py_int : string → outcome Z.

Lemma parse_element_plain (m : gmap string Z) (name : string) :
  occurs ":" name = false →
  parse_element py_int m name = Return (<[name := 0]> m).
Proof. intros Hn. unfold parse_element. by rewrite Hn. Qed.

Lemma parse_element_counted (m : gmap string Z) (name text : string) (n : Z) :
  occurs ":" name = false → occurs ":" text = false →
  py_int text = Return n →
  parse_element py_int m (name +:+ ":" +:+ text) = Return (<[name := n]> m).
Proof.
  intros Hn Ht Hi. unfold parse_element.
  rewrite occurs_app. change (":" +:+ text) with (String ":" text).
  cbn [occurs]. rewrite decide_True by done. rewrite orb_true_r.
  rewrite split_on_app by done. rewrite (split_on_none _ text) by done.
  by rewrite Hi.
Qed.

Lemma render_no_comma (value : string → Z) (e : string * option string) :
  well_formed py_int value e → occurs "," (render e) = false.
Proof.
  intros (Hc & _ & Ht). destruct e as [name [t|]]; unfold render; simpl in *; [|done].
  destruct (Ht t eq_refl) as (Htc & _ & _).
  rewrite !occurs_app, Hc, Htc. done.
Qed.

Lemma parse_element_render (value : string → Z) (m : gmap string Z)
    (e : string * option string) :
  well_formed py_int value e →
  parse_element py_int m (render e)
  = Return (<[e.1 := from_option value 0 e.2]> m).
Proof.
  intros (_ & Hn & Ht). destruct e as [name [t|]]; unfold render; simpl in *.
  - destruct (Ht t eq_refl) as (_ & Htn & Hi). by apply parse_element_counted.
  - by apply parse_element_plain.
Qed.

Lemma parse_elements_render (value : string → Z) (elems : list (string * option string))
    (m : gmap string Z) :
  Forall (well_formed py_int value) elems →
  parse_elements py_int m (map render elems)
  = Return (foldl (λ m e, <[e.1 := from_option value 0 e.2]> m) m elems).
Proof.
  revert m. induction elems as [|e elems IH]; intros m Hw; [done|].
  apply Forall_cons in Hw as [He Hw]. cbn [map parse_elements foldl].
  rewrite (parse_element_render value) by done. simpl. by apply IH.
Qed.

End ParseFacts.

(** X15.  Lines 195-201 read back what the user wrote: for a list of
    elements written as [name] or [name:count] and joined by commas, no
    name or count holding a comma or a colon and every count a text that
    [int] accepts, the table built holds each name with the value of its
    count, 0 for a name without count, and the last element of a name
    written several times decides. *)
Theorem parse_resources_rendered (py_int : string → outcome Z)
    (value : string → Z) (elems : list (string * option string)) :
  elems ≠ [] →
  Forall (λ e, occurs "," e.1 = false ∧ occurs ":" e.1 = false ∧
               ∀ t, e.2 = Some t →
                 occurs "," t = false ∧ occurs ":" t = false ∧
                 py_int t = Return (value t)) elems →
  parse_resources py_int (join "," (map render elems))
  = Return (requested value elems).
Proof.
  intros Hne Hw. unfold parse_resources, requested.
  rewrite (split_on_join "," (map render elems)).
  - by apply parse_elements_render.
  - by destruct elems.
  - apply Forall_map. eapply Forall_impl; [exact Hw|].
    intros e He. by apply (render_no_comma py_int value).
Qed.

(** X16.  An element with two colons stops the program: line 198 unpacks
    the pieces of the element into two names, and there are three or more,
    whatever stands between the colons and whatever [int] would say. *)
Theorem parse_element_two_colons (py_int : string → outcome Z)
    (m : gmap string Z) (a b c : string) :
  parse_element py_int m (a +:+ ":" +:+ b +:+ ":" +:+ c) = Raise ValueError.
Proof.
  unfold parse_element.
  change (":" +:+ b +:+ ":" +:+ c) with (String ":" (b +:+ String ":" c)).
  rewrite occurs_app. cbn [occurs]. rewrite decide_True by done.
  rewrite orb_true_r.
  pose proof (split_on_length_app ":" a (b +:+ String ":" c)) as Hl.
  rewrite (split_on_length_app ":" b c) in Hl.
  pose proof (split_on_length ":" a). pose proof (split_on_length ":" b).
  pose proof (split_on_length ":" c).
  destruct (split_on ":" (a +:+ String ":" (b +:+ String ":" c)))
    as [|? [|? [|? ?]]]; simpl in *; try lia; done.
Qed.

Lemma parse_resources_rendered_witness :
  parse_resources digits_int "sol:2,suno,sol:10"
  = Return (<["sol" := 10]> (<["suno" := 0]> (<["sol" := 2]> ∅))).
Proof.
  apply (parse_resources_rendered digits_int
           (λ t, match digits_int t with Return n => n | _ => 0 end)
           [("sol", Some "2"); ("suno", None); ("sol", Some "10")]).
  - done.
  - repeat (apply Forall_cons; split); try apply Forall_nil_2;
      (split; [reflexivity|split; [reflexivity|]]);
      intros t Ht; try discriminate Ht; injection Ht as <-;
      repeat split; reflexivity.
Defined.

End RequestFacts.

Module ElementsFacts.
Import Elements.

Lemma reset_lookup (l : list string) (r : gmap string Z) (k : string) :
  reset l r !! k = if decide (k ∈ l) then Some 0 else r !! k.
Proof.
  unfold reset. revert r. induction l as [|x l IH]; intros r; [done|].
  cbn [foldl]. rewrite IH. destruct (decide (k ∈ l)) as [Hl|Hl].
  - rewrite decide_True; [done|]. by apply elem_of_cons; right.
  - destruct (decide (k = x)) as [->|Hx].
    + rewrite decide_True by (apply elem_of_cons; by left).
      by rewrite lookup_insert_eq.
    + rewrite decide_False by (intros [?|?]%elem_of_cons; done).
      by rewrite lookup_insert_ne.
Qed.

Section ResolveFacts.
Variable g5k_sites : list string.
Variable g5k_clusters : list string.
Variable virtual_clusters : list string.
Variable site_clusters : string → list string.
Variable get_cluster_site : string → string.

Local Abbreviation resolve_loop :=
  (resolve_loop g5k_sites g5k_clusters virtual_clusters site_clusters get_cluster_site).
Local Abbreviation resolve :=
  (resolve g5k_sites g5k_clusters virtual_clusters site_clusters get_cluster_site).
Local Abbreviation known := (known g5k_sites g5k_clusters).

Lemma resolve_loop_known (pre rest : list string) (r : gmap string Z)
    (cl st : list string) :
  Forall known pre →
  resolve_loop (pre ++ rest) r cl st
  = resolve_loop rest r
      (cl ++ concat (map (λ e, if decide (e ∈ g5k_sites) then site_clusters e else [e]) pre))
      (st ++ map (λ e, if decide (e ∈ g5k_sites) then e else get_cluster_site e) pre).
Proof.
  revert cl st. induction pre as [|e pre IH]; intros cl st Hk.
  - simpl. by rewrite !app_nil_r.
  - apply Forall_cons in Hk as [[Hg He] Hk]. cbn [app resolve_loop Elements.resolve_loop].
    rewrite decide_False by done. cbn [map concat].
    destruct (decide (e ∈ g5k_sites)) as [Hs|Hs].
    + rewrite IH by done. by rewrite <- !app_assoc.
    + rewrite decide_True by (by destruct He). rewrite IH by done.
      by rewrite <- !app_assoc.
Qed.

End ResolveFacts.

(** X17.  The element [grid5000] resets the request.  When the keys of the
    table come in an order where only known sites and clusters stand before
    [grid5000], lines 213-220 set the count of every site and of every
    cluster of the platform to 0, whatever count the user gave them, leave
    the other entries as they are and keep all sites and all clusters; the
    keys after [grid5000] are not looked at, known or not. *)
Theorem grid5000_resets_request (g5k_sites g5k_clusters virtual_clusters : list string)
    (site_clusters : string → list string) (get_cluster_site : string → string)
    (pre post : list string) (resources : gmap string Z) :
  Forall (λ e, e ≠ "grid5000" ∧ (e ∈ g5k_sites ∨ e ∈ g5k_clusters)) pre →
  ∃ r, resolve g5k_sites g5k_clusters virtual_clusters site_clusters get_cluster_site
         (pre ++ "grid5000" :: post) resources
       = Return (r, list_to_set virtual_clusters, list_to_set g5k_sites)
     ∧ ∀ k, r !! k = if decide (k ∈ g5k_sites ∨ k ∈ virtual_clusters)
                     then Some 0 else resources !! k.
Proof.
  intros Hk. eexists. split.
  - unfold resolve. rewrite resolve_loop_known by exact Hk.
    cbn [resolve_loop]. rewrite decide_True by done. reflexivity.
  - intros k. rewrite !reset_lookup.
    destruct (decide (k ∈ virtual_clusters)), (decide (k ∈ g5k_sites)).
    + rewrite decide_True; tauto.
    + rewrite decide_True; tauto.
    + rewrite decide_True; tauto.
    + rewrite decide_False; tauto.
Qed.

(** X18.  An element that is neither [grid5000] nor a site nor a cluster
    ends the program at line 229 when the loop reaches it, that is when only
    known sites and clusters stand before it among the keys. *)
Theorem unknown_element_exits (g5k_sites g5k_clusters virtual_clusters : list string)
    (site_clusters : string → list string) (get_cluster_site : string → string)
    (pre post : list string) (e : string)
    (resources : gmap string Z) :
  Forall (λ e, e ≠ "grid5000" ∧ (e ∈ g5k_sites ∨ e ∈ g5k_clusters)) pre →
  e ≠ "grid5000" → e ∉ g5k_sites → e ∉ g5k_clusters →
  resolve g5k_sites g5k_clusters virtual_clusters site_clusters get_cluster_site
    (pre ++ e :: post) resources = Raise SystemExit.
Proof.
  intros Hk Hg Hs Hc. unfold resolve.
  rewrite resolve_loop_known by exact Hk. cbn [resolve_loop].
  by rewrite !decide_False by done.
Qed.

(** X19.  Without [grid5000], a request of known sites and clusters is
    kept as it is, and lines 221-231 give the clusters and sites it names: a
    cluster is kept when it is requested itself or belongs to a requested
    site, a site when it is requested itself or is the site of a requested
    cluster. *)
Theorem known_elements_resolved (g5k_sites g5k_clusters virtual_clusters : list string)
    (site_clusters : string → list string) (get_cluster_site : string → string)
    (keys : list string) (resources : gmap string Z) :
  Forall (λ e, e ≠ "grid5000" ∧ (e ∈ g5k_sites ∨ e ∈ g5k_clusters)) keys →
  ∃ clusters sites : gset string,
    resolve g5k_sites g5k_clusters virtual_clusters site_clusters get_cluster_site keys resources
    = Return (resources, clusters, sites)
    ∧ (∀ c, c ∈ clusters ↔
         ∃ e, e ∈ keys ∧ (e ∈ g5k_sites ∧ c ∈ site_clusters e
                          ∨ (e ∉ g5k_sites) ∧ c = e))
    ∧ (∀ s, s ∈ sites ↔
         ∃ e, e ∈ keys ∧ (e ∈ g5k_sites ∧ s = e
                          ∨ (e ∉ g5k_sites) ∧ s = get_cluster_site e)).
Proof.
  intros Hk. eexists _, _. split; [|split].
  - unfold resolve.
    rewrite <- (app_nil_r keys) at 1.
    rewrite resolve_loop_known by exact Hk. cbn [resolve_loop].
    reflexivity.
  - intros c. rewrite elem_of_list_to_set. simpl. rewrite elem_of_concat.
    split.
    + intros (l & Hc & (e & -> & He)%list_elem_of_fmap). exists e. split; [done|].
      destruct (decide (e ∈ g5k_sites)); [by left|].
      right. by apply list_elem_of_singleton in Hc.
    + intros (e & He & Hc).
      exists (if decide (e ∈ g5k_sites) then site_clusters e else [e]). split.
      * destruct Hc as [[Hs Hc]|[Hs ->]].
        -- by rewrite decide_True.
        -- rewrite decide_False by done. by apply list_elem_of_singleton.
      * apply list_elem_of_fmap. by exists e.
  - intros s. rewrite elem_of_list_to_set. simpl. rewrite list_elem_of_fmap.
    split.
    + intros (e & -> & He). exists e. split; [done|].
      destruct (decide (e ∈ g5k_sites)); [by left|by right].
    + intros (e & He & Hs). exists e. split; [|done].
      destruct Hs as [[Hs ->]|[Hs ->]].
      * by rewrite decide_True.
      * by rewrite decide_False.
Qed.

Lemma grid5000_resets_request_witness :
  ∃ r, Platform.resolve ["sophia"; "grid5000"; "paris"]
         {[ "sophia" := 5; "grid5000" := 0; "paris" := 0 ]}
       = Return (r, list_to_set Platform.clusters, list_to_set Platform.sites)
     ∧ ∀ k, r !! k = if decide (k ∈ Platform.sites ∨ k ∈ Platform.clusters)
                     then Some 0
                     else ({[ "sophia" := 5; "grid5000" := 0; "paris" := 0 ]}
                             : gmap string Z) !! k.
Proof.
  apply (grid5000_resets_request Platform.sites Platform.clusters Platform.clusters
           Platform.clusters_in Platform.site_of ["sophia"] ["paris"]).
  apply Forall_cons. split; [|apply Forall_nil_2].
  split; [discriminate|]. left. apply (bool_decide_unpack _). vm_compute. exact I.
Defined.

Lemma unknown_element_exits_witness :
  Platform.resolve ["sol"; "paris"; "grid5000"]
    {[ "sol" := 1; "paris" := 0; "grid5000" := 0 ]}
  = Raise SystemExit.
Proof.
  apply (unknown_element_exits Platform.sites Platform.clusters Platform.clusters
           Platform.clusters_in Platform.site_of ["sol"] ["grid5000"] "paris").
  - apply Forall_cons. split; [|apply Forall_nil_2].
    split; [discriminate|]. right. apply (bool_decide_unpack _). vm_compute. exact I.
  - discriminate.
  - apply (bool_decide_unpack _). vm_compute. exact I.
  - apply (bool_decide_unpack _). vm_compute. exact I.
Defined.

Lemma known_elements_resolved_witness :
  ∃ clusters sites : gset string,
    Platform.resolve ["nancy"; "sol"] {[ "nancy" := 0; "sol" := 2 ]}
    = Return ({[ "nancy" := 0; "sol" := 2 ]}, clusters, sites)
    ∧ (∀ c, c ∈ clusters ↔
         ∃ e, e ∈ ["nancy"; "sol"]
              ∧ (e ∈ Platform.sites ∧ c ∈ Platform.clusters_in e
                 ∨ (e ∉ Platform.sites) ∧ c = e))
    ∧ (∀ s, s ∈ sites ↔
         ∃ e, e ∈ ["nancy"; "sol"]
              ∧ (e ∈ Platform.sites ∧ s = e
                 ∨ (e ∉ Platform.sites) ∧ s = Platform.site_of e)).
Proof.
  apply (known_elements_resolved Platform.sites Platform.clusters Platform.clusters
           Platform.clusters_in Platform.site_of ["nancy"; "sol"]).
  apply Forall_cons. split; [|apply Forall_cons; split; [|apply Forall_nil_2]].
  - split; [discriminate|]. left. apply (bool_decide_unpack _). vm_compute. exact I.
  - split; [discriminate|]. right. apply (bool_decide_unpack _). vm_compute. exact I.
Defined.

(** *** The sites of the clusters (lines 387-404) *)

Section Collect.
Context {A : Type} (f : A → string).

Lemma collect_fold (l : list A) (acc : list string) :
  NoDup acc →
  NoDup (foldl (λ acc x, if decide (f x ∈ acc) then acc else acc ++ [f x]) acc l)
  ∧ ∀ y, y ∈ foldl (λ acc x, if decide (f x ∈ acc) then acc else acc ++ [f x]) acc l
         ↔ y ∈ acc ∨ ∃ x, x ∈ l ∧ f x = y.
Proof.
  revert acc. induction l as [|x l IH]; intros acc Hnd; cbn [foldl].
  - split; [done|]. intros y. split; [by left|].
    intros [?|(x & ?%elem_of_nil & _)]; done.
  - destruct (decide (f x ∈ acc)) as [Hin|Hin].
    + destruct (IH acc Hnd) as [Hnd' Hmem]. split; [done|].
      intros y. rewrite Hmem. split.
      * intros [?|(x' & Hx' & <-)]; [by left|].
        right. exists x'. split; [|done]. apply elem_of_cons. by right.
      * intros [?|(x' & [->|Hx']%elem_of_cons & <-)]; [by left|by left|].
        right. by exists x'.
    + assert (NoDup (acc ++ [f x])) as Hnd2.
      { apply NoDup_app. split; [done|]. split; [|apply NoDup_singleton].
        intros y Hy ->%list_elem_of_singleton. done. }
      destruct (IH _ Hnd2) as [Hnd' Hmem]. split; [done|].
      intros y. rewrite Hmem, elem_of_app, list_elem_of_singleton. split.
      * intros [[?| ->]|(x' & Hx' & <-)]; [by left| |].
        -- right. exists x. split; [|done]. apply elem_of_cons. by left.
        -- right. exists x'. split; [|done]. apply elem_of_cons. by right.
      * intros [?|(x' & [->|Hx']%elem_of_cons & <-)].
        -- left. by left.
        -- left. by right.
        -- right. by exists x'.
Qed.

Lemma collect_NoDup (l : list A) : NoDup (collect f l).
Proof. apply (collect_fold l []). apply NoDup_nil_2. Qed.

Lemma collect_elem_of (l : list A) (y : string) :
  y ∈ collect f l ↔ ∃ x, x ∈ l ∧ f x = y.
Proof.
  unfold collect. destruct (collect_fold l [] (NoDup_nil_2)) as [_ Hmem].
  rewrite Hmem. split; [|by right]. by intros [?%elem_of_nil|?].
Qed.

Lemma collect_single (l : list A) :
  length (collect f l) = 1%nat ↔ l ≠ [] ∧ ∀ x x', x ∈ l → x' ∈ l → f x = f x'.
Proof.
  pose proof (collect_NoDup l) as Hnd. pose proof (collect_elem_of l) as Hmem.
  split.
  - intros Hlen. destruct (collect f l) as [|y [|? ?]] eqn:Hc; try done.
    split.
    + intros ->. done.
    + intros x x' Hx Hx'.
      assert (f x ∈ [y]) as ->%list_elem_of_singleton by (apply Hmem; by exists x).
      assert (f x' ∈ [y]) as ->%list_elem_of_singleton by (apply Hmem; by exists x').
      done.
  - intros [Hne Hsame]. destruct l as [|x0 l]; [done|].
    assert (∀ y, y ∈ collect f (x0 :: l) → y = f x0) as Hall.
    { intros y (x & Hx & <-)%Hmem. apply Hsame; [done|]. apply elem_of_cons. by left. }
    assert (f x0 ∈ collect f (x0 :: l)) as H0.
    { apply Hmem. exists x0. split; [|done]. apply elem_of_cons. by left. }
    destruct (collect f (x0 :: l)) as [|a [|b t]]; [by apply elem_of_nil in H0|done|].
    exfalso. apply NoDup_cons in Hnd as [Ha _]. apply Ha.
    rewrite (Hall a) by (apply elem_of_cons; by left).
    rewrite (Hall b) by (apply elem_of_cons; right; apply elem_of_cons; by left).
    apply elem_of_cons. by left.
Qed.

End Collect.

(** X20.  Lines 387-391 and 400-404 list each cluster of the hosts, or
    each site of the clusters, once: the list has no duplicate, holds
    exactly the values met, and has one member exactly when there is at
    least one host or cluster and all of them give the same value. *)
Theorem collect_once {A} (f : A → string) (l : list A) :
  NoDup (collect f l)
  ∧ (∀ y, y ∈ collect f l ↔ ∃ x, x ∈ l ∧ f x = y)
  ∧ (length (collect f l) = 1%nat ↔ l ≠ [] ∧ ∀ x x', x ∈ l → x' ∈ l → f x = f x').
Proof.
  split; [apply collect_NoDup|]. split; [apply collect_elem_of|apply collect_single].
Qed.

(** X21.  Lines 400-416 together: an address of the network enters the
    pool when its last octet is not 0 and its third octet is at least 216,
    or, for clusters that all belong to one site, greater than
    [(kavlan_id - 4) * 64 + 2]; the rule of a single site applies exactly
    when there is a cluster and all clusters have the same site. *)
Theorem single_site_addresses (get_cluster_site : string → string)
    (clusters : list string) (kavlan_id : Z) (hosts : list Z) (ip : Z) :
  ip ∈ Net.vm_ip_of (collect get_cluster_site clusters) kavlan_id hosts ↔
  ip ∈ hosts ∧ Net.word 3 ip ≠ 0
  ∧ ((clusters ≠ []
      ∧ (∀ c c', c ∈ clusters → c' ∈ clusters →
                 get_cluster_site c = get_cluster_site c')
      ∧ Net.word 2 ip > (kavlan_id - 4) * 64 + 2)
     ∨ Net.word 2 ip >= 216).
Proof.
  rewrite NetFacts.vm_ip_of_filter, list_elem_of_filter. unfold Net.keeps.
  rewrite collect_single. tauto.
Qed.

End ElementsFacts.

Module KavlanFacts.
Import Kavlan.

(** X22.  Lines 356-370 take the VLAN of the first job that has one, with
    the site of that job, and end the program exactly when no job of the
    grid job has a VLAN. *)
Theorem find_kavlan_first (get_oar_job_kavlan : Z → string → option Z)
    (subjobs : list (Z * string)) :
  (∀ vlan site,
     find_kavlan get_oar_job_kavlan subjobs = Return (vlan, site) ↔
     ∃ pre job post,
       subjobs = pre ++ (job, site) :: post
       ∧ Forall (λ sj, get_oar_job_kavlan sj.1 sj.2 = None) pre
       ∧ get_oar_job_kavlan job site = Some vlan)
  ∧ (find_kavlan get_oar_job_kavlan subjobs = Raise SystemExit ↔
     Forall (λ sj, get_oar_job_kavlan sj.1 sj.2 = None) subjobs).
Proof.
  induction subjobs as [|[job0 site0] subjobs [IHr IHe]]; cbn [find_kavlan fst snd].
  - split.
    + intros vlan site. split; [done|]. intros (pre & job & post & H & _).
      by destruct pre.
    + split; [intros _; apply Forall_nil_2|done].
  - destruct (get_oar_job_kavlan job0 site0) as [v|] eqn:Hv.
    + split.
      * intros vlan site. split.
        -- intros [= <- <-]. exists [], job0, subjobs. split; [done|].
           split; [apply Forall_nil_2|done].
        -- intros (pre & job & post & Heq & Hpre & Hj). destruct pre as [|p pre].
           ++ injection Heq as -> -> ->. rewrite Hv in Hj. by injection Hj as ->.
           ++ injection Heq as <- ->. apply Forall_cons in Hpre as [Hp _].
              simpl in Hp. congruence.
      * split; [done|]. intros [H0 _]%Forall_cons. simpl in H0. congruence.
    + split.
      * intros vlan site. rewrite IHr. split.
        -- intros (pre & job & post & -> & Hpre & Hj).
           exists ((job0, site0) :: pre), job, post. split; [done|].
           split; [|done]. apply Forall_cons. by split.
        -- intros (pre & job & post & Heq & Hpre & Hj). destruct pre as [|p pre].
           ++ injection Heq as -> -> ->. congruence.
           ++ injection Heq as <- ->. apply Forall_cons in Hpre as [_ Hpre].
              by exists pre, job, post.
      * rewrite IHe. split.
        -- intros H. apply Forall_cons. by split.
        -- by intros [_ H]%Forall_cons.
Qed.

End KavlanFacts.

Module MachinesFacts.
Import Machines.

Lemma vm_name_inj (i j : Z) : vm_name i = vm_name j → i = j.
Proof.
  unfold vm_name. intros H.
  change (String "v" (String "m" (String "-" (pretty i)))
          = String "v" (String "m" (String "-" (pretty j)))) in H.
  injection H as H. by apply (inj pretty) in H.
Qed.

Lemma cpusets_fold {V} (cpuset : V) (l : list Z) (d : gmap string V) (name : string) :
  foldl (λ d i_vm, <[vm_name i_vm := cpuset]> d) d l !! name
  = if decide (name ∈ vm_name <$> l) then Some cpuset else d !! name.
Proof.
  revert d. induction l as [|i l IH]; intros d; [done|].
  cbn [foldl]. rewrite IH. rewrite fmap_cons.
  destruct (decide (name ∈ vm_name <$> l)) as [Hl|Hl].
  - rewrite decide_True; [done|]. apply elem_of_cons. by right.
  - destruct (decide (name = vm_name i)) as [->|Hi].
    + rewrite decide_True by (apply elem_of_cons; by left).
      by rewrite lookup_insert_eq.
    + rewrite decide_False by (intros [?|?]%elem_of_cons; done).
      by rewrite lookup_insert_ne.
Qed.

Lemma cpusets_fold_size {V} (cpuset : V) (l : list Z) (d : gmap string V) :
  NoDup l → (∀ i, i ∈ l → d !! vm_name i = None) →
  size (foldl (λ d i_vm, <[vm_name i_vm := cpuset]> d) d l)
  = (size d + length l)%nat.
Proof.
  revert d. induction l as [|i l IH]; intros d Hnd Hfresh; cbn [foldl length].
  - lia.
  - apply NoDup_cons in Hnd as [Hi Hnd]. rewrite IH; [|done|].
    + rewrite map_size_insert_None; [lia|]. apply Hfresh. apply elem_of_cons. by left.
    + intros j Hj. rewrite lookup_insert_ne.
      * apply Hfresh. apply elem_of_cons. by right.
      * intros ->%vm_name_inj. done.
Qed.

(** X23.  Line 525 gives every virtual machine its own entry: the
    dictionary holds the cpuset of the template under the names [vm-0] to
    [vm-(n_vm - 1)] and nothing else, and it has as many entries as there
    are machines, none when [n_vm] is negative. *)
Theorem cpusets_one_per_vm {V} (n_vm : Z) (cpuset : V) :
  (∀ name c, cpusets n_vm cpuset !! name = Some c ↔
             c = cpuset ∧ ∃ i, 0 ≤ i < n_vm ∧ name = vm_name i)
  ∧ size (cpusets n_vm cpuset) = Z.to_nat n_vm.
Proof.
  unfold cpusets. split.
  - intros name c. rewrite cpusets_fold, lookup_empty.
    destruct (decide (name ∈ vm_name <$> seqZ 0 n_vm)) as [Hin|Hin].
    + apply list_elem_of_fmap in Hin as (i & -> & Hi%elem_of_seqZ). split.
      * intros [= <-]. split; [done|]. exists i. split; [lia|done].
      * by intros [-> _].
    + split; [done|]. intros [_ (i & Hi & ->)]. exfalso. apply Hin.
      apply list_elem_of_fmap. exists i. split; [done|]. apply elem_of_seqZ. lia.
  - rewrite cpusets_fold_size.
    + rewrite map_size_empty, length_seqZ. lia.
    + apply NoDup_seqZ.
    + intros i _. apply lookup_empty.
Qed.

(** X24.  The pairs are drawn at line 421 for the number of machines asked
    for, which is cut afterwards (lines 445-451 and 474-476): the number of
    machines finally defined never exceeds the number asked for, and it is
    covered by the pairs issued exactly when it is covered by the pool of
    addresses. *)
Theorem defined_vms_paired (sites : list string) (kavlan_id : Z) (rnd : nat → Z)
    (fuel : nat) (ips : Net.IPNetwork) (placement_given : bool)
    (n_vm hosts_max_vms n_hosts : Z) (pairs : list (string * string)) :
  0 ≤ n_vm →
  Net.allocate sites kavlan_id rnd fuel ips n_vm = Return pairs →
  defined_vms placement_given n_vm hosts_max_vms n_hosts ≤ n_vm
  ∧ (defined_vms placement_given n_vm hosts_max_vms n_hosts ≤ Z.of_nat (length pairs)
     ↔ defined_vms placement_given n_vm hosts_max_vms n_hosts
       ≤ Z.of_nat (length (Net.vm_ip_of sites kavlan_id (Net.iter_hosts ips)))).
Proof.
  intros Hn. unfold Net.allocate.
  set (pool := Net.vm_ip_of sites kavlan_id (Net.iter_hosts ips)).
  destruct (Net.generate _ _ _ _) as [g| |] eqn:Hg; [|done..].
  cbn [mbind outcome_bind]. intros [= <-].
  apply NetFacts.generate_spec in Hg as (_ & Hip).
  rewrite NetFacts.slice_to_nonneg in Hip by done.
  assert (Hlen : length (Net.ip_mac g) = Nat.min (Z.to_nat n_vm) (length pool)).
  { rewrite <- (length_fmap fst), Hip, length_map, length_take. done. }
  assert (defined_vms placement_given n_vm hosts_max_vms n_hosts ≤ n_vm) as Hle.
  { unfold defined_vms, cap_to_hosts, cap_to_kavlan, max_vms.
    destruct placement_given; [lia|]. destruct (Z.gtb_spec n_vm 10000); lia. }
  split; [done|]. rewrite Hlen. lia.
Qed.

Lemma defined_vms_paired_witness :
  defined_vms false 3 6 2 ≤ 3
  ∧ (defined_vms false 3 6 2
     ≤ Z.of_nat (length [("10.27.255.253", "00:20:4e:00:01:02");
                         ("10.27.255.254", "00:20:4e:03:04:05")])
     ↔ defined_vms false 3 6 2
       ≤ Z.of_nat (length (Net.vm_ip_of ["sophia"; "rennes"] 5
                             (Net.iter_hosts Sample.net2)))).
Proof.
  apply (defined_vms_paired ["sophia"; "rennes"] 5 Sample.rnd_count 1 Sample.net2
           false 3 6 2).
  - lia.
  - vm_compute. reflexivity.
Defined.

End MachinesFacts.

Module PlacementFacts.
Import Placement.

Lemma iter_unfold (e : element) : iter e = e :: concat (map iter (children e)).
Proof.
  destruct e as [t a ch]. cbn [iter children]. f_equal.
  induction ch as [|c ch IH]; [done|]. cbn [map concat]. by rewrite IH.
Qed.

Lemma filter_length_app {A} (P : A → Prop) `{∀ x, Decision (P x)} (l1 l2 : list A) :
  length (filter P (l1 ++ l2)) = (length (filter P l1) + length (filter P l2))%nat.
Proof. by rewrite filter_app, length_app. Qed.

(** The elements of a tag below an element: those among its children and
    those below each child. *)
Lemma below_children (t : string) (chs : list element) :
  (Zsum (map (λ c, Z.of_nat (length (findall_below t c)))
             (filter (λ x, tag x = "cluster") chs))
   ≤ Z.of_nat (length (filter (λ x, tag x = t) (concat (map iter chs)))))%Z.
Proof.
  induction chs as [|c chs IH]; [done|].
  cbn [map concat]. rewrite filter_length_app, iter_unfold.
  assert (Z.of_nat (length (findall_below t c))
          ≤ Z.of_nat (length (filter (λ x, tag x = t)
                                (c :: concat (map iter (children c)))))) as Hc.
  { unfold findall_below. rewrite (filter_cons _ c).
    destruct (decide (tag c = t)); simpl; lia. }
  rewrite (filter_cons (λ x, tag x = "cluster") c).
  unfold Zsum in *.
  destruct (decide (tag c = "cluster")); cbn [map foldr]; lia.
Qed.

Lemma entered_fold (sites : list element) (r : gmap (option string) Z) :
  foldl (λ resources site,
           foldl (λ resources cluster, <[get cluster "id" := n_hosts cluster]> resources)
                 (<[get site "id" := n_hosts site]> resources)
                 (findall_child "cluster" site))
        r sites
  = foldl (λ resources e, <[get e "id" := n_hosts e]> resources) r
      (concat (map (λ site, site :: findall_child "cluster" site) sites)).
Proof.
  revert r. induction sites as [|s sites IH]; intros r; [done|].
  cbn [foldl map concat]. rewrite foldl_app. cbn [foldl]. by rewrite IH.
Qed.

Lemma insert_fold_lookup (l : list element) (r : gmap (option string) Z) (e : element) :
  NoDup (map (λ e, get e "id") l) → e ∈ l →
  foldl (λ resources e, <[get e "id" := n_hosts e]> resources) r l !! get e "id"
  = Some (n_hosts e).
Proof.
  revert r. induction l as [|x l IH]; intros r Hnd He; [by apply elem_of_nil in He|].
  cbn [map] in Hnd. apply NoDup_cons in Hnd as [Hx Hnd]. cbn [foldl].
  apply elem_of_cons in He as [->|He]; [|by apply IH].
  clear IH. revert r. induction l as [|y l IH]; intros r.
  - cbn [foldl]. by rewrite lookup_insert_eq.
  - cbn [foldl]. destruct (decide (get y "id" = get x "id")) as [Heq|Hne].
    + exfalso. apply Hx. cbn [map]. rewrite Heq. apply elem_of_cons. by left.
    + rewrite insert_insert_ne by done. apply IH.
      * intros Hin. apply Hx. cbn [map]. apply elem_of_cons. by right.
      * cbn [map] in Hnd. by apply NoDup_cons in Hnd as [_ ?].
Qed.

(** X25.  With a placement file whose sites and clusters bear distinct
    identifiers, lines 191-194 request every site and every cluster of a
    site with the number of [host] elements below it, and a site with no
    fewer hosts than its clusters together. *)
Theorem placement_request (placement : element) :
  NoDup (map (λ e, get e "id") (entered placement)) →
  ∀ site, site ∈ findall_child "site" placement →
    placement_resources placement !! get site "id" = Some (n_hosts site)
    ∧ (∀ cluster, cluster ∈ findall_child "cluster" site →
         placement_resources placement !! get cluster "id" = Some (n_hosts cluster))
    ∧ Zsum (map n_hosts (findall_child "cluster" site)) ≤ n_hosts site.
Proof.
  intros Hnd site Hsite. unfold placement_resources. rewrite entered_fold.
  fold (entered placement). split_and!.
  - apply insert_fold_lookup; [done|]. unfold entered. apply elem_of_concat.
    exists (site :: findall_child "cluster" site). split; [apply elem_of_cons; by left|].
    apply list_elem_of_fmap. by exists site.
  - intros cluster Hc. apply insert_fold_lookup; [done|]. unfold entered.
    apply elem_of_concat.
    exists (site :: findall_child "cluster" site). split; [apply elem_of_cons; by right|].
    apply list_elem_of_fmap. by exists site.
  - unfold n_hosts at 2, findall_child, findall_below. apply below_children.
Qed.

Lemma placement_request_witness :
  placement_resources sample_file !! get sample_site "id" = Some (n_hosts sample_site)
  ∧ (∀ cluster, cluster ∈ findall_child "cluster" sample_site →
       placement_resources sample_file !! get cluster "id" = Some (n_hosts cluster))
  ∧ Zsum (map n_hosts (findall_child "cluster" sample_site)) ≤ n_hosts sample_site.
Proof.
  apply (placement_request sample_file).
  - apply (bool_decide_unpack _). vm_compute. exact I.
  - apply elem_of_cons. left. reflexivity.
Defined.

Lemma total_same (py_int : string → option Z) (key : string) (x : Z)
    (vms : list element) :
  Forall (λ vm, int_attr py_int vm key = Some x) vms →
  total py_int key vms = Some (Z.of_nat (length vms) * x).
Proof.
  induction vms as [|vm vms IH]; intros Hall.
  - done.
  - apply Forall_cons in Hall as [Hvm Hall]. cbn [total]. rewrite Hvm, IH by done.
    cbn [mbind option_bind]. f_equal. cbn [length]. lia.
Qed.

(** X26.  The two ways of lines 170-183 agree on machines that are all
    alike: for a placement file in which every [vm] element has the
    attribute of the template, read as the same number, the total computed
    from the file is the one computed from the template for as many
    machines as the file holds. *)
Theorem totals_agree (py_int : string → option Z) (key : string) (x : Z)
    (n : option Z) (placement vm_template : element) :
  int_attr py_int vm_template key = Some x →
  Forall (λ vm, int_attr py_int vm key = Some x) (findall_below "vm" placement) →
  total_of py_int key n (Some placement) vm_template
  = total_of py_int key (n_vm_of n (Some placement)) None vm_template.
Proof.
  intros Ht Hall. cbn [total_of n_vm_of]. rewrite Ht. cbn [mbind option_bind].
  by apply total_same.
Qed.

Lemma totals_agree_witness :
  total_of sample_int "mem" None (Some sample_file) sample_template
  = total_of sample_int "mem" (n_vm_of None (Some sample_file)) None sample_template.
Proof.
  apply (totals_agree sample_int "mem" 512 None sample_file sample_template).
  - reflexivity.
  - apply (bool_decide_unpack _). vm_compute. exact I.
Defined.

End PlacementFacts.

Module OptionsFacts.
Import Placement Options.

(** X27.  A job without a number of machines passes the checks and stops
    at line 179.  With [-j] and neither [-n] nor [-i], and no clash among
    the other options, the checks of lines 152-163 accept the options; the
    number of machines is then [None], and the product of line 179 fails
    whatever the template is. *)
Theorem job_alone_stops (py_int : string → option Z) (o : options) (job : Z)
    (vm_template : element) :
  n_vm o = None → infile o = None → oargrid_job_id o = Some job →
  given_text (env_name o) && given_text (env_file o) = false →
  quiet o && verbose o = false →
  check_options o = Return tt
  ∧ n_vm_of (n_vm o) None = None
  ∧ total_of py_int "mem" (n_vm_of (n_vm o) None) None vm_template = None.
Proof.
  intros Hn Hi Hj He Hq. unfold check_options.
  rewrite Hn, Hi, Hj, He, Hq. cbn. split; [done|]. split; [done|].
  by destruct (int_attr py_int vm_template "mem").
Qed.

Lemma job_alone_stops_witness :
  check_options job_alone = Return tt
  ∧ n_vm_of (n_vm job_alone) None = None
  ∧ total_of sample_int "mem" (n_vm_of (n_vm job_alone) None) None sample_template
    = None.
Proof.
  apply (job_alone_stops sample_int job_alone 42 sample_template); reflexivity.
Defined.

End OptionsFacts.

Module JobStartFacts.
Import JobStart.

(** X28.  A job that is over goes unnoticed.  The test for a finished job
    (line 346) stands under the test for a job that has not started (line
    343): for a job whose walltime is over at the first reading of the
    clock, lines 343-350 do not leave the program, whatever the second
    reading is. *)
Theorem finished_job_unnoticed (start_date walltime : Z) (now now' : Q) :
  0 ≤ walltime →
  (inject_Z (start_date + walltime) < now)%Q →
  check_job_start start_date walltime now now' = Return tt.
Proof.
  intros Hw Hover. unfold check_job_start.
  destruct (Qlt_le_dec now (inject_Z start_date)) as [Hlt|Hle]; [|done].
  exfalso. apply (Qlt_irrefl now). eapply Qlt_trans; [exact Hlt|].
  eapply Qle_lt_trans; [|exact Hover].
  rewrite <- Zle_Qle. lia.
Qed.

Lemma finished_job_unnoticed_witness :
  check_job_start 100 10 (inject_Z 200) (inject_Z 201) = Return tt.
Proof.
  apply (finished_job_unnoticed 100 10 (inject_Z 200) (inject_Z 201)).
  - lia.
  - reflexivity.
Defined.

End JobStartFacts.
